(** * Project Noah's Ark: the Shop Manual generator

    A shallow embedding of [project_noahs_ark_Version2.py] and the
    properties its specification states about it.

    Conventions of the embedding:
    - a Python [str] is a [string] of 8-bit code points (the Latin-1 range
      of Python's code points);
    - a Python [int] is a [Z]; a Python [float] is an IEEE 754 binary64
      number, taken as [spec_float] at precision 53 and maximal exponent
      1024 with the Standard Library's correctly rounded operations;
    - a call that may raise returns a [result]: [Ok v] or [Raise e];
    - the catalogue object is threaded explicitly through the methods that
      mutate it. *)

From Stdlib Require Import ZArith List Bool Lia Ascii String DecimalString.
From Stdlib Require DecimalFacts DecimalPos.
From Stdlib Require Permutation.
From Stdlib Require Import Floats.SpecFloat.
Import ListNotations.

Local Open Scope string_scope.
Local Open Scope list_scope.

(** ** Exceptions and results *)

Inductive exn : Type :=
| ValueError
| IndexError
| KeyError (key : string)
| OverflowError
| AttributeError
| TypeError
| Exception (msg : string).

Inductive result (A : Type) : Type :=
| Ok (v : A)
| Raise (e : exn).

Arguments Ok {A} v.
Arguments Raise {A} e.

Definition bind {A B : Type} (r : result A) (k : A -> result B) : result B :=
  match r with
  | Ok v => k v
  | Raise e => Raise e
  end.

Notation "x <- r ;; k" := (bind r (fun x => k))
  (at level 61, r at next level, right associativity).

(** [try: body except Exception: pass], for a body run for its effect on a
    value of type [A]: the handler keeps the value the body started from. *)
Definition try_except_pass {A : Type} (body : result A) (unchanged : A) : A :=
  match body with
  | Ok v => v
  | Raise _ => unchanged
  end.

(** ** IEEE 754 binary64 *)

Module F64.

Definition prec : Z := 53.
Definition emax : Z := 1024.

Definition float : Type := spec_float.

(** The float nearest to the integer [z] (ties to even). *)
Definition of_Z (z : Z) : float := binary_normalize prec emax z 0 false.

(** The float nearest to the quotient [p / q] of two positive integers,
    with the sign [s]. *)
Definition of_quotient (s : bool) (p q : positive) : float :=
  let '(mz, ez, lz) := SFdiv_core_binary prec emax (Zpos p) 0 (Zpos q) 0 in
  binary_round_aux prec emax s mz ez lz.

(** The float nearest to [(-1)^s * m * 10^e]. *)
Definition of_decimal (s : bool) (m : Z) (e : Z) : float :=
  match m with
  | Zpos p =>
      match e with
      | Zneg k => of_quotient s p (Pos.pow 10 k)
      | _ => binary_normalize prec emax (if s then - (m * 10 ^ e) else m * 10 ^ e) 0 false
      end
  | _ => S754_zero s
  end.

Definition mul : float -> float -> float := SFmul prec emax.
Definition div : float -> float -> float := SFdiv prec emax.
Definition eqb : float -> float -> bool := SFeqb.
Definition ltb : float -> float -> bool := SFltb.
Definition leb : float -> float -> bool := SFleb.

Definition is_finite (f : float) : bool :=
  match f with
  | S754_zero _ | S754_finite _ _ _ => true
  | _ => false
  end.

End F64.

(** ** The Python runtime operations the program uses *)

Module Py.

(** *** Characters *)

Definition code (c : ascii) : nat := nat_of_ascii c.

(** [str.isspace] on one code point below 256. *)
Definition isspace (c : ascii) : bool :=
  let n := code c in
  (((9 <=? n) && (n <=? 13)) || ((28 <=? n) && (n <=? 32))
   || (n =? 133) || (n =? 160))%nat.

(** The line boundaries of [str.splitlines] below 256. *)
Definition islinebreak (c : ascii) : bool :=
  let n := code c in
  (((10 <=? n) && (n <=? 13)) || ((28 <=? n) && (n <=? 30)) || (n =? 133))%nat.

Definition isdigit (c : ascii) : bool :=
  let n := code c in ((48 <=? n) && (n <=? 57))%nat.

Definition digit_value (c : ascii) : Z := Z.of_nat (code c - 48).

Definition CR : ascii := ascii_of_nat 13.
Definition LF : ascii := ascii_of_nat 10.

(** *** Strings *)

(** [s[i:j]] for constants [0 <= i <= j]. *)
Definition slice (i j : nat) (s : string) : string := substring i (j - i) s.

(** [s[i]]. *)
Definition index (s : string) (i : nat) : result ascii :=
  match get i s with
  | Some c => Ok c
  | None => Raise IndexError
  end.

(** [s.startswith(p)]. *)
Fixpoint startswith (s p : string) : bool :=
  match p with
  | EmptyString => true
  | String a p' =>
      match s with
      | String c s' => Ascii.eqb a c && startswith s' p'
      | EmptyString => false
      end
  end.

(** Stripping the characters [sp] from both ends. *)
Fixpoint lstrip_of (sp : ascii -> bool) (s : string) : string :=
  match s with
  | String c r => if sp c then lstrip_of sp r else s
  | EmptyString => EmptyString
  end.

Fixpoint rstrip_of (sp : ascii -> bool) (s : string) : string :=
  match s with
  | String c r =>
      match rstrip_of sp r with
      | EmptyString => if sp c then EmptyString else String c EmptyString
      | r' => String c r'
      end
  | EmptyString => EmptyString
  end.

(** [s.strip()]. *)
Definition strip (s : string) : string := rstrip_of isspace (lstrip_of isspace s).

(** [str.splitlines()]: [cur] is the line being read, [after_cr] tells
    whether the last character was a carriage return. A line feed after a
    carriage return belongs to the same boundary; text after the last
    boundary is a line when it is not empty. *)
Fixpoint splitlines_from (cur : string) (after_cr : bool) (s : string) : list string :=
  match s with
  | EmptyString => match cur with EmptyString => [] | _ => [cur] end
  | String c r =>
      if after_cr && Ascii.eqb c LF then splitlines_from cur false r
      else if islinebreak c then cur :: splitlines_from EmptyString (Ascii.eqb c CR) r
      else splitlines_from (cur ++ String c EmptyString)%string false r
  end.

Definition splitlines (s : string) : list string :=
  splitlines_from EmptyString false s.

(** ["".join(parts)]. *)
Definition join_empty (parts : list string) : string := String.concat "" parts.

(** [str(n)] of an [int]. *)
Definition str_of_int (n : Z) : string := NilZero.string_of_int (Z.to_int n).

End Py.

(** *** [int(s)] and [float(s)] on a string *)

Module PyNum.
Import Py.

Definition underscore : ascii := "_"%char.

(** The white space [int] and [float] skip around a literal: the ASCII
    white space of C and, above 127, the Unicode spaces (the separators
    28 to 31 are spaces for [str.strip] but not here). *)
Definition isspace_num (c : ascii) : bool :=
  let n := code c in
  (((9 <=? n) && (n <=? 13)) || (n =? 32) || (n =? 133) || (n =? 160))%nat.

Definition trim (s : string) : string :=
  rstrip_of isspace_num (lstrip_of isspace_num s).

(** The digits of [int(s)] after the sign: digits with single underscores
    between them. [prev_digit] tells whether the last character read was
    a digit. *)
Fixpoint int_digits (prev_digit : bool) (acc : Z) (s : string) : option Z :=
  match s with
  | EmptyString => if prev_digit then Some acc else None
  | String c r =>
      if isdigit c then int_digits true (10 * acc + digit_value c)%Z r
      else if Ascii.eqb c underscore
           then (if prev_digit then int_digits false acc r else None)
           else None
  end.

(** An optional sign: whether it is a minus, and the rest. *)
Definition split_sign (s : string) : bool * string :=
  match s with
  | String c r =>
      if Ascii.eqb c "-"%char then (true, r)
      else if Ascii.eqb c "+"%char then (false, r)
      else (false, s)
  | EmptyString => (false, s)
  end.

(** [int(s)], base 10. *)
Definition int (s : string) : result Z :=
  let '(neg, body) := split_sign (trim s) in
  match int_digits false 0%Z body with
  | Some n => Ok (if neg then (- n)%Z else n)
  | None => Raise ValueError
  end.

(** The underscores of a float literal: each one between two digits. *)
Fixpoint drop_underscores (prev : option ascii) (s : string) : option string :=
  match s with
  | EmptyString =>
      match prev with
      | Some p => if Ascii.eqb p underscore then None else Some EmptyString
      | None => Some EmptyString
      end
  | String c r =>
      let prev_digit := match prev with Some p => isdigit p | None => false end in
      let prev_under := match prev with Some p => Ascii.eqb p underscore | None => false end in
      if Ascii.eqb c underscore then
        if prev_digit then drop_underscores (Some c) r else None
      else if prev_under && negb (isdigit c) then None
      else option_map (String c) (drop_underscores (Some c) r)
  end.

(** A run of digits: the number read so far, how many digits, the rest. *)
Fixpoint scan_digits (acc : Z) (n : nat) (s : string) : Z * nat * string :=
  match s with
  | String c r =>
      if isdigit c then scan_digits (10 * acc + digit_value c)%Z (S n) r
      else (acc, n, s)
  | EmptyString => (acc, n, s)
  end.

Definition lower (c : ascii) : ascii :=
  let n := code c in
  if ((65 <=? n) && (n <=? 90))%nat then ascii_of_nat (n + 32) else c.

Fixpoint lowercase (s : string) : string :=
  match s with
  | String c r => String (lower c) (lowercase r)
  | EmptyString => EmptyString
  end.

Definition is_exponent_mark (c : ascii) : bool :=
  Ascii.eqb c "e"%char || Ascii.eqb c "E"%char.

(** A decimal literal without its sign, as mantissa and power of ten:
    digits, an optional point and digits (one digit at least), an
    optional exponent. *)
Definition decimal (body : string) : option (Z * Z) :=
  let '(m1, n1, r1) := scan_digits 0%Z 0 body in
  let '(m2, n2, r2) :=
    match r1 with
    | String c r => if Ascii.eqb c "."%char then scan_digits m1 0 r else (m1, 0, r1)
    | EmptyString => (m1, 0, r1)
    end in
  if (n1 + n2 =? 0)%nat then None
  else
    match r2 with
    | EmptyString => Some (m2, (- Z.of_nat n2)%Z)
    | String c r =>
        if is_exponent_mark c then
          let '(eneg, r') := split_sign r in
          let '(ev, en, r'') := scan_digits 0%Z 0 r' in
          match en, r'' with
          | S _, EmptyString =>
              Some (m2, ((if eneg then - ev else ev) - Z.of_nat n2)%Z)
          | _, _ => None
          end
        else None
    end.

(** [float(s)]. *)
Definition float (s : string) : result F64.float :=
  match drop_underscores None (trim s) with
  | None => Raise ValueError
  | Some u =>
      let '(neg, body) := split_sign u in
      let word := lowercase body in
      if String.eqb word "inf" || String.eqb word "infinity"
      then Ok (S754_infinity neg)
      else if String.eqb word "nan" then Ok S754_nan
      else match decimal body with
           | Some (m, e) => Ok (F64.of_decimal neg m e)
           | None => Raise ValueError
           end
  end.

(** The conversion of an [int] operand of a float operation. *)
Definition int_to_float (z : Z) : result F64.float :=
  match F64.of_Z z with
  | S754_infinity _ => Raise OverflowError
  | f => Ok f
  end.

End PyNum.

(** *** [float.__repr__]: the shortest decimal that reads back *)

Module FloatRepr.

Definition digits_of (n : Z) : string :=
  NilZero.string_of_uint (N.to_uint (Z.to_N n)).

Definition nb_digits (n : Z) : Z := Z.of_nat (String.length (digits_of n)).

(** A positive finite float [m * 2^e] as a fraction of integers. *)
Definition fraction (m : positive) (e : Z) : Z * Z :=
  match e with
  | Zneg k => (Zpos m, Zpos (Pos.pow 2 k))
  | _ => ((Zpos m * 2 ^ e)%Z, 1%Z)
  end.

(** The decimal point of [p / q]: the [d] with
    [10^(d-1) <= p / q < 10^d]. *)
Definition decimal_point (p q : Z) : Z :=
  if (q <=? p)%Z then nb_digits (p / q)
  else (1 - nb_digits ((q - 1) / p))%Z.

(** [p / q] in units of [10^k]: numerator and denominator. *)
Definition scaled (p q k : Z) : Z * Z :=
  match k with
  | Zneg j => ((p * Zpos (Pos.pow 10 j))%Z, q)
  | _ => (p, (q * 10 ^ k)%Z)
  end.

Definition same_float (a b : spec_float) : bool :=
  match a, b with
  | S754_finite sa ma ea, S754_finite sb mb eb =>
      Bool.eqb sa sb && Pos.eqb ma mb && Z.eqb ea eb
  | _, _ => false
  end.

Fixpoint strip_zeros_rev (s : list ascii) : list ascii :=
  match s with
  | c :: r => if Ascii.eqb c "0"%char then strip_zeros_rev r else s
  | [] => []
  end.

Definition strip_trailing_zeros (s : string) : string :=
  string_of_list_ascii (rev (strip_zeros_rev (rev (list_ascii_of_string s)))).

Fixpoint zeros (n : nat) : string :=
  match n with
  | O => EmptyString
  | S k => String "0"%char (zeros k)
  end.

(** [repr] of a positive finite float from its digits [ds] and its
    decimal point: the value is [0.ds * 10^decpt]. *)
Definition format_short (ds : string) (decpt : Z) : string :=
  let n := Z.of_nat (String.length ds) in
  if ((decpt <=? -4) || (16 <? decpt))%Z then
    let e := (decpt - 1)%Z in
    let mant :=
      match ds with
      | String c EmptyString => ds
      | String c r => String c (String "."%char r)
      | EmptyString => ds
      end in
    let ea := digits_of (Z.abs e) in
    mant ++ "e" ++ (if (e <? 0)%Z then "-" else "+")
         ++ (if (Z.abs e <? 10)%Z then "0" ++ ea else ea)
  else if (decpt <=? 0)%Z then "0." ++ zeros (Z.to_nat (- decpt)) ++ ds
  else if (n <=? decpt)%Z then ds ++ zeros (Z.to_nat (decpt - n)) ++ ".0"
  else substring 0 (Z.to_nat decpt) ds ++ "."
       ++ substring (Z.to_nat decpt) (Z.to_nat (n - decpt)) ds.

(** The text of the decimal [c * 10^k] with the sign [s]: the digits of
    [c] without the zeros at their end. *)
Definition decimal_text (s : bool) (c k : Z) : string :=
  let ds := digits_of c in
  (if s then "-" else "")
  ++ format_short (strip_trailing_zeros ds) (k + Z.of_nat (String.length ds)).

(** [float(text) == x]. *)
Definition reads_as (text : string) (x : spec_float) : bool :=
  match PyNum.float text with
  | Ok y => same_float y x
  | Raise _ => false
  end.

(** The text of the decimal nearest to the float [x], of sign [s] and
    absolute value [p / q], among the positive multiples of [10^(d - n)]
    that read back as [x], if there is one: a decimal of [n] digits when
    [d] is the decimal point of [p / q]. *)
Definition candidate (x : spec_float) (s : bool) (p q : Z) (d : Z) (n : Z)
  : option string :=
  let k := (d - n)%Z in
  let '(num, den) := scaled p q k in
  let lo := (num / den)%Z in
  let r := (num mod den)%Z in
  let hi := (lo + 1)%Z in
  let lo_text := decimal_text s lo k in
  let hi_text := decimal_text s hi k in
  let lo_ok := (0 <? lo)%Z && reads_as lo_text x in
  let hi_ok := (0 <? hi)%Z && reads_as hi_text x in
  if lo_ok && hi_ok then
    (if (2 * r <? den)%Z then Some lo_text
     else if (den <? 2 * r)%Z then Some hi_text
     else if Z.even lo then Some lo_text else Some hi_text)
  else if lo_ok then Some lo_text
  else if hi_ok then Some hi_text
  else None.

(** The first text found with [n] digits, [n + 1] digits, and so on, in
    [tries] attempts. *)
Fixpoint shortest (x : spec_float) (s : bool) (p q d : Z) (n : Z) (tries : nat)
  : string :=
  match tries with
  | O => let '(num, den) := scaled p q (d - n) in
         decimal_text s
           (if (2 * (num mod den) <? den)%Z then num / den else num / den + 1)%Z
           (d - n)%Z
  | S t =>
      match candidate x s p q d n with
      | Some text => text
      | None => shortest x s p q d (n + 1)%Z t
      end
  end.

(** The number of digits of the exact decimal expansion of [m * 2^e], the
    decimal point being [d]: with that many digits the decimal is the
    float itself, so the search for a text that reads back ends there at
    the latest. *)
Definition exact_digits (e d : Z) : Z := Z.max 1 (d + Z.max 0 (- e)).

(** [float.__repr__]: the shortest decimal text that [float] reads back as
    the number, the nearest to the number among those of that length. *)
Definition repr (f : spec_float) : string :=
  match f with
  | S754_nan => "nan"
  | S754_infinity s => if s then "-inf" else "inf"
  | S754_zero s => if s then "-0.0" else "0.0"
  | S754_finite s m e =>
      let '(p, q) := fraction m e in
      let d := decimal_point p q in
      shortest f s p q d 1%Z (Z.to_nat (exact_digits e d))
  end.

End FloatRepr.

(** ** Data *)

(** A Python value as the program stores it in an entry: what [json.dumps]
    accepts. A [dict] keeps its keys in insertion order. *)
#[local] Unset Elimination Schemes.
Inductive value : Type :=
| VNone
| VBool (b : bool)
| VInt (n : Z)
| VFloat (f : F64.float)
| VStr (s : string)
| VList (items : list value)
| VDict (fields : list (string * value)).
#[local] Set Elimination Schemes.

Definition dict : Type := list (string * value).

(** [d.get(key)], absent when the key is. *)
Fixpoint dict_lookup {V : Type} (d : list (string * V)) (key : string) : option V :=
  match d with
  | (k, v) :: rest => if String.eqb k key then Some v else dict_lookup rest key
  | [] => None
  end.

(** [d[key] = v]: the value of an existing key is replaced in place, a new
    key goes last. *)
Fixpoint dict_set {V : Type} (d : list (string * V)) (key : string) (v : V)
  : list (string * V) :=
  match d with
  | (k, w) :: rest =>
      if String.eqb k key then (k, v) :: rest else (k, w) :: dict_set rest key v
  | [] => [(key, v)]
  end.

(** One atom record of [parse_pdb_to_json]: a dict with these eight keys. *)
Record Atom : Type := mkAtom {
  serial : Z;
  name : string;
  resName : string;
  chainID : string;
  resSeq : Z;
  x : F64.float;
  y : F64.float;
  z : F64.float
}.

(** The dict [parse_pdb_to_json] returns. *)
Record ParsedStructure : Type := mkParsed {
  header : list (string * string);
  atoms : list Atom
}.

(** An atom record as the dict it is. *)
Definition atom_value (a : Atom) : value :=
  VDict [("serial", VInt (serial a)); ("name", VStr (name a));
         ("resName", VStr (resName a)); ("chainID", VStr (chainID a));
         ("resSeq", VInt (resSeq a)); ("x", VFloat (x a)); ("y", VFloat (y a));
         ("z", VFloat (z a))].

(** A response of the HTTP client, as far as the program reads it: the
    status code and the lines [iter_lines] yields, each one after its
    [decode('utf-8')]. *)
Record Response : Type := mkResponse {
  status_code : Z;
  iter_lines : list string
}.

(** ** [class DataFetcher] *)

Module DataFetcher.
Import Py.

Definition PDB_BASE : string := "https://files.rcsb.org/download/".

Section Fetch.
(** [requests.get(url, stream=True)]. *)
Variable requests_get : string -> Response.

Definition fetch_pdb (pdb_id : string) : result string :=
  let url := (PDB_BASE ++ pdb_id ++ ".pdb")%string in
  let r := requests_get url in
  if (status_code r =? 200)%Z
  then Ok (join_empty (iter_lines r))
  else Raise (Exception ("PDB fetch failed for " ++ pdb_id ++ ": "
                         ++ str_of_int (status_code r))%string).
End Fetch.

(** The dict literal of the [try] block: the fields in the order the
    source evaluates them. *)
Definition atom_of_line (line : string) : result Atom :=
  serial <- PyNum.int (slice 6 11 line) ;;
  let name := strip (slice 12 16 line) in
  let resName := strip (slice 17 20 line) in
  c <- index line 21 ;;
  resSeq <- PyNum.int (slice 22 26 line) ;;
  x <- PyNum.float (slice 30 38 line) ;;
  y <- PyNum.float (slice 38 46 line) ;;
  z <- PyNum.float (slice 46 54 line) ;;
  Ok (mkAtom serial name resName (String c EmptyString) resSeq x y z).

Definition is_atom_line (line : string) : bool :=
  startswith line "ATOM" || startswith line "HETATM".

(** The body of the [for] loop. *)
Definition parse_line (data : ParsedStructure) (line : string)
  : result ParsedStructure :=
  if startswith line "HEADER" then
    Ok (mkParsed (dict_set (header data) "classification" (strip (slice 10 50 line)))
                 (atoms data))
  else if is_atom_line line then
    Ok (try_except_pass
          (a <- atom_of_line line ;;
           Ok (mkParsed (header data) (atoms data ++ [a])))
          data)
  else Ok data.

(** The [for] loop: it stops at the first statement that raises. *)
Fixpoint parse_lines (data : ParsedStructure) (lines : list string)
  : result ParsedStructure :=
  match lines with
  | line :: rest => data' <- parse_line data line ;; parse_lines data' rest
  | [] => Ok data
  end.

Definition parse_pdb_to_json (pdb_text : string) : result ParsedStructure :=
  parse_lines (mkParsed [] []) (splitlines pdb_text).

End DataFetcher.

(** ** [class Scorer] *)

Module Scorer.

(** The builtin [sum] of a list of [int]s. *)
Definition py_sum (l : list Z) : Z := fold_left Z.add l 0%Z.

Definition f24 : F64.float := F64.of_Z 24.
Definition f12 : F64.float := F64.of_Z 12.
Definition f100 : F64.float := F64.of_Z 100.

(** [(score / 24.0) * 100]: [score] is converted to a float first, which
    raises [OverflowError] beyond the range of floats. *)
Definition compute_geps
  (modality material spatial functional dynamic pathology multi_physics efficiency : Z)
  : result F64.float :=
  let score := py_sum [modality; material; spatial; functional; dynamic;
                       pathology; multi_physics; efficiency] in
  s <- PyNum.int_to_float score ;;
  Ok (F64.mul (F64.div s f24) f100).

Definition compute_qgeps (coherence advantage shielding evidence : Z)
  : result F64.float :=
  let score := py_sum [coherence; advantage; shielding; evidence] in
  s <- PyNum.int_to_float score ;;
  Ok (F64.mul (F64.div s f12) f100).

End Scorer.

(** ** The [json] module: [json.dumps(obj, indent=2)] and [json.loads(s)]

    The encoder and the scanner of CPython, on the values of type [value].
    The limits of the interpreter (the recursion depth, the digits of an
    [int] converted to or from text, memory) are not part of the model. *)

Module Json.
Import Py.

Definition dquote : ascii := Eval compute in ascii_of_nat 34.
Definition backslash : ascii := Eval compute in ascii_of_nat 92.
Definition TAB : ascii := Eval compute in ascii_of_nat 9.
Definition BS : ascii := Eval compute in ascii_of_nat 8.
Definition FF : ascii := Eval compute in ascii_of_nat 12.

(** *** The encoder *)

Definition hex_digit (n : nat) : ascii :=
  nth n (list_ascii_of_string "0123456789abcdef") "0"%char.

(** One character of a string under [ensure_ascii]: the short escapes, the
    printable ASCII characters as they are, [\u00xx] for the others. *)
Definition escape_char (c : ascii) : string :=
  if Ascii.eqb c dquote then String backslash (String dquote EmptyString)
  else if Ascii.eqb c backslash then String backslash (String backslash EmptyString)
  else if Ascii.eqb c LF then String backslash "n"
  else if Ascii.eqb c CR then String backslash "r"
  else if Ascii.eqb c TAB then String backslash "t"
  else if Ascii.eqb c BS then String backslash "b"
  else if Ascii.eqb c FF then String backslash "f"
  else if ((32 <=? code c) && (code c <=? 126))%nat then String c EmptyString
  else String backslash
         (String "u" (String "0" (String "0"
            (String (hex_digit (code c / 16)) (String (hex_digit (code c mod 16))
               EmptyString))))).

Fixpoint escape (s : string) : string :=
  match s with
  | String c r => (escape_char c ++ escape r)%string
  | EmptyString => EmptyString
  end.

Definition encode_string (s : string) : string :=
  String dquote (escape s ++ String dquote EmptyString)%string.

(** [float.__repr__], with the three names of the values JSON lacks. *)
Definition floatstr (f : F64.float) : string :=
  match f with
  | S754_nan => "NaN"
  | S754_infinity false => "Infinity"
  | S754_infinity true => "-Infinity"
  | _ => FloatRepr.repr f
  end.

Fixpoint spaces (n : nat) : string :=
  match n with
  | O => EmptyString
  | S k => String " " (spaces k)
  end.

(** A new line and the indentation of a nesting level, two spaces each. *)
Definition newline_indent (level : nat) : string := String LF (spaces (2 * level)).

(** The separator of the items at a nesting level. *)
Definition item_separator (level : nat) : string :=
  ("," ++ newline_indent level)%string.

Section Items.
Variable enc : value -> string.
Variable sep : string.

(** The items of a list after the first one, each after a separator. *)
Fixpoint encode_more (l : list value) : string :=
  match l with
  | v :: l' => (sep ++ enc v ++ encode_more l')%string
  | [] => EmptyString
  end.

Definition encode_pair (kv : string * value) : string :=
  (encode_string (fst kv) ++ ": " ++ enc (snd kv))%string.

Fixpoint encode_more_pairs (l : list (string * value)) : string :=
  match l with
  | kv :: l' => (sep ++ encode_pair kv ++ encode_more_pairs l')%string
  | [] => EmptyString
  end.
End Items.

(** The text of a value nested [level] deep. *)
Fixpoint encode (level : nat) (v : value) : string :=
  match v with
  | VNone => "null"
  | VBool true => "true"
  | VBool false => "false"
  | VInt n => str_of_int n
  | VFloat f => floatstr f
  | VStr s => encode_string s
  | VList [] => "[]"
  | VList (v0 :: l) =>
      ("[" ++ newline_indent (S level) ++ encode (S level) v0
       ++ encode_more (encode (S level)) (item_separator (S level)) l
       ++ newline_indent level ++ "]")%string
  | VDict [] => "{}"
  | VDict ((k, v0) :: l) =>
      ("{" ++ newline_indent (S level)
       ++ encode_string k ++ ": " ++ encode (S level) v0
       ++ encode_more_pairs (encode (S level)) (item_separator (S level)) l
       ++ newline_indent level ++ "}")%string
  end.

(** [json.dumps(obj, indent=2)]. *)
Definition dumps (v : value) : string := encode 0 v.

(** *** The decoder *)

Definition is_ws (c : ascii) : bool :=
  Ascii.eqb c " " || Ascii.eqb c TAB || Ascii.eqb c LF || Ascii.eqb c CR.

Definition skip_ws (s : string) : string := lstrip_of is_ws s.

Definition hex_value (c : ascii) : option nat :=
  let n := code c in
  if ((48 <=? n) && (n <=? 57))%nat then Some (n - 48)
  else if ((97 <=? n) && (n <=? 102))%nat then Some (n - 87)
  else if ((65 <=? n) && (n <=? 70))%nat then Some (n - 55)
  else None.

(** The character of [\uXXXX] when its code is below 256. A code above
    255 is outside the strings of this embedding: the scanner stops there
    without a result, and [loads] below gives no outcome for such a
    text. *)
Definition unicode_escape (h1 h2 h3 h4 : ascii) : option ascii :=
  match hex_value h1, hex_value h2, hex_value h3, hex_value h4 with
  | Some a, Some b, Some c, Some d =>
      if ((a =? 0) && (b =? 0))%nat then Some (ascii_of_nat (16 * c + d)) else None
  | _, _, _, _ => None
  end.

Definition short_escape (c : ascii) : option ascii :=
  if Ascii.eqb c dquote then Some dquote
  else if Ascii.eqb c backslash then Some backslash
  else if Ascii.eqb c "/" then Some "/"%char
  else if Ascii.eqb c "b" then Some BS
  else if Ascii.eqb c "f" then Some FF
  else if Ascii.eqb c "n" then Some LF
  else if Ascii.eqb c "r" then Some CR
  else if Ascii.eqb c "t" then Some TAB
  else None.

Definition push (c : ascii) (r : option (string * string)) : option (string * string) :=
  match r with
  | Some (body, rest) => Some (String c body, rest)
  | None => None
  end.

(** A string after its opening quote, in strict mode: the text up to the
    closing quote with its escapes read, and what follows the quote. *)
Fixpoint scanstring (s : string) : option (string * string) :=
  match s with
  | EmptyString => None
  | String c r =>
      if Ascii.eqb c dquote then Some (EmptyString, r)
      else if Ascii.eqb c backslash then
        match r with
        | String e r1 =>
            if Ascii.eqb e "u" then
              match r1 with
              | String h1 (String h2 (String h3 (String h4 r2))) =>
                  match unicode_escape h1 h2 h3 h4 with
                  | Some d => push d (scanstring r2)
                  | None => None
                  end
              | _ => None
              end
            else
              match short_escape e with
              | Some d => push d (scanstring r1)
              | None => None
              end
        | EmptyString => None
        end
      else if (code c <? 32)%nat then None
      else push c (scanstring r)
  end.

(** The longest run of digits at the head of a string, and the rest. *)
Fixpoint span_digits (s : string) : string * string :=
  match s with
  | String c r =>
      if isdigit c then let '(ds, rest) := span_digits r in (String c ds, rest)
      else (EmptyString, s)
  | EmptyString => (EmptyString, s)
  end.

(** The integer part of a number: a zero, or a digit from 1 to 9 and the
    digits after it. *)
Definition span_integer (s : string) : option (string * string) :=
  match s with
  | String c r =>
      if Ascii.eqb c "0" then Some ("0", r)
      else if isdigit c then let '(ds, rest) := span_digits r in Some (String c ds, rest)
      else None
  | EmptyString => None
  end.

(** A fraction: a point followed by one digit at least. *)
Definition span_fraction (s : string) : string * string :=
  match s with
  | String c (String d r) =>
      if Ascii.eqb c "." && isdigit d
      then let '(ds, rest) := span_digits r in (String c (String d ds), rest)
      else (EmptyString, s)
  | _ => (EmptyString, s)
  end.

(** An exponent: the mark, an optional sign and one digit at least;
    nothing is read when no digit follows. *)
Definition span_exponent (s : string) : string * string :=
  match s with
  | String c r =>
      if PyNum.is_exponent_mark c then
        let '(sign, r1) :=
          match r with
          | String g r' =>
              if Ascii.eqb g "-" || Ascii.eqb g "+"
              then (String g EmptyString, r') else (EmptyString, r)
          | EmptyString => (EmptyString, r)
          end in
        match span_digits r1 with
        | (String d ds, rest) => (String c (sign ++ String d ds), rest)%string
        | (EmptyString, _) => (EmptyString, s)
        end
      else (EmptyString, s)
  | EmptyString => (EmptyString, s)
  end.

Definition lift_value {A : Type} (f : A -> value) (r : result A) : option value :=
  match r with
  | Ok v => Some (f v)
  | Raise _ => None
  end.

(** A number at the head of a string: an [int] when it has neither a
    fraction nor an exponent, a [float] otherwise. *)
Definition match_number (s : string) : option (value * string) :=
  let '(sign, s1) :=
    match s with
    | String c r => if Ascii.eqb c "-" then ("-", r) else (EmptyString, s)
    | EmptyString => (EmptyString, s)
    end in
  match span_integer s1 with
  | None => None
  | Some (int_part, s2) =>
      let '(frac, s3) := span_fraction s2 in
      let '(expo, s4) := span_exponent s3 in
      let text := (sign ++ int_part ++ frac ++ expo)%string in
      match frac, expo with
      | EmptyString, EmptyString =>
          option_map (fun v => (v, s4)) (lift_value VInt (PyNum.int text))
      | _, _ =>
          option_map (fun v => (v, s4)) (lift_value VFloat (PyNum.float text))
      end
  end.

(** [s] after the word [w] when it starts with it. *)
Fixpoint after_word (w s : string) : option string :=
  match w with
  | EmptyString => Some s
  | String a w' =>
      match s with
      | String c r => if Ascii.eqb a c then after_word w' r else None
      | EmptyString => None
      end
  end.

(** The pairs of an object into a dict: a repeated key keeps its first
    place and takes the last value. *)
Definition dict_of_pairs (pairs : list (string * value)) : list (string * value) :=
  fold_left (fun d kv => dict_set d (fst kv) (snd kv)) pairs [].

(** The scanner. [fuel] bounds the number of nested calls; [loads] gives it
    more than the length of the text. [scan_once] reads one value at the
    head of the text, [parse_items] the values of an array from its first
    value to the closing bracket, [parse_pairs] the pairs of an object
    from its first key to the closing brace. *)
Fixpoint scan_once (fuel : nat) (s : string) : option (value * string) :=
  match fuel with
  | O => None
  | S fuel' =>
      match s with
      | EmptyString => None
      | String c r =>
          if Ascii.eqb c dquote then
            match scanstring r with
            | Some (str, rest) => Some (VStr str, rest)
            | None => None
            end
          else if Ascii.eqb c "{" then
            match skip_ws r with
            | String c1 r1 =>
                if Ascii.eqb c1 "}" then Some (VDict [], r1)
                else match parse_pairs fuel' (String c1 r1) with
                     | Some (pairs, rest) => Some (VDict (dict_of_pairs pairs), rest)
                     | None => None
                     end
            | EmptyString => None
            end
          else if Ascii.eqb c "[" then
            match skip_ws r with
            | String c1 r1 =>
                if Ascii.eqb c1 "]" then Some (VList [], r1)
                else match parse_items fuel' (String c1 r1) with
                     | Some (items, rest) => Some (VList items, rest)
                     | None => None
                     end
            | EmptyString => None
            end
          else if Ascii.eqb c "n" then
            option_map (fun rest => (VNone, rest)) (after_word "ull" r)
          else if Ascii.eqb c "t" then
            option_map (fun rest => (VBool true, rest)) (after_word "rue" r)
          else if Ascii.eqb c "f" then
            option_map (fun rest => (VBool false, rest)) (after_word "alse" r)
          else if Ascii.eqb c "N" then
            option_map (fun rest => (VFloat S754_nan, rest)) (after_word "aN" r)
          else if Ascii.eqb c "I" then
            option_map (fun rest => (VFloat (S754_infinity false), rest))
                       (after_word "nfinity" r)
          else
            match after_word "-Infinity" s with
            | Some rest => Some (VFloat (S754_infinity true), rest)
            | None => match_number s
            end
      end
  end

with parse_items (fuel : nat) (s : string) : option (list value * string) :=
  match fuel with
  | O => None
  | S fuel' =>
      match scan_once fuel' s with
      | None => None
      | Some (v, r) =>
          match skip_ws r with
          | String c r1 =>
              if Ascii.eqb c "]" then Some ([v], r1)
              else if Ascii.eqb c "," then
                match parse_items fuel' (skip_ws r1) with
                | Some (vs, rest) => Some (v :: vs, rest)
                | None => None
                end
              else None
          | EmptyString => None
          end
      end
  end

with parse_pairs (fuel : nat) (s : string) : option (list (string * value) * string) :=
  match fuel with
  | O => None
  | S fuel' =>
      match s with
      | String q r =>
          if Ascii.eqb q dquote then
            match scanstring r with
            | None => None
            | Some (key, r1) =>
                match skip_ws r1 with
                | String c r2 =>
                    if Ascii.eqb c ":" then
                      match scan_once fuel' (skip_ws r2) with
                      | None => None
                      | Some (v, r3) =>
                          match skip_ws r3 with
                          | String d r4 =>
                              if Ascii.eqb d "}" then Some ([(key, v)], r4)
                              else if Ascii.eqb d "," then
                                match parse_pairs fuel' (skip_ws r4) with
                                | Some (kvs, rest) => Some ((key, v) :: kvs, rest)
                                | None => None
                                end
                              else None
                          | EmptyString => None
                          end
                      end
                    else None
                | EmptyString => None
                end
            end
          else None
      | EmptyString => None
      end
  end.

(** Whether four characters are the hexadecimal digits of a code above
    255. *)
Definition wide_code (h1 h2 h3 h4 : ascii) : bool :=
  match hex_value h1, hex_value h2, hex_value h3, hex_value h4 with
  | Some a, Some b, Some _, Some _ => negb ((a =? 0) && (b =? 0))%nat
  | _, _, _, _ => false
  end.

(** Whether a text holds, anywhere, the characters of an escape [\uXXXX]
    with a code above 255. *)
Fixpoint mentions_wide (s : string) : bool :=
  match s with
  | String c r =>
      (Ascii.eqb c backslash
       && match r with
          | String u (String h1 (String h2 (String h3 (String h4 _)))) =>
              Ascii.eqb u "u" && wide_code h1 h2 h3 h4
          | _ => false
          end)
      || mentions_wide r
  | EmptyString => false
  end.

(** [json.loads(s)]: one value, white space around it allowed, nothing
    else; [JSONDecodeError] is a [ValueError]. The outcome is [None] where
    the embedding has none: when the scanner stops on a text that holds an
    escape above 255, which Python may decode to a string this embedding
    cannot hold. *)
Definition loads (s : string) : option (result value) :=
  match scan_once (S (String.length s)) (skip_ws s) with
  | Some (v, rest) =>
      match skip_ws rest with
      | EmptyString => Some (Ok v)
      | _ => Some (Raise ValueError)
      end
  | None => if mentions_wide s then None else Some (Raise ValueError)
  end.

End Json.

(** ** [class ShopManual] *)

(** The catalogue object. Its attribute [entries] holds whatever was last
    assigned to it: the list the methods append to, or what [load_json]
    decoded. *)
Record ShopManual : Type := mkShopManual { entries : value }.

(** A catalogue holding the entries [es], in this order. *)
Definition catalogue (es : list dict) : ShopManual :=
  mkShopManual (VList (map VDict es)).

(** A method run on the catalogue: it returns or raises, and leaves the
    catalogue in a new state. *)
Definition M (A : Type) : Type := ShopManual -> result A * ShopManual.

Definition ret {A : Type} (v : A) : M A := fun sm => (Ok v, sm).

Definition lift {A : Type} (r : result A) : M A := fun sm => (r, sm).

Definition mbind {A B : Type} (m : M A) (k : A -> M B) : M B :=
  fun sm =>
    match m sm with
    | (Ok v, sm') => k v sm'
    | (Raise e, sm') => (Raise e, sm')
    end.

Notation "x <~ m ;; k" := (mbind m (fun x => k))
  (at level 61, m at next level, right associativity).

Module ShopManualMethods.

(** [ShopManual()]. *)
Definition init : ShopManual := mkShopManual (VList []).

(** [self.entries.append(entry)]: only a list has [append]. *)
Definition add_entry (entry : dict) : M unit :=
  fun self =>
    match entries self with
    | VList l => (Ok tt, mkShopManual (VList (l ++ [VDict entry])))
    | _ => (Raise AttributeError, self)
    end.

Definition to_json (self : ShopManual) : string := Json.dumps (entries self).

(** [self.entries = json.loads(json_str)]; no outcome where [json.loads]
    has none in this embedding. *)
Definition load_json (json_str : string) (self : ShopManual)
  : option (result unit * ShopManual) :=
  match Json.loads json_str with
  | Some (Ok v) => Some (Ok tt, mkShopManual v)
  | Some (Raise e) => Some (Raise e, self)
  | None => None
  end.

(** What [for e in v] goes through. *)
Definition iterate (v : value) : result (list value) :=
  match v with
  | VList l => Ok l
  | VDict d => Ok (map (fun kv => VStr (fst kv)) d)
  | VStr s => Ok (map (fun c => VStr (String c EmptyString)) (list_ascii_of_string s))
  | _ => Raise TypeError
  end.

(** [e.get('PartID') == part_id], for a string [part_id]. *)
Definition has_part_id (d : dict) (part_id : string) : bool :=
  match dict_lookup d "PartID" with
  | Some (VStr s) => String.eqb s part_id
  | _ => false
  end.

(** The loop of [get_entry_by_id]: only a dict has [get]. *)
Fixpoint first_match (l : list value) (part_id : string) : result value :=
  match l with
  | e :: rest =>
      match e with
      | VDict d => if has_part_id d part_id then Ok e else first_match rest part_id
      | _ => Raise AttributeError
      end
  | [] => Ok (VDict [])
  end.

Definition get_entry_by_id (part_id : string) : M value :=
  fun self =>
    (l <- iterate (entries self) ;; first_match l part_id, self).

End ShopManualMethods.

(** ** [class AdaptiveAutoAuditor] *)

(** A target descriptor: a dict whose values are strings. *)
Definition target : Type := list (string * string).

(** [d.get(key)] as a value: [None] when the key is absent. *)
Definition get_value (d : target) (key : string) : value :=
  match dict_lookup d key with
  | Some s => VStr s
  | None => VNone
  end.

(** [d.get(key, default)]. *)
Definition get_default (d : target) (key default : string) : value :=
  match dict_lookup d key with
  | Some s => VStr s
  | None => VStr default
  end.

(** [d[key]]. *)
Definition get_item (d : target) (key : string) : result value :=
  match dict_lookup d key with
  | Some s => Ok (VStr s)
  | None => Raise (KeyError key)
  end.

(** [f"{v}"] of a string or [None]. *)
Definition format_opt (o : option string) : string :=
  match o with
  | Some s => s
  | None => "None"
  end.

Module AdaptiveAutoAuditor.
Import ShopManualMethods.

Section Audit.
Variable requests_get : string -> Response.

Definition audit_structure (t : target) : M dict :=
  let pdb_id := format_opt (dict_lookup t "PDB") in
  pdb_text <~ lift (DataFetcher.fetch_pdb requests_get pdb_id) ;;
  pdb_json <~ lift (DataFetcher.parse_pdb_to_json pdb_text) ;;
  geps <~ lift (Scorer.compute_geps 3 3 3 3 3 3 3 3) ;;
  part_id <~ lift (get_item t "PartID") ;;
  let entry : dict :=
    [("PartID", part_id);
     ("BiologicalStructure", get_value t "Name");
     ("InorganicCore", get_default t "Inorganic" "None");
     ("PrimaryFunction", get_default t "PrimaryFunction" "Unknown");
     ("SecondaryFunction", get_default t "SecondaryFunction" "Unknown");
     ("GEPS_Score", VFloat geps);
     ("FailureMode_Engineering", get_default t "FailureModeEngineering" "");
     ("FailureMode_Biological", get_default t "FailureModeBiological" "");
     ("DataSources", VStr ("PDB:" ++ pdb_id));
     ("ValidationPath", VStr "Structural Analysis");
     ("Atoms", VList (map atom_value (atoms pdb_json)))] in
  _ <~ add_entry entry ;;
  ret entry.

(** The loop of [run_batch], with the results so far. *)
Fixpoint run_batch_from (results : list dict) (batch : list target) : M (list dict) :=
  match batch with
  | t :: rest =>
      entry <~ audit_structure t ;;
      run_batch_from (results ++ [entry]) rest
  | [] => ret results
  end.

Definition run_batch (batch : list target) : M (list dict) := run_batch_from [] batch.

(** The auditor's own state: the queue of targets and the batch size. *)
Record Auditor : Type := mkAuditor {
  targets : list target;
  batch_size : Z
}.

(** [auto_run]: the [while] loop, run for [fuel] rounds at most. The result
    is [None] when the loop is still running after them; otherwise it is
    how the loop ended, with the queue and the catalogue it left. The
    progress messages it prints are not part of the model. *)
Fixpoint auto_run (fuel : nat) (self : Auditor) (sm : ShopManual)
  : option (result unit * Auditor * ShopManual) :=
  match targets self with
  | [] => Some (Ok tt, self, sm)
  | _ :: _ =>
      match fuel with
      | O => None
      | S fuel' =>
          let n := Z.to_nat (Z.min (batch_size self) (Z.of_nat (List.length (targets self)))) in
          let batch := firstn n (targets self) in
          let self' := mkAuditor (skipn n (targets self)) (batch_size self) in
          match run_batch batch sm with
          | (Ok _, sm') => auto_run fuel' self' sm'
          | (Raise e, sm') => Some (Raise e, self', sm')
          end
      end
  end.

End Audit.
End AdaptiveAutoAuditor.

(** ** [class QuantumAuditor] *)

(** The dict [identify_quantum_features] returns: its five keys. *)
Record QuantumFeatures : Type := mkFeatures {
  aromatic_rings : Z;
  chiral_centers : Z;
  metal_clusters : Z;
  radical_pairs : Z;
  decoherence : string
}.

Module QuantumAuditor.
Import ShopManualMethods.

(** [x in l] for strings. *)
Definition str_in (s : string) (l : list string) : bool := existsb (String.eqb s) l.

(** [sum(1 for a in l if cond(a))]. *)
Definition count_ones {A : Type} (cond : A -> bool) (l : list A) : Z :=
  Scorer.py_sum (map (fun _ => 1%Z) (filter cond l)).

Definition identify_quantum_features (pdb_json : ParsedStructure) : QuantumFeatures :=
  let atoms := atoms pdb_json in
  mkFeatures
    (count_ones (fun a => str_in (resName a) ["PHE"; "TRP"; "TYR"]) atoms)
    (count_ones (fun a => str_in (resName a)
                            ["ALA"; "VAL"; "LEU"; "ILE"; "THR"; "SER"]) atoms)
    (count_ones (fun a => str_in (name a) ["FE"; "MN"; "CU"; "MG"]) atoms)
    (if str_in "FAD" (map resName atoms) then 1%Z else 0%Z)
    "Oxygen / Thermal Noise".

(** The truth value of an [int]. *)
Definition truthy (n : Z) : bool := negb (n =? 0)%Z.

Section Audit.
Variable requests_get : string -> Response.

Definition audit_quantum_candidate (pdb_id part_id name : string) : M dict :=
  pdb_text <~ lift (DataFetcher.fetch_pdb requests_get pdb_id) ;;
  pdb_json <~ lift (DataFetcher.parse_pdb_to_json pdb_text) ;;
  let quantum_features := identify_quantum_features pdb_json in
  qgeps <~ lift (Scorer.compute_qgeps
                   (if truthy (aromatic_rings quantum_features) then 3 else 1)
                   (if truthy (radical_pairs quantum_features) then 3 else 1)
                   (if truthy (metal_clusters quantum_features) then 3 else 1)
                   2) ;;
  let entry : dict :=
    [("PartID", VStr part_id);
     ("BiologicalStructure", VStr name);
     ("QuantumPrimitive", VStr "Quantum Sensor / Qubit Candidate");
     ("Q-GEPS_Score", VFloat qgeps);
     ("DecoherenceSource", VStr (decoherence quantum_features));
     ("ProposedQuantumFunction", VStr "Magnetoreception / Coherent Energy Transport");
     ("QuantumValidationPath", VStr "2D Spectroscopy / Pulsed EPR");
     ("DataSources", VStr ("PDB:" ++ pdb_id))] in
  _ <~ add_entry entry ;;
  ret entry.

End Audit.
End QuantumAuditor.

(** ** The targets and the master runner *)

Definition generate_targets : list target :=
  [[("PartID", "MAG-001"); ("Name", "Magnetosome"); ("PDB", "4DYF");
    ("Inorganic", "Magnetite"); ("PrimaryFunction", "Non-Volatile Memory");
    ("SecondaryFunction", "Magnetometer");
    ("FailureModeEngineering", "Bit Flip / Array Corruption");
    ("FailureModeBiological", "Navigational Deficit")];
   [("PartID", "BONE-001"); ("Name", "Osteon Hydroxyapatite"); ("PDB", "1AOE");
    ("Inorganic", "Hydroxyapatite"); ("PrimaryFunction", "Load Bearing");
    ("SecondaryFunction", "Piezoelectric Transducer");
    ("FailureModeEngineering", "Fracture / Microcrack");
    ("FailureModeBiological", "Osteoporosis")];
   [("PartID", "DIA-001"); ("Name", "Diatom Frustule"); ("PDB", "2QID");
    ("Inorganic", "Silica"); ("PrimaryFunction", "Structural Scaffold");
    ("SecondaryFunction", "Optical Waveguide");
    ("FailureModeEngineering", "Crack / Shear");
    ("FailureModeBiological", "Growth Impairment")]].

(** [run_full_audit], up to the text it writes to [shop_manual.json]: the
    batches of the three targets, the quantum audit of the example
    candidate, the JSON text of the catalogue. The result is [None] when
    [auto_run] is still running after [fuel] rounds. *)
Definition run_full_audit (requests_get : string -> Response) (fuel : nat)
  : option (result string) :=
  let sm := ShopManualMethods.init in
  let auditor := AdaptiveAutoAuditor.mkAuditor generate_targets 3 in
  match AdaptiveAutoAuditor.auto_run requests_get fuel auditor sm with
  | None => None
  | Some (Raise e, _, _) => Some (Raise e)
  | Some (Ok _, _, sm1) =>
      match QuantumAuditor.audit_quantum_candidate requests_get
              "6ZU0" "CRY-001" "Cryptochrome 4" sm1 with
      | (Raise e, _) => Some (Raise e)
      | (Ok _, sm2) => Some (Ok (ShopManualMethods.to_json sm2))
      end
  end.

(** ** Specification-side definitions for the parser *)

Module ParseSpec.
Import Py DataFetcher.

(** The records one line contributes: one for an atom line whose fields
    all convert, none otherwise. *)
Definition record_of_line (line : string) : list Atom :=
  if is_atom_line line then
    match atom_of_line line with
    | Ok a => [a]
    | Raise _ => []
    end
  else [].

Definition records_of (lines : list string) : list Atom :=
  flat_map record_of_line lines.

(** The atom records of a text parsed on its own. *)
Definition atoms_alone (text : string) : list Atom :=
  match parse_pdb_to_json text with
  | Ok d => atoms d
  | Raise _ => []
  end.

Fixpoint has_break (s : string) : bool :=
  match s with
  | String c r => islinebreak c || has_break r
  | EmptyString => false
  end.

(** A text without line boundary as the list of its lines. *)
Definition line_list (s : string) : list string :=
  match s with
  | EmptyString => []
  | String _ _ => [s]
  end.

Definition raises {A : Type} (r : result A) : Prop := exists e, r = Raise e.

(** An atom line one of whose fields does not convert. *)
Definition malformed (line : string) : Prop :=
  raises (PyNum.int (slice 6 11 line))
  \/ get 21 line = None
  \/ raises (PyNum.int (slice 22 26 line))
  \/ raises (PyNum.float (slice 30 38 line))
  \/ raises (PyNum.float (slice 38 46 line))
  \/ raises (PyNum.float (slice 46 54 line)).

(** The text of the structural scenario: a header line and one atom line. *)
Definition header_line : string := "HEADER    MAGNETIC PROTEIN".
Definition atom_line : string :=
  "ATOM      1 FE   MAG A  10       1.000   2.000   3.000".
Definition fixture : string := (header_line ++ String LF atom_line)%string.

Definition one : F64.float := F64.of_Z 1.
Definition two : F64.float := F64.of_Z 2.
Definition three : F64.float := F64.of_Z 3.

Definition fixture_atom : Atom := mkAtom 1 "FE" "MAG" "A" 10 one two three.

End ParseSpec.

(** ** Specification-side definitions for the scores *)

Module ScoreSpec.

Definition zero : F64.float := F64.of_Z 0.
Definition hundred : F64.float := F64.of_Z 100.

(** [0 <= f <= 100]. *)
Definition is_percentage (f : F64.float) : bool :=
  F64.leb zero f && F64.leb f hundred.

(** The floats Python writes [41.66666666666667], [58.333333333333336],
    [75.0] and [91.66666666666666]. *)
Definition q5 : F64.float := S754_finite false 5864062014805334 (-47).
Definition q7 : F64.float := S754_finite false 8209686820727467 (-47).
Definition q9 : F64.float := S754_finite false 5277655813324800 (-46).
Definition q11 : F64.float := S754_finite false 6450468216285866 (-46).

(** The float nearest to the decimal [m * 10^e], for [m >= 0]. *)
Definition dec (m e : Z) : F64.float := F64.of_decimal false m e.

(** [lo < f < hi]. *)
Definition between (lo f hi : F64.float) : bool := F64.ltb lo f && F64.ltb f hi.

End ScoreSpec.

(** ** Specification-side definitions for the quantum audit *)

Module QuantumSpec.

Definition AROMATIC : list string := ["PHE"; "TRP"; "TYR"].
Definition CHIRAL : list string := ["ALA"; "VAL"; "LEU"; "ILE"; "THR"; "SER"].
Definition METALS : list string := ["FE"; "MN"; "CU"; "MG"].

Definition member (s : string) (l : list string) : bool :=
  if in_dec string_dec s l then true else false.

(** The number of atoms whose field [field] is one of [names]. *)
Definition count_atoms (field : Atom -> string) (names : list string) (l : list Atom) : Z :=
  Z.of_nat (List.length (filter (fun a => member (field a) names) l)).

(** The four inputs of the quantum score the audit derives from the
    features. *)
Definition quantum_inputs (f : QuantumFeatures) : Z * Z * Z * Z :=
  (if (aromatic_rings f =? 0)%Z then 1%Z else 3%Z,
   if (radical_pairs f =? 0)%Z then 1%Z else 3%Z,
   if (metal_clusters f =? 0)%Z then 1%Z else 3%Z,
   2%Z).

Definition qgeps_of_inputs (i : Z * Z * Z * Z) : result F64.float :=
  let '(c, a, s, e) := i in Scorer.compute_qgeps c a s e.

(** The entry a quantum audit assembles. *)
Definition quantum_entry (pdb_id part_id name : string) (score : F64.float) : dict :=
  [("PartID", VStr part_id);
   ("BiologicalStructure", VStr name);
   ("QuantumPrimitive", VStr "Quantum Sensor / Qubit Candidate");
   ("Q-GEPS_Score", VFloat score);
   ("DecoherenceSource", VStr "Oxygen / Thermal Noise");
   ("ProposedQuantumFunction", VStr "Magnetoreception / Coherent Energy Transport");
   ("QuantumValidationPath", VStr "2D Spectroscopy / Pulsed EPR");
   ("DataSources", VStr ("PDB:" ++ pdb_id))].

(** A stand-in for the HTTP client whose every response yields the
    fixture as one chunk. *)
Definition fixture_client (url : string) : Response :=
  mkResponse 200 [ParseSpec.fixture].

(** A stand-in whose every response yields the two lines of the fixture
    one after the other, as [iter_lines] does for a body with a line feed
    between them. *)
Definition two_line_client (url : string) : Response :=
  mkResponse 200 [ParseSpec.header_line; ParseSpec.atom_line].

(** A stand-in that finds no structure. *)
Definition missing_client (url : string) : Response := mkResponse 404 [].

End QuantumSpec.

(** ** Specification-side definitions for the catalogue *)

Module CatalogueSpec.
Import ShopManualMethods.

(** The entry a structural audit assembles from a target, the fetched
    identifier, the score and the parsed atoms. *)
Definition structural_entry (t : target) (part_id : value) (pdb_id : string)
  (geps : F64.float) (parsed : ParsedStructure) : dict :=
  [("PartID", part_id);
   ("BiologicalStructure", get_value t "Name");
   ("InorganicCore", get_default t "Inorganic" "None");
   ("PrimaryFunction", get_default t "PrimaryFunction" "Unknown");
   ("SecondaryFunction", get_default t "SecondaryFunction" "Unknown");
   ("GEPS_Score", VFloat geps);
   ("FailureMode_Engineering", get_default t "FailureModeEngineering" "");
   ("FailureMode_Biological", get_default t "FailureModeBiological" "");
   ("DataSources", VStr ("PDB:" ++ pdb_id));
   ("ValidationPath", VStr "Structural Analysis");
   ("Atoms", VList (map atom_value (atoms parsed)))].

Section Audited.
Variable requests_get : string -> Response.

(** The entry of one structural audit, or the exception that ends it. *)
Definition audited_entry (t : target) : result dict :=
  let pdb_id := format_opt (dict_lookup t "PDB") in
  pdb_text <- DataFetcher.fetch_pdb requests_get pdb_id ;;
  parsed <- DataFetcher.parse_pdb_to_json pdb_text ;;
  geps <- Scorer.compute_geps 3 3 3 3 3 3 3 3 ;;
  part_id <- get_item t "PartID" ;;
  Ok (structural_entry t part_id pdb_id geps parsed).

(** The entries of the targets audited in order up to the first failure,
    and that failure if there is one. *)
Fixpoint audited (batch : list target) : list dict * option exn :=
  match batch with
  | t :: rest =>
      match audited_entry t with
      | Ok e => let '(es, failure) := audited rest in (e :: es, failure)
      | Raise err => ([], Some err)
      end
  | [] => ([], None)
  end.

(** The operations on a catalogue other than [load_json]. *)
Inductive operation : Type :=
| OpAddEntry (entry : dict)
| OpToJson
| OpGetEntryById (part_id : string)
| OpAuditStructure (t : target)
| OpRunBatch (batch : list target)
| OpAuditQuantum (pdb_id part_id name : string).

(** The catalogue an operation leaves. *)
Definition run_operation (op : operation) (sm : ShopManual) : ShopManual :=
  match op with
  | OpAddEntry entry => snd (add_entry entry sm)
  | OpToJson => sm
  | OpGetEntryById part_id => snd (get_entry_by_id part_id sm)
  | OpAuditStructure t => snd (AdaptiveAutoAuditor.audit_structure requests_get t sm)
  | OpRunBatch batch => snd (AdaptiveAutoAuditor.run_batch requests_get batch sm)
  | OpAuditQuantum pdb_id part_id name =>
      snd (QuantumAuditor.audit_quantum_candidate requests_get pdb_id part_id name sm)
  end.

End Audited.

(** The target of the structural scenario: the first of [generate_targets]. *)
Definition magnetosome : target := hd [] generate_targets.

(** A catalogue after the structural audit of the scenario and a quantum
    audit. *)
Definition example_entries : list dict :=
  [structural_entry magnetosome (VStr "MAG-001") "4DYF" ScoreSpec.hundred
     (mkParsed [("classification", "MAGNETIC PROTEIN")] [ParseSpec.fixture_atom]);
   QuantumSpec.quantum_entry "6ZU0" "CRY-001" "Cryptochrome 4" ScoreSpec.q5].

End CatalogueSpec.

(** ** Specification-side definitions for the JSON round trip *)

Module JsonSpec.

(** Induction on values, with the items of a list and the values of a
    dict as premises. *)
Section ValueInduction.
Variable P : value -> Prop.
Hypothesis HNone : P VNone.
Hypothesis HBool : forall b, P (VBool b).
Hypothesis HInt : forall n, P (VInt n).
Hypothesis HFloat : forall f, P (VFloat f).
Hypothesis HStr : forall s, P (VStr s).
Hypothesis HList : forall l, Forall P l -> P (VList l).
Hypothesis HDict : forall d, Forall (fun kv => P (snd kv)) d -> P (VDict d).

Fixpoint value_induction (v : value) : P v :=
  match v with
  | VNone => HNone
  | VBool b => HBool b
  | VInt n => HInt n
  | VFloat f => HFloat f
  | VStr s => HStr s
  | VList l =>
      HList l ((fix items (l : list value) : Forall P l :=
                  match l with
                  | [] => Forall_nil P
                  | v :: l' => Forall_cons v (value_induction v) (items l')
                  end) l)
  | VDict d =>
      HDict d ((fix pairs (d : list (string * value)) : Forall (fun kv => P (snd kv)) d :=
                  match d with
                  | [] => Forall_nil _
                  | kv :: d' => Forall_cons kv (value_induction (snd kv)) (pairs d')
                  end) d)
  end.
End ValueInduction.

Definition same_float (a b : F64.float) : bool :=
  match a, b with
  | S754_zero sa, S754_zero sb => Bool.eqb sa sb
  | S754_finite sa ma ea, S754_finite sb mb eb =>
      Bool.eqb sa sb && Pos.eqb ma mb && Z.eqb ea eb
  | _, _ => false
  end.

(** A float that JSON can hold: a finite one whose text is a number that
    reads back as the float. *)
Definition float_representable (f : F64.float) : bool :=
  match Json.match_number (Json.floatstr f) with
  | Some (VFloat g, EmptyString) => same_float g f
  | _ => false
  end.

Fixpoint distinct (keys : list string) : bool :=
  match keys with
  | k :: rest => negb (existsb (String.eqb k) rest) && distinct rest
  | [] => true
  end.

(** A value that JSON can hold: its floats are representable and the keys
    of each of its dicts are distinct. *)
Fixpoint representable (v : value) : bool :=
  match v with
  | VFloat f => float_representable f
  | VList l => forallb representable l
  | VDict d => distinct (map fst d) && forallb (fun kv => representable (snd kv)) d
  | _ => true
  end.

(** A well-formed entry. *)
Definition well_formed (entry : dict) : bool := representable (VDict entry).

(** A float that JSON holds: a binary64 number, finite. *)
Definition json_float (f : F64.float) : bool :=
  valid_binary F64.prec F64.emax f && F64.is_finite f.

(** A value of Python that JSON holds: its floats are finite binary64
    numbers, and the keys of each of its dicts are distinct, as the keys
    of a [dict] are. *)
Fixpoint json_value (v : value) : bool :=
  match v with
  | VFloat f => json_float f
  | VList l => forallb json_value l
  | VDict d => distinct (map fst d) && forallb (fun kv => json_value (snd kv)) d
  | _ => true
  end.

(** An entry that JSON holds. *)
Definition json_entry (entry : dict) : bool := json_value (VDict entry).

(** The coordinates of an atom have a JSON text that reads back. *)
Definition atom_representable (a : Atom) : bool :=
  float_representable (x a) && float_representable (y a) && float_representable (z a).

(** The number of nested calls the scanner makes on the text of a value. *)
Fixpoint size (v : value) : nat :=
  match v with
  | VList l => S (fold_right (fun v n => S (size v + n)) 0 l)
  | VDict d => S (fold_right (fun kv n => S (size (snd kv) + n)) 0 d)
  | _ => 1
  end.

(** What may follow a number for it to end there. *)
Definition delimited (rest : string) : bool :=
  match rest with
  | String c _ =>
      negb (Py.isdigit c || Ascii.eqb c "." || Ascii.eqb c "e" || Ascii.eqb c "E"
            || Ascii.eqb c "+" || Ascii.eqb c "-")
  | EmptyString => true
  end.

(** A text that starts with a character other than white space. *)
Definition starts_plain (s : string) : bool :=
  match s with
  | String c _ => negb (Json.is_ws c)
  | EmptyString => false
  end.

(** A text that starts as a value may: not with white space, nor with a
    closing bracket. *)
Definition starts_value (s : string) : bool :=
  match s with
  | String c _ => negb (Json.is_ws c) && negb (Ascii.eqb c "]")
  | EmptyString => false
  end.

(** The nested calls for the items of a list, and for the pairs of a
    dict. *)
Definition items_size (l : list value) : nat :=
  fold_right (fun v n => S (size v + n)) 0 l.

Definition pairs_size (d : list (string * value)) : nat :=
  fold_right (fun kv n => S (size (snd kv) + n)) 0 d.

(** The text of [v], at any nesting level and before any delimited text,
    is read back as [v] by a scanner with fuel for its size. *)
Definition reads_back (v : value) : Prop :=
  forall (level : nat) (rest : string) (fuel : nat),
    delimited rest = true -> size v <= fuel ->
    Json.scan_once fuel (Json.encode level v ++ rest) = Some (v, rest).

(** A pair of a token and the text after it, with more text after. *)
Definition extend (rest : string) (p : string * string) : string * string :=
  (fst p, (snd p ++ rest)%string).

(** A text a number is read from starts with a digit, or with a minus
    sign and a digit. *)
Definition number_head (s : string) : Prop :=
  match s with
  | String c r =>
      Py.isdigit c = true
      \/ (c = "-"%char /\ match r with
                         | String d _ => Py.isdigit d = true
                         | EmptyString => False
                         end)
  | EmptyString => False
  end.

(** The number a decimal numeral denotes after the digits read so far,
    most significant digit first. *)
Fixpoint uint_value (acc : Z) (u : Decimal.uint) : Z :=
  match u with
  | Decimal.Nil => acc
  | Decimal.D0 u' => uint_value (10 * acc + 0) u'
  | Decimal.D1 u' => uint_value (10 * acc + 1) u'
  | Decimal.D2 u' => uint_value (10 * acc + 2) u'
  | Decimal.D3 u' => uint_value (10 * acc + 3) u'
  | Decimal.D4 u' => uint_value (10 * acc + 4) u'
  | Decimal.D5 u' => uint_value (10 * acc + 5) u'
  | Decimal.D6 u' => uint_value (10 * acc + 6) u'
  | Decimal.D7 u' => uint_value (10 * acc + 7) u'
  | Decimal.D8 u' => uint_value (10 * acc + 8) u'
  | Decimal.D9 u' => uint_value (10 * acc + 9) u'
  end%Z.

(** A number written with a point: an optional minus sign, the digits
    before the point, the point, the digits after it. *)
Definition fixed_point (neg : bool) (u1 u2 : Decimal.uint) : string :=
  ((if neg then "-" else "") ++ NilEmpty.string_of_uint u1 ++ "."
   ++ NilEmpty.string_of_uint u2)%string.

(** A string of digits only. *)
Fixpoint all_digits (s : string) : bool :=
  match s with
  | String c r => Py.isdigit c && all_digits r
  | EmptyString => true
  end.

Fixpoint none_of (sp : ascii -> bool) (s : string) : bool :=
  match s with
  | String c r => negb (sp c) && none_of sp r
  | EmptyString => true
  end.

(** The JSON text of a list with one string, the character of code 256
    written as an escape. *)
Definition wide_text : string :=
  ("[" ++ String Json.dquote ("\u0100" ++ String Json.dquote "]"))%string.

End JsonSpec.

(** ** Number literals *)

Module LiteralSpec.

(** The number a run of digits denotes after the digits read so far. *)
Fixpoint digits_value (acc : Z) (s : string) : Z :=
  match s with
  | String c r => digits_value (10 * acc + Py.digit_value c)%Z r
  | EmptyString => acc
  end.

(** A text that does not go on with a digit. *)
Definition not_digit_head (rest : string) : Prop :=
  match rest with
  | String c _ => Py.isdigit c = false
  | EmptyString => True
  end.

(** The fraction of a literal: a point and the digits [ds], or nothing. *)
Definition fraction_text (ds : string) : string :=
  match ds with
  | EmptyString => EmptyString
  | _ => "." ++ ds
  end.

(** The exponent of a literal: the mark, a sign and digits, or nothing. *)
Definition exponent_text (x : option (bool * string)) : string :=
  match x with
  | Some (neg, ds) => "e" ++ (if neg then "-" else "+") ++ ds
  | None => EmptyString
  end.

Definition exponent_value (x : option (bool * string)) : Z :=
  match x with
  | Some (neg, ds) => if neg then (- digits_value 0 ds)%Z else digits_value 0 ds
  | None => 0%Z
  end.

(** A number literal: a sign, the digits before the point, the digits
    after it, an exponent. *)
Definition literal (neg : bool) (ip fp : string) (x : option (bool * string)) : string :=
  (if neg then "-" else "") ++ ip ++ fraction_text fp ++ exponent_text x.

(** The parts of a literal that [float] reads: digits before the point,
    digits only after it and in the exponent. *)
Definition float_literal (ip fp : string) (x : option (bool * string)) : Prop :=
  JsonSpec.all_digits ip = true /\ ip <> EmptyString
  /\ JsonSpec.all_digits fp = true
  /\ match x with
     | Some (_, ds) => JsonSpec.all_digits ds = true /\ ds <> EmptyString
     | None => True
     end.

(** The parts of a literal that is a JSON float: no zero before other
    digits, and a fraction or an exponent. *)
Definition json_literal (ip fp : string) (x : option (bool * string)) : Prop :=
  float_literal ip fp x
  /\ (ip = "0"
      \/ match ip with
         | String c _ => Ascii.eqb c "0" = false
         | EmptyString => False
         end)
  /\ (fp <> EmptyString \/ x <> None).

(** The decimal [M * 10^E] is the fraction [p / q]. *)
Definition denotes (M E p q : Z) : Prop :=
  ((0 <= E -> M * 10 ^ E * q = p) /\ (E < 0 -> M * q = p * 10 ^ (- E)))%Z.

End LiteralSpec.

(** ** [class RemoteDatabase] *)

Module RemoteDatabase.

(** A response of the HTTP client as the remote database reads it: the
    status code and the body as text. *)
Record Reply : Type := mkReply {
  status_code : Z;
  text : string
}.

(** [response.json()]: the body decoded as JSON. *)
Definition json (r : Reply) : option (result value) := Json.loads (text r).

(** The attributes [__init__] sets. *)
Record RemoteDatabase : Type := mkRemoteDatabase {
  base_url : string;
  api_key : string;
  headers : list (string * string)
}.

Definition is_slash (c : ascii) : bool := Ascii.eqb c "/"%char.

(** [RemoteDatabase(base_url, api_key)]. *)
Definition init (base_url api_key : string) : RemoteDatabase :=
  mkRemoteDatabase (Py.rstrip_of is_slash base_url) api_key
    [("Authorization", ("Bearer " ++ api_key)%string)].

Section Requests.
(** [requests.post(url, headers=headers, json=entry)] and
    [requests.get(url, headers=headers, params=query)]: a reply, or the
    exception of a request that fails. *)
Variable requests_post : string -> list (string * string) -> dict -> result Reply.
Variable requests_get : string -> list (string * string) -> option dict -> result Reply.

Definition push_entry (self : RemoteDatabase) (entry : dict)
  : option (result value) :=
  let url := (base_url self ++ "/entries")%string in
  match requests_post url (headers self) entry with
  | Raise e => Some (Raise e)
  | Ok response =>
      if (status_code response =? 200)%Z || (status_code response =? 201)%Z
      then json response
      else Some (Raise (Exception ("Failed to push entry: "
                                   ++ Py.str_of_int (status_code response) ++ " "
                                   ++ text response)%string))
  end.

Definition fetch_entries (self : RemoteDatabase) (query : option dict)
  : option (result value) :=
  let url := (base_url self ++ "/entries")%string in
  match requests_get url (headers self) query with
  | Raise e => Some (Raise e)
  | Ok response =>
      if (status_code response =? 200)%Z
      then json response
      else Some (Raise (Exception ("Failed to fetch entries: "
                                   ++ Py.str_of_int (status_code response) ++ " "
                                   ++ text response)%string))
  end.

End Requests.
End RemoteDatabase.

(** ** Specification-side definitions for the further properties *)

Module PipelineSpec.
Import Py DataFetcher.

(** The last line that starts with HEADER, if there is one. *)
Definition last_header (lines : list string) : option string :=
  fold_left (fun found line => if startswith line "HEADER" then Some line else found)
            lines None.

(** The header dict [parse_pdb_to_json] builds from the lines. *)
Definition header_of (lines : list string) : list (string * string) :=
  match last_header lines with
  | Some line => [("classification", strip (slice 10 50 line))]
  | None => []
  end.

(** The ends of line a text file is written with. *)
Definition CRLF : string := String CR (String LF EmptyString).

Definition is_ending (ending : string) : Prop :=
  ending = CRLF \/ exists c, islinebreak c = true /\ ending = String c EmptyString.

(** The text of the lines, each followed by [ending]. *)
Fixpoint terminated (ending : string) (lines : list string) : string :=
  match lines with
  | line :: rest => (line ++ ending ++ terminated ending rest)%string
  | [] => EmptyString
  end.

(** [k] slashes. *)
Fixpoint slashes (k : nat) : string :=
  match k with
  | O => EmptyString
  | S k' => String "/"%char (slashes k')
  end.

Fixpoint last_char (s : string) : option ascii :=
  match s with
  | EmptyString => None
  | String c EmptyString => Some c
  | String _ r => last_char r
  end.

(** The score of a sum, for each of the two scores. *)
Definition geps_of_sum (s : Z) : result F64.float :=
  x <- PyNum.int_to_float s ;; Ok (F64.mul (F64.div x Scorer.f24) Scorer.f100).

Definition qgeps_of_sum (s : Z) : result F64.float :=
  x <- PyNum.int_to_float s ;; Ok (F64.mul (F64.div x Scorer.f12) Scorer.f100).

(** [a < b] for two scores that were computed. *)
Definition score_lt (a b : result F64.float) : bool :=
  match a, b with
  | Ok x, Ok y => F64.ltb x y
  | _, _ => false
  end.

(** Every element of the list is below every later one. *)
Fixpoint increasing (l : list (result F64.float)) : bool :=
  match l with
  | a :: rest => forallb (score_lt a) rest && increasing rest
  | [] => true
  end.

(** The integers from [lo], [n] of them. *)
Fixpoint range (lo : Z) (n : nat) : list Z :=
  match n with
  | O => []
  | S k => lo :: range (lo + 1) k
  end.

(** A printable ASCII character, or a line feed. *)
Definition is_plain (c : ascii) : bool :=
  let n := code c in
  ((32 <=? n) && (n <=? 126) || (n =? 10))%nat.

Fixpoint all_plain (s : string) : bool :=
  match s with
  | String c r => is_plain c && all_plain r
  | EmptyString => true
  end.

(** The URL [fetch_pdb] requests. *)
Definition pdb_url (pdb_id : string) : string := (PDB_BASE ++ pdb_id ++ ".pdb")%string.

(** The number of targets [auto_run] has taken off its queue when the
    target at position [failed] fails: the batches up to the failing one,
    or the whole queue when that batch is the last. *)
Definition taken (size failed len : nat) : nat :=
  Nat.min len (size * (failed / size + 1)).

(** A field of width [w] that holds [s] after spaces. *)
Definition rjust (w : nat) (s : string) : string :=
  (Json.spaces (w - String.length s) ++ s)%string.

(** A line of a PDB file by its columns: the tag in columns 0 to 5, the
    serial in 6 to 10, the name in 12 to 15, the residue name in 17 to 19,
    the chain identifier in column 21, the residue number in 22 to 25, the
    coordinates in 30 to 37, 38 to 45 and 46 to 53, with the characters
    between these fields and what follows the last one. *)
Record Columns : Type := mkColumns {
  tag_field : string;
  serial_field : string;
  column_11 : ascii;
  name_field : string;
  column_16 : ascii;
  res_field : string;
  column_20 : ascii;
  chain_field : ascii;
  seq_field : string;
  columns_26_29 : string;
  x_field : string;
  y_field : string;
  z_field : string;
  tail_field : string
}.

Definition line_of (c : Columns) : string :=
  (tag_field c ++ serial_field c
   ++ String (column_11 c)
        (name_field c
         ++ String (column_16 c)
              (res_field c
               ++ String (column_20 c)
                    (String (chain_field c)
                       (seq_field c ++ columns_26_29 c ++ x_field c ++ y_field c
                        ++ z_field c ++ tail_field c)))))%string.

(** Every field has the width of its columns. *)
Definition laid_out (c : Columns) : Prop :=
  map String.length
      [tag_field c; serial_field c; name_field c; res_field c; seq_field c;
       columns_26_29 c; x_field c; y_field c; z_field c]
  = [6; 5; 4; 3; 4; 4; 8; 8; 8].

(** A number written with a point: its sign, the digits before the point
    and the digits after it. *)
Record Fixed : Type := mkFixed {
  negative : bool;
  whole : Decimal.uint;
  fraction : Decimal.uint
}.

Definition fixed_text (d : Fixed) : string :=
  JsonSpec.fixed_point (negative d) (whole d) (fraction d).

(** The float nearest to the number. *)
Definition fixed_value (d : Fixed) : F64.float :=
  F64.of_decimal (negative d)
    (JsonSpec.uint_value (JsonSpec.uint_value 0 (whole d)) (fraction d))
    (- Z.of_nat (Decimal.nb_digits (fraction d))).

Definition has_digit (d : Fixed) : Prop :=
  whole d <> Decimal.Nil \/ fraction d <> Decimal.Nil.

(** A string that does not start with a character of [sp]. *)
Definition head_kept (sp : ascii -> bool) (s : string) : Prop :=
  match s with
  | String c _ => sp c = false
  | EmptyString => True
  end.

(** A text that does not start with a line feed. *)
Definition no_line_feed_first (s : string) : Prop :=
  match s with
  | String c _ => Ascii.eqb c LF = false
  | EmptyString => True
  end.

(** The quantum score an audit gives a parsed structure: the score of the
    inputs it derives from the features. *)
Definition audit_score (pdb_json : ParsedStructure) : result F64.float :=
  let quantum_features := QuantumAuditor.identify_quantum_features pdb_json in
  Scorer.compute_qgeps
    (if QuantumAuditor.truthy (aromatic_rings quantum_features) then 3 else 1)
    (if QuantumAuditor.truthy (radical_pairs quantum_features) then 3 else 1)
    (if QuantumAuditor.truthy (metal_clusters quantum_features) then 3 else 1)
    2.

(** [a <= b] for two scores that were computed. *)
Definition score_le (a b : result F64.float) : bool :=
  match a, b with
  | Ok x, Ok y => F64.leb x y
  | _, _ => false
  end.

Section Downloads.
Variable requests_get : string -> Response.

(** The exception of the first download that fails, among those of the
    structures [ids] in order. *)
Fixpoint first_failure (ids : list string) : option exn :=
  match ids with
  | pdb_id :: rest =>
      match fetch_pdb requests_get pdb_id with
      | Ok _ => first_failure rest
      | Raise err => Some err
      end
  | [] => None
  end.

End Downloads.

End PipelineSpec.

(** A string [s] of known length, by [H], as its characters. *)
Ltac explode s H :=
  repeat (destruct s as [|? s]; [discriminate H|]);
  destruct s; [|discriminate H].

(** * Theorems *)

(** ** Strings *)

Section StringFacts.

Lemma append_nil_r (s : string) : (s ++ "")%string = s.
Proof. induction s; simpl; congruence. Qed.

Lemma append_assoc (a b c : string) : ((a ++ b) ++ c = a ++ (b ++ c))%string.
Proof. induction a; simpl; congruence. Qed.

Lemma append_length (a b : string) :
  String.length (a ++ b) = String.length a + String.length b.
Proof. induction a; simpl; congruence. Qed.

End StringFacts.

(** ** The parser *)

Section ParseFacts.
Import Py DataFetcher ParseSpec.

Lemma header_line_not_atom line :
  startswith line "HEADER" = true -> is_atom_line line = false.
Proof.
  unfold is_atom_line.
  destruct line as [|c1 [|c2 [|c3 r]]]; cbn [startswith];
    rewrite ?andb_false_r; try discriminate.
  intros H.
  apply andb_prop in H as [H1 H]. apply andb_prop in H as [H2 H].
  apply andb_prop in H as [H3 _].
  apply Ascii.eqb_eq in H1 as <-. apply Ascii.eqb_eq in H2 as <-.
  apply Ascii.eqb_eq in H3 as <-. reflexivity.
Qed.

Lemma parse_line_atoms data line :
  exists h, parse_line data line = Ok (mkParsed h (atoms data ++ record_of_line line)).
Proof.
  unfold parse_line, record_of_line.
  destruct (startswith line "HEADER") eqn:Hh.
  - rewrite (header_line_not_atom _ Hh), app_nil_r. eexists; reflexivity.
  - destruct (is_atom_line line).
    + destruct (atom_of_line line) as [a|e]; simpl.
      * eexists; reflexivity.
      * rewrite app_nil_r. exists (header data). destruct data; reflexivity.
    + rewrite app_nil_r. exists (header data). destruct data; reflexivity.
Qed.

Lemma parse_lines_atoms lines : forall data,
  exists h, parse_lines data lines = Ok (mkParsed h (atoms data ++ records_of lines)).
Proof.
  induction lines as [|line rest IH]; intros data; simpl.
  - rewrite app_nil_r. exists (header data). destruct data; reflexivity.
  - destruct (parse_line_atoms data line) as [h ->]. simpl.
    destruct (IH (mkParsed h (atoms data ++ record_of_line line))) as [h' ->].
    exists h'. simpl. now rewrite <- app_assoc.
Qed.

Lemma parse_atoms text :
  exists d, parse_pdb_to_json text = Ok d /\ atoms d = records_of (splitlines text).
Proof.
  unfold parse_pdb_to_json.
  destruct (parse_lines_atoms (splitlines text) (mkParsed [] [])) as [h ->].
  eexists; split; reflexivity.
Qed.

(** Lines of [splitlines] hold no line boundary. *)
Lemma has_break_app (a b : string) :
  has_break (a ++ b) = has_break a || has_break b.
Proof.
  induction a as [|c a IH]; simpl; [reflexivity|].
  now rewrite IH, orb_assoc.
Qed.

Lemma splitlines_from_no_break s : forall cur after_cr line,
  has_break cur = false ->
  In line (splitlines_from cur after_cr s) -> has_break line = false.
Proof.
  induction s as [|c r IH]; intros cur after_cr line Hcur Hin; simpl in Hin.
  - destruct cur; simpl in Hin; [contradiction|].
    destruct Hin as [<-|[]]; exact Hcur.
  - destruct (after_cr && Ascii.eqb c LF).
    + eapply IH; eauto.
    + destruct (islinebreak c) eqn:Hc.
      * destruct Hin as [<-|Hin]; [exact Hcur|].
        eapply IH; [|exact Hin]. reflexivity.
      * eapply IH; [|exact Hin].
        rewrite has_break_app, Hcur. simpl. now rewrite Hc.
Qed.

Lemma splitlines_no_break text line :
  In line (splitlines text) -> has_break line = false.
Proof. apply splitlines_from_no_break. reflexivity. Qed.

Lemma splitlines_from_whole s : forall cur,
  has_break s = false ->
  splitlines_from cur false s =
  line_list (cur ++ s).
Proof.
  induction s as [|c r IH]; intros cur Hs; simpl.
  - now rewrite append_nil_r.
  - simpl in Hs. apply orb_false_iff in Hs as [Hc Hr].
    rewrite Hc. rewrite IH by exact Hr.
    now rewrite append_assoc.
Qed.

Lemma atoms_alone_line line :
  has_break line = false -> atoms_alone line = record_of_line line.
Proof.
  intros Hl. unfold atoms_alone.
  destruct (parse_atoms line) as [d [-> ->]].
  unfold splitlines. rewrite splitlines_from_whole by exact Hl.
  destruct line; simpl.
  - reflexivity.
  - now rewrite app_nil_r.
Qed.

Lemma records_of_alone text :
  records_of (splitlines text) = flat_map atoms_alone (splitlines text).
Proof.
  unfold records_of.
  assert (H : forall l, In l (splitlines text) -> has_break l = false)
    by (intros l; apply splitlines_no_break).
  induction (splitlines text) as [|l ls IH]; simpl; [reflexivity|].
  rewrite atoms_alone_line by (apply H; now left).
  f_equal. apply IH. intros l' Hl'. apply H. now right.
Qed.

End ParseFacts.

Section ParseClaims.
Import Py DataFetcher ParseSpec.

Lemma records_of_app l1 l2 : records_of (l1 ++ l2) = records_of l1 ++ records_of l2.
Proof. apply flat_map_app. Qed.

Lemma atom_of_line_fields line n c r fx fy fz :
  PyNum.int (slice 6 11 line) = Ok n ->
  get 21 line = Some c ->
  PyNum.int (slice 22 26 line) = Ok r ->
  PyNum.float (slice 30 38 line) = Ok fx ->
  PyNum.float (slice 38 46 line) = Ok fy ->
  PyNum.float (slice 46 54 line) = Ok fz ->
  atom_of_line line =
  Ok (mkAtom n (strip (slice 12 16 line)) (strip (slice 17 20 line))
             (String c EmptyString) r fx fy fz).
Proof.
  intros Hn Hc Hr Hx Hy Hz. unfold atom_of_line, index.
  rewrite Hn, Hc, Hr, Hx, Hy, Hz. reflexivity.
Qed.

(** C1. A well-formed atom line of a text yields exactly one record, with
    the serial read from columns 6-11, the trimmed name from 12-16, the
    trimmed residue name from 17-20, the character at column 21 as chain
    identifier, the residue number from 22-26 and the coordinates from
    30-38, 38-46 and 46-54; the records stand in the order of the lines,
    the records of the lines before it first and of the lines after it
    last, repeated lines included. *)
Theorem parse_well_formed_atom_line
  (text : string) (before after : list string) (line : string)
  (n r : Z) (c : ascii) (fx fy fz : F64.float) :
  splitlines text = before ++ line :: after ->
  is_atom_line line = true ->
  PyNum.int (slice 6 11 line) = Ok n ->
  get 21 line = Some c ->
  PyNum.int (slice 22 26 line) = Ok r ->
  PyNum.float (slice 30 38 line) = Ok fx ->
  PyNum.float (slice 38 46 line) = Ok fy ->
  PyNum.float (slice 46 54 line) = Ok fz ->
  exists d,
    parse_pdb_to_json text = Ok d
    /\ atoms d = records_of (splitlines text)
    /\ atoms d =
       records_of before
       ++ [mkAtom n (strip (slice 12 16 line)) (strip (slice 17 20 line))
                  (String c EmptyString) r fx fy fz]
       ++ records_of after.
Proof.
  intros Hsplit Htag Hn Hc Hr Hx Hy Hz.
  destruct (parse_atoms text) as [d [Hd Ha]].
  exists d. repeat split; [exact Hd | exact Ha |].
  rewrite Ha, Hsplit, records_of_app. f_equal.
  change (records_of (line :: after)) with (record_of_line line ++ records_of after).
  f_equal. unfold record_of_line.
  now rewrite Htag, (atom_of_line_fields line n c r fx fy fz).
Qed.

Lemma parse_well_formed_atom_line_witness :
  exists d,
    parse_pdb_to_json fixture = Ok d
    /\ atoms d = records_of (splitlines fixture)
    /\ atoms d = records_of [header_line] ++ [fixture_atom] ++ records_of [].
Proof.
  apply (parse_well_formed_atom_line fixture [header_line] [] atom_line
           1 10 "A"%char one two three); reflexivity.
Defined.

End ParseClaims.

Section ParseErrors.
Import Py DataFetcher ParseSpec.

Lemma malformed_raises line : malformed line -> raises (atom_of_line line).
Proof.
  unfold malformed, raises, atom_of_line, index.
  intros H.
  destruct (PyNum.int (slice 6 11 line)) as [n|e1]; [|now exists e1].
  destruct (get 21 line) as [c|]; [|now exists IndexError].
  destruct (PyNum.int (slice 22 26 line)) as [r|e2]; [|now exists e2].
  destruct (PyNum.float (slice 30 38 line)) as [fx|e3]; [|now exists e3].
  destruct (PyNum.float (slice 38 46 line)) as [fy|e4]; [|now exists e4].
  destruct (PyNum.float (slice 46 54 line)) as [fz|e5]; [|now exists e5].
  destruct H as [[e H]|[H|[[e H]|[[e H]|[[e H]|[e H]]]]]]; discriminate.
Qed.

Lemma raises_no_record line : raises (atom_of_line line) -> record_of_line line = [].
Proof.
  intros [e He]. unfold record_of_line. rewrite He. now destruct (is_atom_line line).
Qed.

Lemma substring_past_end s : forall n m,
  String.length s <= n -> substring n m s = EmptyString.
Proof.
  induction s as [|c s IH]; intros n m Hn.
  - destruct n, m; reflexivity.
  - destruct n as [|n]; simpl in Hn; [lia|].
    simpl. apply IH. lia.
Qed.

Lemma get_past_end s : forall n, String.length s <= n -> get n s = None.
Proof.
  induction s as [|c s IH]; intros n Hn.
  - reflexivity.
  - destruct n as [|n]; simpl in Hn; [lia|]. simpl. apply IH. lia.
Qed.

(** A line that ends before its last coordinate starts is malformed. *)
Lemma short_line_malformed line : String.length line <= 46 -> malformed line.
Proof.
  intros Hlen. do 5 right. unfold slice.
  rewrite substring_past_end by lia. now exists ValueError.
Qed.

(** C2. Parsing never raises. The atom records of a text are those its
    lines yield when each is parsed alone, in order; an atom line that has
    a field that does not convert (a numeric field that is not a number, a
    line that ends before column 21 or before its last coordinate) yields
    none, and the records of the text are those of the lines around it. *)
Theorem parse_drops_malformed_lines (text : string) :
  exists d,
    parse_pdb_to_json text = Ok d
    /\ atoms d = flat_map atoms_alone (splitlines text)
    /\ (forall line, String.length line <= 46 -> malformed line)
    /\ (forall line, malformed line -> record_of_line line = [])
    /\ (forall before bad after,
          splitlines text = before ++ bad :: after ->
          malformed bad ->
          atoms_alone bad = []
          /\ atoms d = flat_map atoms_alone before ++ flat_map atoms_alone after).
Proof.
  destruct (parse_atoms text) as [d [Hd Ha]].
  exists d. split; [exact Hd|].
  assert (Hall : atoms d = flat_map atoms_alone (splitlines text))
    by (now rewrite Ha, records_of_alone).
  split; [exact Hall|].
  split; [exact short_line_malformed|].
  split; [intros line Hm; now apply raises_no_record, malformed_raises|].
  intros before bad after Hsplit Hbad.
  assert (Hnone : atoms_alone bad = []).
  { rewrite atoms_alone_line.
    - now apply raises_no_record, malformed_raises.
    - apply (splitlines_no_break text). rewrite Hsplit.
      apply in_or_app. right. now left. }
  split; [exact Hnone|].
  rewrite Hall, Hsplit, flat_map_app. simpl. now rewrite Hnone.
Qed.

(** A text with a line whose serial is not a number and a line that is too
    short, between two good lines: the two good lines give the records. *)
Example parse_mixed_lines :
  parse_pdb_to_json
    (atom_line ++ String LF "ATOM      x FE   MAG A  10       1.000   2.000   3.000"
     ++ String LF "ATOM      2 FE" ++ String LF atom_line)
  = Ok (mkParsed [] [fixture_atom; fixture_atom]).
Proof. reflexivity. Qed.

End ParseErrors.

(** ** The scores *)

Section ScoreFacts.
Import Scorer ScoreSpec.

Lemma py_sum_from l : forall a, fold_left Z.add l a = (a + py_sum l)%Z.
Proof.
  unfold py_sum.
  induction l as [|x l IH]; intros a; simpl.
  - lia.
  - rewrite IH, (IH x). lia.
Qed.

Lemma py_sum_cons x l : py_sum (x :: l) = (x + py_sum l)%Z.
Proof. unfold py_sum at 1. simpl. apply py_sum_from. Qed.

Lemma py_sum_nil : py_sum [] = 0%Z.
Proof. reflexivity. Qed.

Lemma compute_geps_sum a b c d e f g h :
  compute_geps a b c d e f g h =
  (x <- PyNum.int_to_float (a + b + c + d + e + f + g + h) ;;
   Ok (F64.mul (F64.div x f24) f100)).
Proof.
  unfold compute_geps. rewrite !py_sum_cons, py_sum_nil.
  replace (a + (b + (c + (d + (e + (f + (g + (h + 0))))))))%Z
    with (a + b + c + d + e + f + g + h)%Z by lia.
  reflexivity.
Qed.

Lemma compute_qgeps_sum a b c d :
  compute_qgeps a b c d =
  (x <- PyNum.int_to_float (a + b + c + d) ;; Ok (F64.mul (F64.div x f12) f100)).
Proof.
  unfold compute_qgeps. rewrite !py_sum_cons, py_sum_nil.
  replace (a + (b + (c + (d + 0))))%Z with (a + b + c + d)%Z by lia.
  reflexivity.
Qed.

(** Sums from -1000 to 1000 convert to a float. *)
Lemma small_sums_convert s :
  (-1000 <= s <= 1000)%Z -> exists x, PyNum.int_to_float s = Ok x.
Proof.
  intros Hs.
  assert (Hall : forallb (fun k => match PyNum.int_to_float (Z.of_nat k - 1000) with
                                   | Ok _ => true
                                   | Raise _ => false
                                   end) (seq 0 2001) = true)
    by (vm_compute; reflexivity).
  rewrite forallb_forall in Hall.
  specialize (Hall (Z.to_nat (s + 1000))).
  replace (Z.of_nat (Z.to_nat (s + 1000)) - 1000)%Z with s in Hall by lia.
  destruct (PyNum.int_to_float s) as [x|e].
  - now exists x.
  - discriminate Hall. apply in_seq. lia.
Qed.

(** With every input from 1 to 3 the general score is a percentage. *)
Lemma geps_in_range_sum s :
  (8 <= s <= 24)%Z ->
  exists x y, PyNum.int_to_float s = Ok x
              /\ y = F64.mul (F64.div x f24) f100 /\ is_percentage y = true.
Proof.
  intros Hs.
  assert (Hall : forallb (fun k => match PyNum.int_to_float (Z.of_nat k) with
                                   | Ok x => is_percentage (F64.mul (F64.div x f24) f100)
                                   | Raise _ => false
                                   end) (seq 8 17) = true)
    by (vm_compute; reflexivity).
  rewrite forallb_forall in Hall.
  specialize (Hall (Z.to_nat s)).
  replace (Z.of_nat (Z.to_nat s)) with s in Hall by lia.
  destruct (PyNum.int_to_float s) as [x|e].
  - exists x, (F64.mul (F64.div x f24) f100). repeat split.
    apply Hall. apply in_seq. lia.
  - discriminate Hall. apply in_seq. lia.
Qed.

Lemma qgeps_in_range_sum s :
  (4 <= s <= 12)%Z ->
  exists x y, PyNum.int_to_float s = Ok x
              /\ y = F64.mul (F64.div x f12) f100 /\ is_percentage y = true.
Proof.
  intros Hs.
  assert (Hall : forallb (fun k => match PyNum.int_to_float (Z.of_nat k) with
                                   | Ok x => is_percentage (F64.mul (F64.div x f12) f100)
                                   | Raise _ => false
                                   end) (seq 4 9) = true)
    by (vm_compute; reflexivity).
  rewrite forallb_forall in Hall.
  specialize (Hall (Z.to_nat s)).
  replace (Z.of_nat (Z.to_nat s)) with s in Hall by lia.
  destruct (PyNum.int_to_float s) as [x|e].
  - exists x, (F64.mul (F64.div x f12) f100). repeat split.
    apply Hall. apply in_seq. lia.
  - discriminate Hall. apply in_seq. lia.
Qed.

(** The claim of C3 as the specification states it fails: a sum beyond the
    range of floats does not convert, and the score is not computed. *)
Lemma compute_geps_not_total :
  compute_geps (2 ^ 1024) 0 0 0 0 0 0 0 = Raise OverflowError
  /\ compute_qgeps (2 ^ 1024) 0 0 0 = Raise OverflowError.
Proof. split; vm_compute; reflexivity. Qed.

(** C3 (amended). Each score is a function of the sum of its inputs: when
    the sum converts to a float [x], the general score is [x / 24.0 * 100]
    and the quantum score [x / 12.0 * 100] in float arithmetic, and the
    score raises [OverflowError] when the sum does not convert; sums from
    -1000 to 1000 convert. [compute_geps(3,3,3,3,3,3,3,3)] is [100.0] and
    [compute_qgeps(1,1,1,2)] is the float Python writes
    [41.66666666666667], between 41.666666666 and 41.666666667. No bound is checked: with every input from 1 to 3 the scores lie
    in [0, 100], while all inputs 4 give more than 100 and all inputs -1
    less than 0. *)
Theorem scores_follow_the_sum (a b c d e f g h : Z) :
  (forall x, PyNum.int_to_float (a + b + c + d + e + f + g + h) = Ok x ->
             compute_geps a b c d e f g h = Ok (F64.mul (F64.div x f24) f100))
  /\ (forall x, PyNum.int_to_float (a + b + c + d) = Ok x ->
                compute_qgeps a b c d = Ok (F64.mul (F64.div x f12) f100))
  /\ (forall err, PyNum.int_to_float (a + b + c + d + e + f + g + h) = Raise err ->
                  compute_geps a b c d e f g h = Raise err)
  /\ (forall err, PyNum.int_to_float (a + b + c + d) = Raise err ->
                  compute_qgeps a b c d = Raise err)
  /\ (forall s, (-1000 <= s <= 1000)%Z -> exists x, PyNum.int_to_float s = Ok x)
  /\ compute_geps 3 3 3 3 3 3 3 3 = Ok hundred
  /\ compute_qgeps 1 1 1 2 = Ok q5
  /\ PyNum.float "41.66666666666667" = Ok q5
  /\ between (dec 41666666666 (-9)) q5 (dec 41666666667 (-9)) = true
  /\ ((1 <= a <= 3 /\ 1 <= b <= 3 /\ 1 <= c <= 3 /\ 1 <= d <= 3
       /\ 1 <= e <= 3 /\ 1 <= f <= 3 /\ 1 <= g <= 3 /\ 1 <= h <= 3)%Z ->
      (exists y, compute_geps a b c d e f g h = Ok y /\ is_percentage y = true)
      /\ (exists y, compute_qgeps a b c d = Ok y /\ is_percentage y = true))
  /\ (exists y, compute_geps 4 4 4 4 4 4 4 4 = Ok y /\ F64.ltb hundred y = true)
  /\ (exists y, compute_qgeps 4 4 4 4 = Ok y /\ F64.ltb hundred y = true)
  /\ (exists y, compute_geps (-1) (-1) (-1) (-1) (-1) (-1) (-1) (-1) = Ok y
                /\ F64.ltb y zero = true)
  /\ (exists y, compute_qgeps (-1) (-1) (-1) (-1) = Ok y /\ F64.ltb y zero = true).
Proof.
  rewrite compute_geps_sum, compute_qgeps_sum.
  split; [intros x ->; reflexivity|].
  split; [intros x ->; reflexivity|].
  split; [intros err ->; reflexivity|].
  split; [intros err ->; reflexivity|].
  split; [exact small_sums_convert|].
  split; [vm_compute; reflexivity|].
  split; [vm_compute; reflexivity|].
  split; [vm_compute; reflexivity|].
  split; [vm_compute; reflexivity|].
  split.
  { intros Hr. split.
    - destruct (geps_in_range_sum (a + b + c + d + e + f + g + h)) as (x & y & -> & -> & Hy);
        [lia|]. eexists; split; [reflexivity|exact Hy].
    - destruct (qgeps_in_range_sum (a + b + c + d)) as (x & y & -> & -> & Hy);
        [lia|]. eexists; split; [reflexivity|exact Hy]. }
  repeat split; eexists; split; vm_compute; reflexivity.
Qed.

End ScoreFacts.

(** ** The features and the quantum audit *)

Section FeatureFacts.
Import QuantumAuditor QuantumSpec.

Lemma str_in_member s l : str_in s l = member s l.
Proof.
  unfold str_in, member.
  destruct (in_dec string_dec s l) as [Hin|Hout].
  - apply existsb_exists. exists s. split; [exact Hin|apply String.eqb_refl].
  - destruct (existsb (String.eqb s) l) eqn:He; [|reflexivity].
    apply existsb_exists in He as (y & Hy & Heq).
    apply String.eqb_eq in Heq. subst y. contradiction.
Qed.

Lemma py_sum_ones {A : Type} (l : list A) :
  Scorer.py_sum (map (fun _ => 1%Z) l) = Z.of_nat (List.length l).
Proof.
  induction l as [|a l IH].
  - reflexivity.
  - cbn [map List.length]. rewrite py_sum_cons, IH. lia.
Qed.

Lemma count_ones_atoms field names l :
  count_ones (fun a => str_in (field a) names) l = count_atoms field names l.
Proof.
  unfold count_ones, count_atoms. rewrite py_sum_ones.
  f_equal. f_equal. apply filter_ext. intros a. apply str_in_member.
Qed.

Lemma fad_flag l :
  str_in "FAD" (map resName l) = true <-> exists a, In a l /\ resName a = "FAD".
Proof.
  unfold str_in. rewrite existsb_exists. split.
  - intros (s & Hin & Heq). apply String.eqb_eq in Heq. subst s.
    apply in_map_iff in Hin as (a & Ha & Hin). now exists a.
  - intros (a & Hin & Ha). exists "FAD". split; [|reflexivity].
    rewrite <- Ha. now apply in_map.
Qed.

Lemma feature_counts (pdb_json : ParsedStructure) :
  let f := identify_quantum_features pdb_json in
  aromatic_rings f = count_atoms resName AROMATIC (atoms pdb_json)
  /\ chiral_centers f = count_atoms resName CHIRAL (atoms pdb_json)
  /\ metal_clusters f = count_atoms name METALS (atoms pdb_json).
Proof.
  cbn zeta. unfold identify_quantum_features.
  cbn [aromatic_rings chiral_centers metal_clusters].
  rewrite !count_ones_atoms. repeat split.
Qed.

Lemma radical_pairs_set (pdb_json : ParsedStructure) :
  radical_pairs (identify_quantum_features pdb_json) = 1%Z
  <-> exists a, In a (atoms pdb_json) /\ resName a = "FAD".
Proof.
  unfold identify_quantum_features. cbn [radical_pairs].
  rewrite <- fad_flag.
  destruct (str_in "FAD" (map resName (atoms pdb_json))); split;
    congruence || discriminate.
Qed.

Lemma radical_pairs_clear (pdb_json : ParsedStructure) :
  radical_pairs (identify_quantum_features pdb_json) = 0%Z
  <-> ~ exists a, In a (atoms pdb_json) /\ resName a = "FAD".
Proof.
  rewrite <- radical_pairs_set.
  unfold identify_quantum_features. cbn [radical_pairs].
  destruct (str_in "FAD" (map resName (atoms pdb_json))); split;
    congruence || discriminate.
Qed.

(** C6. The features of a parsed structure: the aromatic-ring count is the
    number of atoms whose residue name is PHE, TRP or TYR, the
    chiral-center count the number of atoms whose residue name is ALA, VAL,
    LEU, ILE, THR or SER, the metal-cluster count the number of atoms whose
    name is FE, MN, CU or MG; the radical-pair flag is 1 exactly when some
    atom has the residue name FAD, whatever the other atoms are, and 0
    otherwise; without atoms the counts and the flag are 0. The extraction
    is a total function. *)
Theorem features_count_atoms (pdb_json : ParsedStructure) :
  let f := identify_quantum_features pdb_json in
  aromatic_rings f = count_atoms resName AROMATIC (atoms pdb_json)
  /\ chiral_centers f = count_atoms resName CHIRAL (atoms pdb_json)
  /\ metal_clusters f = count_atoms name METALS (atoms pdb_json)
  /\ (radical_pairs f = 1%Z <-> exists a, In a (atoms pdb_json) /\ resName a = "FAD")
  /\ (radical_pairs f = 0%Z <-> ~ exists a, In a (atoms pdb_json) /\ resName a = "FAD")
  /\ (forall h before a after,
        resName a = "FAD" ->
        radical_pairs (identify_quantum_features (mkParsed h (before ++ a :: after))) = 1%Z)
  /\ (forall h,
        let f0 := identify_quantum_features (mkParsed h []) in
        aromatic_rings f0 = 0%Z /\ chiral_centers f0 = 0%Z
        /\ metal_clusters f0 = 0%Z /\ radical_pairs f0 = 0%Z).
Proof.
  intros f. subst f.
  destruct (feature_counts pdb_json) as (Ha & Hc & Hm).
  split; [exact Ha|]. split; [exact Hc|]. split; [exact Hm|].
  split; [apply radical_pairs_set|]. split; [apply radical_pairs_clear|].
  split.
  - intros h before a after Ha'. apply radical_pairs_set. cbn [atoms].
    exists a. split; [|exact Ha']. apply in_or_app. right. now left.
  - intros h. repeat split.
Qed.

Lemma count_atoms_zero field names l :
  (forall a, In a l -> ~ In (field a) names) -> count_atoms field names l = 0%Z.
Proof.
  intros Hnone. unfold count_atoms.
  replace (filter (fun a => member (field a) names) l) with (@nil Atom); [reflexivity|].
  symmetry. induction l as [|a l IH]; [reflexivity|].
  cbn [filter]. unfold member at 1.
  destruct (in_dec string_dec (field a) names) as [Hi|_].
  - exfalso. apply (Hnone a); [now left | exact Hi].
  - apply IH. intros b Hb. apply Hnone. now right.
Qed.

Lemma count_atoms_positive field names l a :
  In a l -> In (field a) names -> (0 < count_atoms field names l)%Z.
Proof.
  intros Hin Hname. unfold count_atoms.
  assert (Hf : In a (filter (fun a => member (field a) names) l)).
  { apply filter_In. split; [exact Hin|]. unfold member.
    now destruct (in_dec string_dec (field a) names). }
  destruct (filter (fun a => member (field a) names) l); [contradiction|].
  cbn [List.length]. lia.
Qed.

End FeatureFacts.

Section QuantumAudit.
Import ShopManualMethods QuantumAuditor QuantumSpec ScoreSpec.
Variable requests_get : string -> Response.

Lemma add_entry_catalogue es entry :
  add_entry entry (catalogue es) = (Ok tt, catalogue (es ++ [entry])).
Proof.
  unfold add_entry, catalogue. cbn [entries]. now rewrite map_app.
Qed.

(** The quantum score of the derived inputs: one of four floats. *)
Lemma qgeps_of_inputs_values f :
  exists score,
    qgeps_of_inputs (quantum_inputs f) = Ok score
    /\ (score = q5 \/ score = q7 \/ score = q9 \/ score = q11).
Proof.
  unfold quantum_inputs, qgeps_of_inputs, q5, q7, q9, q11.
  destruct (aromatic_rings f =? 0)%Z, (radical_pairs f =? 0)%Z,
    (metal_clusters f =? 0)%Z; eexists; (split; [vm_compute; reflexivity|]); tauto.
Qed.

Lemma truthy_inputs f :
  Scorer.compute_qgeps
    (if truthy (aromatic_rings f) then 3 else 1)
    (if truthy (radical_pairs f) then 3 else 1)
    (if truthy (metal_clusters f) then 3 else 1) 2
  = qgeps_of_inputs (quantum_inputs f).
Proof.
  unfold quantum_inputs, qgeps_of_inputs, truthy.
  now destruct (aromatic_rings f =? 0)%Z, (radical_pairs f =? 0)%Z,
    (metal_clusters f =? 0)%Z.
Qed.

(** What a quantum audit does once the text is fetched. *)
Lemma audit_quantum_fetched pdb_id part_id label text (sm : ShopManual) :
  DataFetcher.fetch_pdb requests_get pdb_id = Ok text ->
  exists d score,
    DataFetcher.parse_pdb_to_json text = Ok d
    /\ qgeps_of_inputs (quantum_inputs (identify_quantum_features d)) = Ok score
    /\ (score = q5 \/ score = q7 \/ score = q9 \/ score = q11)
    /\ audit_quantum_candidate requests_get pdb_id part_id label sm
       = (e <~ add_entry (quantum_entry pdb_id part_id label score) ;;
          ret (quantum_entry pdb_id part_id label score)) sm.
Proof.
  intros Hfetch.
  destruct (parse_atoms text) as [d [Hd _]].
  destruct (qgeps_of_inputs_values (identify_quantum_features d)) as [score [Hs Hv]].
  exists d, score. repeat split; try assumption.
  unfold audit_quantum_candidate, mbind at 1, lift at 1.
  rewrite Hfetch. unfold mbind at 1, lift at 1. rewrite Hd.
  unfold mbind at 1, lift at 1. rewrite truthy_inputs, Hs. reflexivity.
Qed.

(** C4. Once the text is fetched, the quantum audit scores the inputs it
    derives from the features of the parsed structure: coherence 3 when the
    aromatic-ring count is not zero and 1 otherwise, advantage 3 when the
    radical-pair flag is set and 1 otherwise, shielding 3 when the
    metal-cluster count is not zero and 1 otherwise, evidence 2. On a
    structure with an atom named FE, without FAD residue and without
    aromatic residue, the inputs are 1, 1, 3, 2 and the score is the float
    Python writes [58.333333333333336]. *)
Theorem quantum_audit_inputs (pdb_id part_id label text : string) (es : list dict) :
  DataFetcher.fetch_pdb requests_get pdb_id = Ok text ->
  exists d entry score,
    DataFetcher.parse_pdb_to_json text = Ok d
    /\ audit_quantum_candidate requests_get pdb_id part_id label (catalogue es)
       = (Ok entry, catalogue (es ++ [entry]))
    /\ dict_lookup entry "Q-GEPS_Score" = Some (VFloat score)
    /\ qgeps_of_inputs (quantum_inputs (identify_quantum_features d)) = Ok score
    /\ ((exists a, In a (atoms d) /\ name a = "FE") ->
        (forall a, In a (atoms d) -> resName a <> "FAD" /\ ~ In (resName a) AROMATIC) ->
        quantum_inputs (identify_quantum_features d) = (1, 1, 3, 2)%Z
        /\ score = q7
        /\ PyNum.float "58.333333333333336" = Ok q7
        /\ between (dec 58333333333 (-9)) q7 (dec 58333333334 (-9)) = true).
Proof.
  intros Hfetch.
  destruct (audit_quantum_fetched pdb_id part_id label text (catalogue es) Hfetch)
    as (d & score & Hd & Hs & _ & Haudit).
  exists d, (quantum_entry pdb_id part_id label score), score.
  split; [exact Hd|].
  split.
  { rewrite Haudit. unfold mbind. rewrite add_entry_catalogue. reflexivity. }
  split; [reflexivity|]. split; [exact Hs|].
  intros (fe & Hfe_in & Hfe) Hnone.
  assert (Hin : quantum_inputs (identify_quantum_features d) = (1, 1, 3, 2)%Z).
  { destruct (feature_counts d) as (Ha & _ & Hm).
    pose proof (proj2 (radical_pairs_clear d)) as Hr.
    unfold quantum_inputs.
    rewrite Ha, Hm.
    rewrite count_atoms_zero by (intros a Hin; exact (proj2 (Hnone a Hin))).
    assert (Hz : radical_pairs (identify_quantum_features d) = 0%Z).
    { apply Hr. intros (a & Hin & Hfad). exact (proj1 (Hnone a Hin) Hfad). }
    rewrite Hz.
    pose proof (count_atoms_positive name METALS (atoms d) fe Hfe_in) as Hpos.
    rewrite Hfe in Hpos. specialize (Hpos (or_introl eq_refl)).
    destruct (count_atoms name METALS (atoms d) =? 0)%Z eqn:E;
      [apply Z.eqb_eq in E; lia | reflexivity]. }
  split; [exact Hin|].
  rewrite Hin in Hs.
  split; [vm_compute in Hs; injection Hs as Hs; now subst score|].
  split; vm_compute; reflexivity.
Qed.

(** C10. The quantum score of the entry a quantum audit produces is one of
    four floats, those Python writes [41.66666666666667],
    [58.333333333333336], [75.0] and [91.66666666666666]: it is never
    below the first nor above the last, and never reaches 100. *)
Theorem quantum_score_values
  (pdb_id part_id label : string) (sm sm' : ShopManual) (entry : dict) :
  audit_quantum_candidate requests_get pdb_id part_id label sm = (Ok entry, sm') ->
  exists score,
    dict_lookup entry "Q-GEPS_Score" = Some (VFloat score)
    /\ (score = q5 \/ score = q7 \/ score = q9 \/ score = q11)
    /\ F64.leb q5 score = true
    /\ F64.leb score q11 = true
    /\ F64.ltb score hundred = true
    /\ PyNum.float "41.66666666666667" = Ok q5
    /\ PyNum.float "58.333333333333336" = Ok q7
    /\ PyNum.float "75.0" = Ok q9
    /\ PyNum.float "91.66666666666666" = Ok q11.
Proof.
  intros Haudit.
  destruct (DataFetcher.fetch_pdb requests_get pdb_id) as [text|err] eqn:Hfetch.
  - destruct (audit_quantum_fetched pdb_id part_id label text sm Hfetch)
      as (d & score & _ & _ & Hv & Heq).
    rewrite Heq in Haudit. unfold mbind, add_entry, ret in Haudit.
    destruct (entries sm); try discriminate.
    injection Haudit as He _. subst entry.
    exists score. split; [reflexivity|]. split; [exact Hv|].
    assert (Hb : F64.leb q5 score = true /\ F64.leb score q11 = true
                 /\ F64.ltb score hundred = true)
      by (destruct Hv as [ -> | [ -> | [ -> | -> ] ] ]; repeat split; vm_compute; reflexivity).
    destruct Hb as (H1 & H2 & H3).
    repeat split; try assumption; vm_compute; reflexivity.
  - unfold audit_quantum_candidate, mbind, lift in Haudit.
    rewrite Hfetch in Haudit. discriminate.
Qed.

End QuantumAudit.

Lemma quantum_audit_inputs_witness :
  exists d entry score,
    DataFetcher.parse_pdb_to_json ParseSpec.fixture = Ok d
    /\ QuantumAuditor.audit_quantum_candidate QuantumSpec.fixture_client
         "4DYF" "MAG-001" "Magnetosome" (catalogue [])
       = (Ok entry, catalogue ([] ++ [entry]))
    /\ dict_lookup entry "Q-GEPS_Score" = Some (VFloat score)
    /\ QuantumSpec.qgeps_of_inputs
         (QuantumSpec.quantum_inputs (QuantumAuditor.identify_quantum_features d))
       = Ok score
    /\ ((exists a, In a (atoms d) /\ name a = "FE") ->
        (forall a, In a (atoms d) ->
                   resName a <> "FAD" /\ ~ In (resName a) QuantumSpec.AROMATIC) ->
        QuantumSpec.quantum_inputs (QuantumAuditor.identify_quantum_features d)
        = (1, 1, 3, 2)%Z
        /\ score = ScoreSpec.q7
        /\ PyNum.float "58.333333333333336" = Ok ScoreSpec.q7
        /\ ScoreSpec.between (ScoreSpec.dec 58333333333 (-9)) ScoreSpec.q7
             (ScoreSpec.dec 58333333334 (-9)) = true).
Proof.
  apply (quantum_audit_inputs QuantumSpec.fixture_client
           "4DYF" "MAG-001" "Magnetosome" ParseSpec.fixture []).
  reflexivity.
Defined.

Lemma quantum_score_values_witness :
  exists score,
    dict_lookup (QuantumSpec.quantum_entry "4DYF" "MAG-001" "Magnetosome" ScoreSpec.q7) "Q-GEPS_Score"
    = Some (VFloat score)
    /\ (score = ScoreSpec.q5 \/ score = ScoreSpec.q7
        \/ score = ScoreSpec.q9 \/ score = ScoreSpec.q11)
    /\ F64.leb ScoreSpec.q5 score = true
    /\ F64.leb score ScoreSpec.q11 = true
    /\ F64.ltb score ScoreSpec.hundred = true
    /\ PyNum.float "41.66666666666667" = Ok ScoreSpec.q5
    /\ PyNum.float "58.333333333333336" = Ok ScoreSpec.q7
    /\ PyNum.float "75.0" = Ok ScoreSpec.q9
    /\ PyNum.float "91.66666666666666" = Ok ScoreSpec.q11.
Proof.
  apply (quantum_score_values QuantumSpec.fixture_client "4DYF" "MAG-001" "Magnetosome"
           (catalogue [])
           (catalogue [QuantumSpec.quantum_entry "4DYF" "MAG-001" "Magnetosome" ScoreSpec.q7])).
  vm_compute. reflexivity.
Defined.

(** ** The catalogue and the structural audit *)

Section CatalogueFacts.
Import ShopManualMethods AdaptiveAutoAuditor CatalogueSpec ScoreSpec.
Variable requests_get : string -> Response.

(** A structural audit appends the entry of its target, or raises and
    leaves the catalogue as it was. *)
Lemma audit_structure_audited (t : target) (es : list dict) :
  audit_structure requests_get t (catalogue es) =
  match audited_entry requests_get t with
  | Ok e => (Ok e, catalogue (es ++ [e]))
  | Raise err => (Raise err, catalogue es)
  end.
Proof.
  unfold audit_structure, audited_entry, mbind, lift.
  destruct (DataFetcher.fetch_pdb requests_get (format_opt (dict_lookup t "PDB")))
    as [text|err]; [|reflexivity].
  cbn [bind].
  destruct (DataFetcher.parse_pdb_to_json text) as [d|err]; [|reflexivity].
  cbn [bind].
  destruct (Scorer.compute_geps 3 3 3 3 3 3 3 3) as [g|err]; [|reflexivity].
  cbn [bind].
  destruct (get_item t "PartID") as [p|err]; [|reflexivity].
  cbn [bind]. fold (structural_entry t p (format_opt (dict_lookup t "PDB")) g d).
  now rewrite add_entry_catalogue.
Qed.

Lemma audited_entry_score (t : target) (e : dict) :
  audited_entry requests_get t = Ok e ->
  dict_lookup e "GEPS_Score" = Some (VFloat hundred).
Proof.
  unfold audited_entry.
  destruct (DataFetcher.fetch_pdb requests_get _) as [text|err]; [|discriminate].
  cbn [bind].
  destruct (DataFetcher.parse_pdb_to_json text) as [d|err]; [|discriminate].
  cbn [bind].
  change (Scorer.compute_geps 3 3 3 3 3 3 3 3) with (Ok hundred).
  cbn [bind].
  destruct (get_item t "PartID") as [p|err]; [|discriminate].
  cbn [bind]. intros [= <-]. reflexivity.
Qed.

End CatalogueFacts.

(** C5. The scenario on the code. The target has accession 4DYF and
    identifier MAG-001, and the response to the download holds the HEADER
    line and the ATOM line of the scenario, which [iter_lines] yields one
    after the other. [fetch_pdb] joins them without a separator, so the
    parser receives a single line that starts with HEADER: the audit
    returns, and appends to the catalogue, an entry whose DataSources is
    PDB:4DYF and whose GEPS_Score is 100.0, but whose Atoms is empty. The
    same two lines with a line feed between them parse to the one record
    of the scenario. *)
Theorem structural_audit_joins_the_lines :
  exists entry,
    AdaptiveAutoAuditor.audit_structure QuantumSpec.two_line_client
      CatalogueSpec.magnetosome (catalogue [])
    = (Ok entry, catalogue [entry])
    /\ dict_lookup entry "PartID" = Some (VStr "MAG-001")
    /\ dict_lookup entry "DataSources" = Some (VStr "PDB:4DYF")
    /\ dict_lookup entry "GEPS_Score" = Some (VFloat ScoreSpec.hundred)
    /\ dict_lookup entry "Atoms" = Some (VList [])
    /\ DataFetcher.fetch_pdb QuantumSpec.two_line_client "4DYF"
       = Ok (ParseSpec.header_line ++ ParseSpec.atom_line)%string
    /\ DataFetcher.parse_pdb_to_json (ParseSpec.header_line ++ ParseSpec.atom_line)
       = Ok (mkParsed [("classification",
                        "MAGNETIC PROTEINATOM      1 FE   MAG A")] [])
    /\ DataFetcher.parse_pdb_to_json
         (ParseSpec.header_line ++ String Py.LF ParseSpec.atom_line)
       = Ok (mkParsed [("classification", "MAGNETIC PROTEIN")]
               [ParseSpec.fixture_atom]).
Proof.
  eexists. split; [vm_compute; reflexivity|].
  repeat split; vm_compute; reflexivity.
Qed.

Section CatalogueOrder.
Import ShopManualMethods AdaptiveAutoAuditor CatalogueSpec.
Variable requests_get : string -> Response.

Lemma get_entry_by_id_state part_id (sm : ShopManual) :
  snd (get_entry_by_id part_id sm) = sm.
Proof. reflexivity. Qed.

(** A batch appends the entries of its targets in order, up to the first
    failure. *)
Lemma run_batch_from_audited (batch : list target) : forall results es,
  run_batch_from requests_get results batch (catalogue es) =
  (match snd (audited requests_get batch) with
   | None => Ok (results ++ fst (audited requests_get batch))
   | Some err => Raise err
   end,
   catalogue (es ++ fst (audited requests_get batch))).
Proof.
  induction batch as [|t rest IH]; intros results es; cbn [run_batch_from audited].
  - cbn. now rewrite !app_nil_r.
  - unfold mbind. rewrite audit_structure_audited.
    destruct (audited_entry requests_get t) as [e|err].
    + rewrite IH. destruct (audited requests_get rest) as [new failure]. cbn [fst snd].
      rewrite <- !app_assoc. reflexivity.
    + cbn. now rewrite app_nil_r.
Qed.

Lemma run_batch_audited batch es :
  run_batch requests_get batch (catalogue es) =
  (match snd (audited requests_get batch) with
   | None => Ok (fst (audited requests_get batch))
   | Some err => Raise err
   end,
   catalogue (es ++ fst (audited requests_get batch))).
Proof. unfold run_batch. now rewrite run_batch_from_audited. Qed.

Lemma audit_quantum_extends pdb_id part_id label es :
  exists added,
    snd (QuantumAuditor.audit_quantum_candidate requests_get pdb_id part_id label
           (catalogue es))
    = catalogue (es ++ added).
Proof.
  destruct (DataFetcher.fetch_pdb requests_get pdb_id) as [text|err] eqn:Hfetch.
  - destruct (audit_quantum_fetched requests_get pdb_id part_id label text
                (catalogue es) Hfetch) as (d & score & _ & _ & _ & ->).
    unfold mbind. rewrite add_entry_catalogue. eexists; reflexivity.
  - exists []. unfold QuantumAuditor.audit_quantum_candidate, mbind, lift.
    rewrite Hfetch, app_nil_r. reflexivity.
Qed.

(** No operation other than [load_json] removes or moves an entry. *)
Lemma run_operation_extends op es :
  exists added, run_operation requests_get op (catalogue es) = catalogue (es ++ added).
Proof.
  destruct op as [entry| |part_id|t|batch|pdb_id part_id label]; cbn [run_operation].
  - rewrite add_entry_catalogue. now exists [entry].
  - exists []. now rewrite app_nil_r.
  - exists []. now rewrite app_nil_r.
  - rewrite audit_structure_audited.
    destruct (audited_entry requests_get t) as [e|err].
    + now exists [e].
    + exists []. now rewrite app_nil_r.
  - rewrite run_batch_audited. eexists; reflexivity.
  - apply audit_quantum_extends.
Qed.

Lemma run_operations_extend ops : forall es,
  exists added,
    fold_left (fun sm op => run_operation requests_get op sm) ops (catalogue es)
    = catalogue (es ++ added).
Proof.
  induction ops as [|op ops IH]; intros es; cbn [fold_left].
  - exists []. now rewrite app_nil_r.
  - destruct (run_operation_extends op es) as [a1 ->].
    destruct (IH (es ++ a1)) as [a2 ->].
    exists (a1 ++ a2). now rewrite app_assoc.
Qed.

Lemma auto_run_extends fuel : forall self es outcome self' sm',
  auto_run requests_get fuel self (catalogue es) = Some (outcome, self', sm') ->
  exists added, sm' = catalogue (es ++ added).
Proof.
  induction fuel as [|fuel IH]; intros self es outcome self' sm' Hrun;
    cbn [auto_run] in Hrun; destruct (targets self) as [|t0 ts] eqn:Hts.
  - injection Hrun as _ _ <-. exists []. now rewrite app_nil_r.
  - discriminate.
  - injection Hrun as _ _ <-. exists []. now rewrite app_nil_r.
  - rewrite run_batch_audited in Hrun.
    destruct (snd (audited requests_get _)) as [err|].
    + injection Hrun as _ _ <-. eexists; reflexivity.
    + apply IH in Hrun as [added ->]. eexists. now rewrite <- app_assoc.
Qed.

(** C8. The catalogue is an ordered sequence that only grows at its end:
    [add_entry] puts the entry last and leaves the entries before it as
    they were, so that after E1 then E2 the sequence ends with E1, E2 and
    its JSON text is an array with the text of E1 before the text of E2;
    a batch appends the entries of its targets in the order it audits
    them, up to the first failure; and whatever operations other than
    [load_json] are run, the entries the catalogue had are kept, in their
    order, before the added ones. *)
Theorem catalogue_is_append_only (es : list dict) (e1 e2 : dict) :
  add_entry e1 (catalogue es) = (Ok tt, catalogue (es ++ [e1]))
  /\ (_ <~ add_entry e1 ;; add_entry e2) (catalogue es)
     = (Ok tt, catalogue (es ++ [e1; e2]))
  /\ to_json (snd ((_ <~ add_entry e1 ;; add_entry e2) (catalogue [])))
     = ("[" ++ Json.newline_indent 1 ++ Json.encode 1 (VDict e1)
        ++ "," ++ Json.newline_indent 1 ++ Json.encode 1 (VDict e2)
        ++ Json.newline_indent 0 ++ "]")%string
  /\ (forall batch,
        run_batch requests_get batch (catalogue es) =
        (match snd (audited requests_get batch) with
         | None => Ok (fst (audited requests_get batch))
         | Some err => Raise err
         end,
         catalogue (es ++ fst (audited requests_get batch))))
  /\ (forall ops, exists added,
        fold_left (fun sm op => run_operation requests_get op sm) ops (catalogue es)
        = catalogue (es ++ added))
  /\ (forall fuel self outcome self' sm',
        auto_run requests_get fuel self (catalogue es) = Some (outcome, self', sm') ->
        exists added, sm' = catalogue (es ++ added)).
Proof.
  split; [apply add_entry_catalogue|].
  split.
  { unfold mbind. rewrite !add_entry_catalogue, <- app_assoc. reflexivity. }
  split.
  { unfold mbind. rewrite !add_entry_catalogue. cbn [snd app].
    unfold to_json, Json.dumps, catalogue. cbn [entries map].
    change (Json.encode 0 (VList [VDict e1; VDict e2]))
      with ("[" ++ Json.newline_indent 1 ++ Json.encode 1 (VDict e1)
            ++ (Json.item_separator 1 ++ Json.encode 1 (VDict e2) ++ "")
            ++ Json.newline_indent 0 ++ "]")%string.
    now rewrite append_nil_r, !append_assoc. }
  split; [intros batch; apply run_batch_audited|].
  split; [intros ops; apply run_operations_extend|].
  intros fuel self outcome self' sm'. apply auto_run_extends.
Qed.

Lemma has_part_id_lookup d part_id :
  has_part_id d part_id = true <-> dict_lookup d "PartID" = Some (VStr part_id).
Proof.
  unfold has_part_id.
  destruct (dict_lookup d "PartID") as [[| | | |s| |]|]; split; try discriminate.
  - intros H. apply String.eqb_eq in H. now subst.
  - intros [= ->]. apply String.eqb_refl.
Qed.

Lemma first_match_spec (es : list dict) part_id :
  (exists before e after,
     es = before ++ e :: after
     /\ Forall (fun d => has_part_id d part_id = false) before
     /\ has_part_id e part_id = true
     /\ first_match (map VDict es) part_id = Ok (VDict e))
  \/ (Forall (fun d => has_part_id d part_id = false) es
      /\ first_match (map VDict es) part_id = Ok (VDict [])).
Proof.
  induction es as [|d es IH]; cbn [map first_match].
  - right. split; [constructor|reflexivity].
  - destruct (has_part_id d part_id) eqn:Hd.
    + left. exists [], d, es. repeat split; [constructor | exact Hd].
    + destruct IH as [(before & e & after & -> & Hb & He & Hf)|[Hall Hf]].
      * left. exists (d :: before), e, after. repeat split; try assumption.
        now constructor.
      * right. split; [now constructor|exact Hf].
Qed.

(** C9. [get_entry_by_id] scans the entries in order and returns the first
    one whose PartID is the requested identifier, whatever entries come
    after it; when no entry has it, the result is an empty dict and nothing
    is raised; the catalogue is unchanged either way. *)
Theorem lookup_returns_first_match (es : list dict) (part_id : string) :
  exists found,
    get_entry_by_id part_id (catalogue es) = (Ok (VDict found), catalogue es)
    /\ ((exists before after,
           es = before ++ found :: after
           /\ Forall (fun d => dict_lookup d "PartID" <> Some (VStr part_id)) before
           /\ dict_lookup found "PartID" = Some (VStr part_id))
        \/ (Forall (fun d => dict_lookup d "PartID" <> Some (VStr part_id)) es
            /\ found = [])).
Proof.
  assert (Hno : forall l,
             Forall (fun d => has_part_id d part_id = false) l ->
             Forall (fun d => dict_lookup d "PartID" <> Some (VStr part_id)) l).
  { intros l. apply Forall_impl. intros d Hd Heq.
    apply has_part_id_lookup in Heq. congruence. }
  unfold get_entry_by_id, catalogue. cbn [entries iterate bind].
  destruct (first_match_spec es part_id)
    as [(before & e & after & -> & Hb & He & Hf)|[Hall Hf]]; rewrite Hf.
  - exists e. split; [reflexivity|]. left. exists before, after.
    repeat split; [now apply Hno | now apply has_part_id_lookup].
  - exists []. split; [reflexivity|]. right. split; [now apply Hno | reflexivity].
Qed.

End CatalogueOrder.

(** ** The JSON round trip *)

Section JsonStrings.
Import Json JsonSpec.

(** Reading back one escaped character. *)
Lemma scanstring_escape_char (c : ascii) (tail : string) :
  scanstring (escape_char c ++ tail) = push c (scanstring tail).
Proof.
  destruct c as [[] [] [] [] [] [] [] []]; reflexivity.
Qed.

Lemma scanstring_escape (s rest : string) :
  scanstring (escape s ++ String dquote rest) = Some (s, rest).
Proof.
  induction s as [|c s IH]; cbn [escape].
  - reflexivity.
  - now rewrite append_assoc, scanstring_escape_char, IH.
Qed.

Lemma scanstring_encode_string (s rest : string) :
  exists body,
    (encode_string s ++ rest)%string = String dquote body
    /\ scanstring body = Some (s, rest).
Proof.
  exists (escape s ++ String dquote rest)%string. split.
  - unfold encode_string. cbn [append]. now rewrite append_assoc.
  - apply scanstring_escape.
Qed.

End JsonStrings.

Section JsonIntegers.
Import Json JsonSpec PyNum.

Lemma uint_value_of_uint_acc (u : Decimal.uint) : forall acc : positive,
  uint_value (Zpos acc) u = Zpos (Pos.of_uint_acc u acc).
Proof.
  induction u; intros acc; cbn [uint_value Pos.of_uint_acc];
    try reflexivity; rewrite <- IHu; f_equal; lia.
Qed.

Lemma uint_value_of_uint (u : Decimal.uint) :
  uint_value 0 u = Z.of_N (Pos.of_uint u).
Proof.
  induction u; cbn [uint_value Pos.of_uint]; try reflexivity; try exact IHu;
    match goal with
    | |- uint_value ?a _ = _ =>
        let b := eval compute in a in change a with b
    end;
    now rewrite uint_value_of_uint_acc.
Qed.

Lemma uint_value_to_uint (p : positive) : uint_value 0 (Pos.to_uint p) = Zpos p.
Proof.
  now rewrite uint_value_of_uint, DecimalPos.Unsigned.of_to.
Qed.

Lemma string_of_uint_digits (u : Decimal.uint) :
  all_digits (NilEmpty.string_of_uint u) = true.
Proof. induction u; cbn; auto. Qed.

Lemma int_digits_uint (u : Decimal.uint) : forall acc,
  int_digits true acc (NilEmpty.string_of_uint u) = Some (uint_value acc u).
Proof.
  induction u; intros acc; cbn [NilEmpty.string_of_uint uint_value];
    try reflexivity; apply IHu.
Qed.

Lemma int_digits_start (s : string) acc :
  s <> EmptyString -> all_digits s = true ->
  int_digits false acc s = int_digits true acc s.
Proof.
  destruct s as [|c r]; [congruence|]. intros _ H.
  cbn [all_digits] in H. apply andb_prop in H as [Hc _].
  cbn [int_digits]. now rewrite Hc.
Qed.

(** The numeral of a positive number starts with a digit other than 0. *)
Lemma to_uint_head (p : positive) :
  exists c ds,
    NilEmpty.string_of_uint (Pos.to_uint p) = String c ds
    /\ Py.isdigit c = true /\ Ascii.eqb c "0" = false.
Proof.
  assert (Hnorm : Pos.to_uint p = Decimal.unorm (Pos.to_uint p)).
  { rewrite <- DecimalPos.Unsigned.to_of, DecimalPos.Unsigned.of_to. reflexivity. }
  pose proof (DecimalPos.Unsigned.to_uint_nonzero p) as Hnz.
  pose proof (DecimalPos.Unsigned.to_uint_nonnil p) as Hnn.
  destruct (Pos.to_uint p) as [|u|u|u|u|u|u|u|u|u|u] eqn:E;
    try (cbn [NilEmpty.string_of_uint]; eexists _, _; repeat split; reflexivity).
  - congruence.
  - exfalso. rewrite DecimalFacts.unorm_D0 in Hnorm.
    unfold Decimal.unorm in Hnorm.
    destruct (Decimal.nzhead u) as [|u0|u0|u0|u0|u0|u0|u0|u0|u0|u0] eqn:Hu;
      try discriminate Hnorm.
    + apply Hnz. rewrite Hnorm. reflexivity.
    + apply (DecimalFacts.nzhead_nonzero u u0). exact Hu.
Qed.

End JsonIntegers.

Section JsonNumbers.
Import Json JsonSpec PyNum.

Lemma rstrip_of_none sp (s : string) :
  none_of sp s = true -> Py.rstrip_of sp s = s.
Proof.
  induction s as [|c r IH]; cbn [none_of Py.rstrip_of]; [reflexivity|].
  intros H. apply andb_prop in H as [Hc Hr]. rewrite (IH Hr).
  destruct r; [|reflexivity].
  apply negb_true_iff in Hc. now rewrite Hc.
Qed.

Lemma lstrip_of_none sp (s : string) :
  none_of sp s = true -> Py.lstrip_of sp s = s.
Proof.
  destruct s as [|c r]; cbn [none_of Py.lstrip_of]; [reflexivity|].
  intros H. apply andb_prop in H as [Hc _].
  apply negb_true_iff in Hc. now rewrite Hc.
Qed.

Lemma trim_none (s : string) : none_of isspace_num s = true -> trim s = s.
Proof.
  intros H. unfold trim. now rewrite (lstrip_of_none _ _ H), rstrip_of_none.
Qed.

Lemma digit_not_space c : Py.isdigit c = true -> isspace_num c = false.
Proof. destruct c as [[] [] [] [] [] [] [] []]; try discriminate; reflexivity. Qed.

Lemma all_digits_no_space (s : string) :
  all_digits s = true -> none_of isspace_num s = true.
Proof.
  induction s as [|c r IH]; cbn [all_digits none_of]; [reflexivity|].
  intros H. apply andb_prop in H as [Hc Hr].
  now rewrite (digit_not_space c Hc), IH.
Qed.

Lemma digit_not_sign c :
  Py.isdigit c = true -> Ascii.eqb c "-" = false /\ Ascii.eqb c "+" = false.
Proof. destruct c as [[] [] [] [] [] [] [] []]; try discriminate; split; reflexivity. Qed.

(** [int] reads the digits of a numeral back. *)
Lemma int_of_numeral (u : Decimal.uint) :
  u <> Decimal.Nil ->
  PyNum.int (NilEmpty.string_of_uint u) = Ok (uint_value 0 u)
  /\ PyNum.int (String "-" (NilEmpty.string_of_uint u)) = Ok (- uint_value 0 u)%Z.
Proof.
  intros Hu.
  pose proof (string_of_uint_digits u) as Hd.
  assert (Hne : NilEmpty.string_of_uint u <> EmptyString)
    by (destruct u; cbn; congruence).
  split; unfold PyNum.int.
  - rewrite trim_none by now apply all_digits_no_space.
    assert (Hsign : split_sign (NilEmpty.string_of_uint u)
                    = (false, NilEmpty.string_of_uint u)).
    { destruct (NilEmpty.string_of_uint u) as [|c r]; [congruence|].
      cbn [all_digits] in Hd. apply andb_prop in Hd as [Hc _].
      unfold split_sign. now destruct (digit_not_sign c Hc) as [-> ->]. }
    rewrite Hsign, int_digits_start, int_digits_uint by assumption.
    reflexivity.
  - rewrite trim_none
      by (cbn [none_of]; now rewrite all_digits_no_space).
    cbn [split_sign]. change (Ascii.eqb "-" "-") with true. cbn iota.
    now rewrite int_digits_start, int_digits_uint.
Qed.

(** [int(str(n)) == n]. *)
Lemma int_of_str_of_int (n : Z) : PyNum.int (Py.str_of_int n) = Ok n.
Proof.
  unfold Py.str_of_int.
  destruct n as [|p|p]; cbn [Z.to_int NilZero.string_of_int].
  - reflexivity.
  - unfold NilZero.string_of_uint.
    pose proof (DecimalPos.Unsigned.to_uint_nonnil p) as Hnn.
    destruct (Pos.to_uint p) eqn:E; try congruence; rewrite <- E in *;
      rewrite (proj1 (int_of_numeral _ Hnn)), uint_value_to_uint; reflexivity.
  - unfold NilZero.string_of_uint.
    pose proof (DecimalPos.Unsigned.to_uint_nonnil p) as Hnn.
    destruct (Pos.to_uint p) eqn:E; try congruence; rewrite <- E in *;
      rewrite (proj2 (int_of_numeral _ Hnn)), uint_value_to_uint; reflexivity.
Qed.

End JsonNumbers.

Section JsonSpans.
Import Json JsonSpec PyNum.

Lemma delimited_head c r :
  delimited (String c r) = true ->
  Py.isdigit c = false /\ Ascii.eqb c "." = false /\ is_exponent_mark c = false
  /\ Ascii.eqb c "+" = false /\ Ascii.eqb c "-" = false.
Proof.
  unfold delimited, is_exponent_mark. intros H. apply negb_true_iff in H.
  repeat (apply orb_false_elim in H as [H ?]). repeat split; try assumption.
  now apply orb_false_intro.
Qed.

Lemma span_digits_app (t rest : string) :
  delimited rest = true ->
  span_digits (t ++ rest) = extend rest (span_digits t).
Proof.
  intros Hrest. induction t as [|c r IH]; cbn [append span_digits].
  - destruct rest as [|c r]; [reflexivity|].
    destruct (delimited_head c r Hrest) as [Hd _]. cbn [span_digits]. now rewrite Hd.
  - destruct (Py.isdigit c); [|reflexivity].
    rewrite IH. now destruct (span_digits r).
Qed.

Lemma span_integer_app (t rest : string) :
  delimited rest = true ->
  span_integer (t ++ rest) = option_map (extend rest) (span_integer t).
Proof.
  intros Hrest. destruct t as [|c r]; cbn [append].
  - destruct rest as [|c r]; [reflexivity|].
    destruct (delimited_head c r Hrest) as [Hd _]. cbn [span_integer].
    rewrite Hd. now destruct (Ascii.eqb c "0") eqn:E;
      [apply Ascii.eqb_eq in E; subst c; discriminate Hd|].
  - cbn [span_integer]. destruct (Ascii.eqb c "0"); [reflexivity|].
    destruct (Py.isdigit c); [|reflexivity].
    rewrite (span_digits_app r rest Hrest). now destruct (span_digits r).
Qed.

Lemma span_fraction_app (t rest : string) :
  delimited rest = true ->
  span_fraction (t ++ rest) = extend rest (span_fraction t).
Proof.
  intros Hrest. destruct t as [|c [|d r]]; cbn [append].
  - destruct rest as [|c [|d r]]; try reflexivity;
      destruct (delimited_head c _ Hrest) as (_ & Hp & _);
      cbn [span_fraction]; now rewrite Hp.
  - destruct rest as [|d r]; [reflexivity|].
    destruct (delimited_head d r Hrest) as (Hd & _).
    cbn [span_fraction]. now rewrite Hd, andb_false_r.
  - cbn [span_fraction]. destruct (Ascii.eqb c "." && Py.isdigit d); [|reflexivity].
    rewrite (span_digits_app r rest Hrest). now destruct (span_digits r).
Qed.

Lemma span_exponent_app (t rest : string) :
  delimited rest = true ->
  span_exponent (t ++ rest) = extend rest (span_exponent t).
Proof.
  intros Hrest. destruct t as [|c r]; cbn [append].
  - destruct rest as [|c r]; [reflexivity|].
    destruct (delimited_head c r Hrest) as (_ & _ & He & _).
    cbn [span_exponent]. now rewrite He.
  - cbn [span_exponent]. destruct (is_exponent_mark c); [|reflexivity].
    destruct r as [|g r']; cbn [append].
    + pose proof (span_digits_app EmptyString rest Hrest) as Hs. cbn in Hs.
      destruct rest as [|g r']; [reflexivity|].
      destruct (delimited_head g r' Hrest) as (Hd & _ & _ & Hplus & Hminus).
      rewrite Hplus, Hminus. cbn [orb]. cbn [span_digits]. now rewrite Hd.
    + destruct (Ascii.eqb g "-" || Ascii.eqb g "+").
      * rewrite (span_digits_app r' rest Hrest).
        now destruct (span_digits r') as [[|d ds] tail].
      * change (String g (r' ++ rest)) with (String g r' ++ rest)%string.
        rewrite (span_digits_app (String g r') rest Hrest).
        now destruct (span_digits (String g r')) as [[|d ds] tail].
Qed.

(** A number read from a text is read the same when a delimiter follows
    the text. *)
Lemma match_number_app (t rest : string) (v : value) (r : string) :
  delimited rest = true ->
  match_number t = Some (v, r) ->
  match_number (t ++ rest) = Some (v, (r ++ rest)%string).
Proof.
  intros Hrest. unfold match_number.
  assert (Hbody : forall sign s1,
    match span_integer s1 with
    | None => None
    | Some (int_part, s2) =>
        let '(frac, s3) := span_fraction s2 in
        let '(expo, s4) := span_exponent s3 in
        let text := (sign ++ int_part ++ frac ++ expo)%string in
        match frac, expo with
        | EmptyString, EmptyString =>
            option_map (fun v => (v, s4)) (lift_value VInt (PyNum.int text))
        | _, _ => option_map (fun v => (v, s4)) (lift_value VFloat (PyNum.float text))
        end
    end = Some (v, r) ->
    match span_integer (s1 ++ rest) with
    | None => None
    | Some (int_part, s2) =>
        let '(frac, s3) := span_fraction s2 in
        let '(expo, s4) := span_exponent s3 in
        let text := (sign ++ int_part ++ frac ++ expo)%string in
        match frac, expo with
        | EmptyString, EmptyString =>
            option_map (fun v => (v, s4)) (lift_value VInt (PyNum.int text))
        | _, _ => option_map (fun v => (v, s4)) (lift_value VFloat (PyNum.float text))
        end
    end = Some (v, (r ++ rest)%string)).
  { intros sign s1. rewrite (span_integer_app s1 rest Hrest).
    destruct (span_integer s1) as [[int_part s2]|]; [|discriminate].
    cbn [option_map extend fst snd].
    rewrite (span_fraction_app s2 rest Hrest).
    destruct (span_fraction s2) as [frac s3]. cbn [extend fst snd].
    rewrite (span_exponent_app s3 rest Hrest).
    destruct (span_exponent s3) as [expo s4]. cbn [extend fst snd]. cbn zeta.
    destruct frac, expo;
      match goal with
      | |- context [lift_value ?f ?x] => destruct (lift_value f x)
      end; cbn [option_map]; congruence. }
  destruct t as [|c t']; cbn [append].
  - discriminate.
  - destruct (Ascii.eqb c "-").
    + apply Hbody.
    + apply (Hbody EmptyString (String c t')).
Qed.

End JsonSpans.

Section JsonScanNumbers.
Import Json JsonSpec PyNum.

Lemma span_digits_all (s : string) :
  all_digits s = true -> span_digits s = (s, EmptyString).
Proof.
  induction s as [|c r IH]; cbn [all_digits span_digits]; [reflexivity|].
  intros H. apply andb_prop in H as [Hc Hr]. now rewrite Hc, (IH Hr).
Qed.

Lemma match_number_numeral (u : Decimal.uint) (sign : bool) (c : ascii) (ds : string) :
  NilEmpty.string_of_uint u = String c ds ->
  Py.isdigit c = true -> Ascii.eqb c "0" = false ->
  match_number (if sign then String "-" (String c ds) else String c ds)
  = option_map (fun v => (v, EmptyString))
      (lift_value VInt
         (PyNum.int (if sign then String "-" (String c ds) else String c ds))).
Proof.
  intros Hu Hc H0.
  pose proof (string_of_uint_digits u) as Hd. rewrite Hu in Hd.
  cbn [all_digits] in Hd. apply andb_prop in Hd as [_ Hds].
  destruct (digit_not_sign c Hc) as [Hminus _].
  unfold match_number.
  destruct sign.
  - change (Ascii.eqb "-" "-") with true. cbn iota.
    cbn [span_integer]. rewrite H0, Hc, (span_digits_all ds Hds).
    cbn [span_fraction span_exponent]. cbn zeta.
    now rewrite !append_nil_r.
  - rewrite Hminus. cbn [span_integer]. rewrite H0, Hc, (span_digits_all ds Hds).
    cbn [span_fraction span_exponent]. cbn zeta.
    cbn [append]. now rewrite !append_nil_r.
Qed.

(** The text of an [int] is read back as that [int]. *)
Lemma match_number_int (n : Z) :
  match_number (Py.str_of_int n) = Some (VInt n, EmptyString).
Proof.
  pose proof (int_of_str_of_int n) as Hint. revert Hint.
  unfold Py.str_of_int.
  destruct n as [|p|p]; cbn [Z.to_int NilZero.string_of_int]; intros Hint.
  - reflexivity.
  - destruct (to_uint_head p) as (c & ds & Hs & Hc & H0).
    unfold NilZero.string_of_uint in *.
    pose proof (DecimalPos.Unsigned.to_uint_nonnil p) as Hnn.
    destruct (Pos.to_uint p) eqn:E; try congruence; rewrite <- E in *;
      rewrite Hs in *;
      rewrite (match_number_numeral _ false c ds Hs Hc H0), Hint; reflexivity.
  - destruct (to_uint_head p) as (c & ds & Hs & Hc & H0).
    unfold NilZero.string_of_uint in *.
    pose proof (DecimalPos.Unsigned.to_uint_nonnil p) as Hnn.
    destruct (Pos.to_uint p) eqn:E; try congruence; rewrite <- E in *;
      rewrite Hs in *;
      rewrite (match_number_numeral _ true c ds Hs Hc H0), Hint; reflexivity.
Qed.

Lemma span_integer_head s p : span_integer s = Some p ->
  match s with String d _ => Py.isdigit d = true | EmptyString => False end.
Proof.
  destruct s as [|d r]; cbn [span_integer]; [discriminate|].
  destruct (Ascii.eqb d "0") eqn:E.
  - apply Ascii.eqb_eq in E. now subst d.
  - destruct (Py.isdigit d); [reflexivity|discriminate].
Qed.

Lemma match_number_head (t : string) (v : value) (r : string) :
  match_number t = Some (v, r) -> number_head t.
Proof.
  unfold match_number. destruct t as [|c t']; [discriminate|].
  destruct (Ascii.eqb c "-") eqn:Ec.
  - apply Ascii.eqb_eq in Ec. subst c.
    destruct (span_integer t') as [p|] eqn:Ei; [|discriminate].
    intros _. right. split; [reflexivity|]. exact (span_integer_head _ _ Ei).
  - destruct (span_integer (String c t')) as [p|] eqn:Ei; [|discriminate].
    intros _. left. exact (span_integer_head _ _ Ei).
Qed.

Lemma number_head_app t rest : number_head t -> number_head (t ++ rest).
Proof.
  destruct t as [|c [|d r]]; cbn [number_head append]; tauto.
Qed.

Lemma scan_once_number (fuel : nat) (s : string) :
  number_head s -> scan_once (S fuel) s = match_number s.
Proof.
  destruct s as [|c r]; [intros []|].
  intros [Hc|[-> Hd]].
  - destruct c as [[] [] [] [] [] [] [] []]; try discriminate Hc; reflexivity.
  - destruct r as [|d r']; [destruct Hd|].
    destruct d as [[] [] [] [] [] [] [] []]; try discriminate Hd; reflexivity.
Qed.

Lemma number_head_starts s : number_head s -> starts_value s = true.
Proof.
  destruct s as [|c r]; [intros []|].
  intros [Hc|[-> _]]; [|reflexivity].
  destruct c as [[] [] [] [] [] [] [] []]; try discriminate Hc; reflexivity.
Qed.

End JsonScanNumbers.

Section JsonWhiteSpace.
Import Json JsonSpec.

Lemma starts_value_plain s : starts_value s = true -> starts_plain s = true.
Proof.
  destruct s as [|c r]; cbn; [discriminate|]. intros H.
  now apply andb_prop in H as [-> _].
Qed.

Lemma skip_ws_plain s : starts_plain s = true -> skip_ws s = s.
Proof.
  destruct s as [|c r]; cbn; [discriminate|]. intros H.
  apply negb_true_iff in H. unfold skip_ws. cbn [Py.lstrip_of]. now rewrite H.
Qed.

Lemma skip_ws_spaces n s : skip_ws (spaces n ++ s) = skip_ws s.
Proof. induction n as [|n IH]; [reflexivity|exact IH]. Qed.

Lemma skip_ws_newline_indent level s :
  starts_plain s = true -> skip_ws (newline_indent level ++ s) = s.
Proof.
  intros H. unfold newline_indent. cbn [append].
  change (skip_ws (String Py.LF (spaces (2 * level) ++ s)))
    with (skip_ws (spaces (2 * level) ++ s)).
  now rewrite skip_ws_spaces, skip_ws_plain.
Qed.

Lemma same_float_eq a b : same_float a b = true -> a = b.
Proof.
  destruct a as [sa|sa| |sa ma ea], b as [sb|sb| |sb mb eb]; cbn; try discriminate.
  - intros H. apply Bool.eqb_prop in H. now subst.
  - intros H. apply andb_prop in H as [H He]. apply andb_prop in H as [Hs Hm].
    apply Bool.eqb_prop in Hs. apply Pos.eqb_eq in Hm. apply Z.eqb_eq in He.
    now subst.
Qed.

Lemma float_representable_number f :
  float_representable f = true ->
  match_number (floatstr f) = Some (VFloat f, EmptyString).
Proof.
  unfold float_representable.
  destruct (match_number (floatstr f)) as [[[| | |g| | |] [|c r]]|]; try discriminate.
  intros H. now rewrite (same_float_eq _ _ H).
Qed.

(** The text of a representable value starts as a value may. *)
Lemma encode_starts (v : value) (level : nat) (rest : string) :
  representable v = true -> starts_value (encode level v ++ rest) = true.
Proof.
  intros Hv. destruct v as [|[]|n|f|s|[|v0 l]|[|[k v0] d]]; try reflexivity.
  - apply number_head_starts, number_head_app.
    exact (match_number_head _ _ _ (match_number_int n)).
  - apply number_head_starts, number_head_app.
    exact (match_number_head _ _ _ (float_representable_number f Hv)).
Qed.

End JsonWhiteSpace.

Section JsonDicts.
Import Json JsonSpec.

Lemma dict_set_fresh (d : list (string * value)) k v :
  existsb (String.eqb k) (map fst d) = false -> dict_set d k v = d ++ [(k, v)].
Proof.
  induction d as [|[k' v'] d IH]; cbn [map fst existsb dict_set app]; [reflexivity|].
  intros H. apply orb_false_elim in H as [Hk Hd].
  rewrite String.eqb_sym, Hk. now rewrite IH.
Qed.

Lemma existsb_app_false {A} (f : A -> bool) l1 l2 :
  existsb f l1 = false -> existsb f l2 = false -> existsb f (l1 ++ l2) = false.
Proof. intros H1 H2. now rewrite existsb_app, H1, H2. Qed.

Lemma dict_of_pairs_from (d : list (string * value)) : forall acc,
  distinct (map fst d) = true ->
  (forall k, In k (map fst d) -> existsb (String.eqb k) (map fst acc) = false) ->
  fold_left (fun a kv => dict_set a (fst kv) (snd kv)) d acc = acc ++ d.
Proof.
  induction d as [|[k v] d IH]; intros acc Hd Hacc; cbn [fold_left].
  - now rewrite List.app_nil_r.
  - cbn [map fst distinct] in Hd. apply andb_prop in Hd as [Hk Hd].
    apply negb_true_iff in Hk. cbn [fst snd].
    rewrite dict_set_fresh by (apply Hacc; now left).
    rewrite IH; [now rewrite <- List.app_assoc| exact Hd |].
    intros k' Hk'. rewrite List.map_app, List.existsb_app. cbn [map fst existsb].
    rewrite (Hacc k') by now right.
    destruct (String.eqb k' k) eqn:E; [|reflexivity].
    apply String.eqb_eq in E. subst k'.
    assert (Hex : existsb (String.eqb k) (map fst d) = true).
    { apply existsb_exists. exists k. split; [exact Hk'|apply String.eqb_refl]. }
    congruence.
Qed.

Lemma dict_of_pairs_distinct (d : list (string * value)) :
  distinct (map fst d) = true -> dict_of_pairs d = d.
Proof.
  intros Hd. unfold dict_of_pairs. now rewrite dict_of_pairs_from.
Qed.

End JsonDicts.

Section JsonRoundTrip.
Import Json JsonSpec.

Lemma delimited_newline level rest : delimited (newline_indent level ++ rest) = true.
Proof. reflexivity. Qed.

Lemma item_separator_app level (s : string) :
  (item_separator level ++ s)%string = String "," (newline_indent level ++ s).
Proof. reflexivity. Qed.

Lemma parse_items_encode (l : list value) :
  Forall (fun v => representable v = true -> reads_back v) l ->
  forallb representable l = true ->
  forall v0, reads_back v0 -> representable v0 = true ->
  forall level rest fuel,
    items_size (v0 :: l) <= fuel ->
    parse_items fuel
      (encode (S level) v0
       ++ encode_more (encode (S level)) (item_separator (S level)) l
       ++ newline_indent level ++ String "]" rest)
    = Some (v0 :: l, rest).
Proof.
  induction l as [|v1 l IH]; intros Hall Hrep v0 Hv0 Hr0 level rest fuel Hfuel;
    (destruct fuel as [|fuel]; [cbn in Hfuel; lia|]);
    cbn [items_size fold_right] in Hfuel; cbn [parse_items encode_more].
  - cbn [append]. rewrite Hv0 by (try apply delimited_newline; lia).
    rewrite skip_ws_newline_indent by reflexivity.
    reflexivity.
  - rewrite !append_assoc, item_separator_app.
    rewrite Hv0 by (try reflexivity; lia).
    change (skip_ws (String "," ?x)) with (String "," x).
    cbv iota beta.
    change (Ascii.eqb "," "]") with false.
    change (Ascii.eqb "," ",") with true. cbv iota.
    cbn [forallb] in Hrep. apply andb_prop in Hrep as [Hr1 Hrl].
    rewrite skip_ws_newline_indent
      by (apply starts_value_plain, encode_starts, Hr1).
    rewrite IH; try assumption.
    + reflexivity.
    + now inversion Hall.
    + inversion Hall; subst. auto.
    + cbn [items_size fold_right]. lia.
Qed.

Lemma encode_pair_app enc (k : string) (v : value) (s : string) :
  (encode_pair enc (k, v) ++ s)%string
  = String dquote (escape k ++ String dquote (String ":" (String " " (enc v ++ s)))).
Proof.
  unfold encode_pair, encode_string. cbn [fst snd append].
  now rewrite !append_assoc.
Qed.

Lemma parse_pairs_encode (d : list (string * value)) :
  Forall (fun kv => representable (snd kv) = true -> reads_back (snd kv)) d ->
  forallb (fun kv => representable (snd kv)) d = true ->
  forall k0 v0, reads_back v0 -> representable v0 = true ->
  forall level rest fuel,
    pairs_size ((k0, v0) :: d) <= fuel ->
    parse_pairs fuel
      (encode_pair (encode (S level)) (k0, v0)
       ++ encode_more_pairs (encode (S level)) (item_separator (S level)) d
       ++ newline_indent level ++ String "}" rest)
    = Some ((k0, v0) :: d, rest).
Proof.
  induction d as [|[k1 v1] d IH]; intros Hall Hrep k0 v0 Hv0 Hr0 level rest fuel Hfuel;
    (destruct fuel as [|fuel]; [cbn in Hfuel; lia|]);
    cbn [pairs_size fold_right snd] in Hfuel; cbn [encode_more_pairs];
    rewrite encode_pair_app; cbn [parse_pairs];
    change (Ascii.eqb dquote dquote) with true; cbv iota;
    rewrite scanstring_escape;
    change (skip_ws (String ":" ?x)) with (String ":" x); cbv iota beta;
    change (Ascii.eqb ":" ":") with true; cbv iota;
    change (skip_ws (String " " ?x)) with (skip_ws x).
  - cbn [append]. rewrite skip_ws_plain
      by (apply starts_value_plain, encode_starts, Hr0).
    rewrite Hv0 by (try apply delimited_newline; lia).
    rewrite skip_ws_newline_indent by reflexivity.
    reflexivity.
  - rewrite !append_assoc, item_separator_app.
    rewrite skip_ws_plain by (apply starts_value_plain, encode_starts, Hr0).
    rewrite Hv0 by (try reflexivity; lia).
    change (skip_ws (String "," ?x)) with (String "," x).
    cbv iota beta.
    change (Ascii.eqb "," "}") with false.
    change (Ascii.eqb "," ",") with true. cbv iota.
    cbn [forallb snd] in Hrep. apply andb_prop in Hrep as [Hr1 Hrl].
    rewrite skip_ws_newline_indent by reflexivity.
    rewrite IH; try assumption.
    + reflexivity.
    + now inversion Hall.
    + inversion Hall; subst. auto.
    + cbn [pairs_size fold_right snd]. lia.
Qed.

(** The text of a representable value is read back as the value. *)
Lemma representable_reads_back (v : value) : representable v = true -> reads_back v.
Proof.
  induction v as [|b|n|f|s|l IHl|d IHd] using value_induction;
    intros Hv level rest fuel Hrest Hfuel;
    (destruct fuel as [|fuel]; [cbn in Hfuel; lia|]).
  - reflexivity.
  - destruct b; reflexivity.
  - cbn [encode]. rewrite scan_once_number
      by (apply number_head_app; exact (match_number_head _ _ _ (match_number_int n))).
    now rewrite (match_number_app _ rest _ _ Hrest (match_number_int n)).
  - cbn [encode representable] in *.
    pose proof (float_representable_number f Hv) as Hnum.
    rewrite scan_once_number
      by (apply number_head_app; exact (match_number_head _ _ _ Hnum)).
    now rewrite (match_number_app _ rest _ _ Hrest Hnum).
  - cbn [encode]. unfold encode_string. cbn [append scan_once].
    change (Ascii.eqb dquote dquote) with true. cbv iota.
    rewrite append_assoc. cbn [append]. now rewrite scanstring_escape.
  - destruct l as [|v0 l]; [reflexivity|].
    cbn [representable forallb] in Hv. apply andb_prop in Hv as [Hr0 Hrl].
    cbn [size] in Hfuel. fold (items_size (v0 :: l)) in Hfuel.
    cbn [encode]. rewrite !append_assoc. cbn [append scan_once].
    change (Ascii.eqb "[" dquote) with false.
    change (Ascii.eqb "[" "{") with false.
    change (Ascii.eqb "[" "[") with true. cbv iota.
    rewrite skip_ws_newline_indent
      by (apply starts_value_plain, encode_starts, Hr0).
    pose proof (encode_starts v0 (S level)
                  (encode_more (encode (S level)) (item_separator (S level)) l
                   ++ newline_indent level ++ String "]" rest) Hr0) as Hstart.
    pose proof (parse_items_encode l) as Hitems.
    specialize (Hitems (Forall_inv_tail IHl) Hrl v0
                  (Forall_inv IHl Hr0) Hr0 level rest fuel).
    destruct (encode (S level) v0
              ++ encode_more (encode (S level)) (item_separator (S level)) l
              ++ newline_indent level ++ String "]" rest)%string
      as [|c1 r1] eqn:E; [discriminate Hstart|].
    cbn [starts_value] in Hstart. apply andb_prop in Hstart as [_ Hc1].
    apply negb_true_iff in Hc1. rewrite Hc1.
    rewrite Hitems by lia. reflexivity.
  - destruct d as [|[k0 v0] d]; [reflexivity|].
    cbn [representable map fst forallb snd] in Hv.
    apply andb_prop in Hv as [Hdist Hv]. apply andb_prop in Hv as [Hr0 Hrd].
    cbn [size] in Hfuel. fold (pairs_size ((k0, v0) :: d)) in Hfuel.
    cbn [encode]. rewrite !append_assoc. cbn [append scan_once].
    change (Ascii.eqb "{" dquote) with false.
    change (Ascii.eqb "{" "{") with true. cbv iota.
    rewrite skip_ws_newline_indent by reflexivity.
    pose proof (parse_pairs_encode d) as Hpairs.
    specialize (Hpairs (Forall_inv_tail IHd) Hrd k0 v0
                  (Forall_inv IHd Hr0) Hr0 level rest fuel).
    rewrite encode_pair_app in Hpairs.
    unfold encode_string. cbn [append]. rewrite append_assoc. cbn [append].
    change (Ascii.eqb dquote "}") with false. cbv iota.
    rewrite Hpairs by lia.
    now rewrite (dict_of_pairs_distinct ((k0, v0) :: d) Hdist).
Qed.

Lemma length_newline_indent level :
  String.length (newline_indent level) = S (2 * level).
Proof.
  unfold newline_indent. cbn [String.length]. f_equal.
  induction (2 * level) as [|n IH]; cbn; congruence.
Qed.

Lemma length_item_separator level :
  String.length (item_separator level) = S (S (2 * level)).
Proof.
  unfold item_separator. cbn [append String.length].
  now rewrite length_newline_indent.
Qed.

Lemma items_size_bound enc sep (l : list value) :
  2 <= String.length sep ->
  Forall (fun v => size v <= S (String.length (enc v))) l ->
  items_size l <= String.length (encode_more enc sep l).
Proof.
  intros Hsep. induction 1 as [|v l Hv _ IH]; cbn [items_size fold_right encode_more].
  - lia.
  - fold (items_size l). rewrite !append_length. lia.
Qed.

Lemma pairs_size_bound enc sep (d : list (string * value)) :
  2 <= String.length sep ->
  Forall (fun kv => size (snd kv) <= S (String.length (enc (snd kv)))) d ->
  pairs_size d <= String.length (encode_more_pairs enc sep d).
Proof.
  intros Hsep. induction 1 as [|[k v] d Hv _ IH];
    cbn [pairs_size fold_right encode_more_pairs snd].
  - lia.
  - fold (pairs_size d). unfold encode_pair. cbn [fst snd] in *.
    rewrite !append_length. lia.
Qed.

(** The fuel [loads] gives the scanner covers the size of the value. *)
Lemma size_bound (v : value) : forall level,
  size v <= S (String.length (encode level v)).
Proof.
  induction v as [|b|n|f|s|l IHl|d IHd] using value_induction; intros level;
    try (cbn [size]; lia).
  - destruct l as [|v0 l]; [cbn; lia|].
    cbn [size encode]. fold (items_size (v0 :: l)).
    cbn [items_size fold_right]. fold (items_size l).
    pose proof (Forall_inv IHl (S level)) as H0.
    pose proof (items_size_bound (encode (S level)) (item_separator (S level)) l) as Hl.
    rewrite length_item_separator in Hl.
    specialize (Hl ltac:(lia)
                  (Forall_impl _ (fun v (H : forall level, _) => H (S level))
                     (Forall_inv_tail IHl))).
    rewrite !append_length, length_newline_indent. cbn [String.length]. lia.
  - destruct d as [|[k0 v0] d]; [cbn; lia|].
    cbn [size encode]. fold (pairs_size ((k0, v0) :: d)).
    cbn [pairs_size fold_right snd]. fold (pairs_size d).
    pose proof (Forall_inv IHd (S level)) as H0. cbn [snd] in H0.
    pose proof (pairs_size_bound (encode (S level)) (item_separator (S level)) d) as Hd.
    rewrite length_item_separator in Hd.
    specialize (Hd ltac:(lia)
                  (Forall_impl _ (fun kv (H : forall level, _) => H (S level))
                     (Forall_inv_tail IHd))).
    rewrite !append_length, length_newline_indent. cbn [String.length]. lia.
Qed.

(** [json.loads(json.dumps(v, indent=2)) == v] for a representable [v]. *)
Lemma loads_dumps (v : value) :
  representable v = true -> loads (dumps v) = Some (Ok v).
Proof.
  intros Hv. unfold loads, dumps.
  pose proof (encode_starts v 0 EmptyString Hv) as Hstart.
  rewrite append_nil_r in Hstart.
  rewrite skip_ws_plain by now apply starts_value_plain.
  pose proof (representable_reads_back v Hv 0 EmptyString
                (S (String.length (encode 0 v))) eq_refl (size_bound v 0)) as Hread.
  rewrite append_nil_r in Hread. now rewrite Hread.
Qed.

End JsonRoundTrip.

Section CatalogueRoundTrip.
Import Json JsonSpec ShopManualMethods.

Lemma catalogue_representable (es : list dict) :
  forallb well_formed es = true -> representable (entries (catalogue es)) = true.
Proof.
  unfold catalogue. cbn [entries representable].
  induction es as [|e es IH]; cbn [forallb map]; [reflexivity|].
  intros H. apply andb_prop in H as [He Hes].
  unfold well_formed in He. now rewrite He, IH.
Qed.

End CatalogueRoundTrip.

(** ** Numeric fields *)

Section NumericFields.
Import Json JsonSpec PyNum.

Lemma lstrip_spaces sp k (s : string) :
  sp " "%char = true -> Py.lstrip_of sp (spaces k ++ s) = Py.lstrip_of sp s.
Proof.
  intros Hsp. induction k as [|k IH]; [reflexivity|].
  cbn [spaces append Py.lstrip_of]. now rewrite Hsp.
Qed.

Lemma trim_padded k (s : string) :
  none_of isspace_num s = true -> trim (spaces k ++ s) = s.
Proof.
  intros Hs. unfold trim. rewrite lstrip_spaces by reflexivity.
  now rewrite (lstrip_of_none _ _ Hs), rstrip_of_none.
Qed.

Lemma str_of_int_no_space (n : Z) : none_of isspace_num (Py.str_of_int n) = true.
Proof.
  unfold Py.str_of_int.
  destruct n as [|p|p]; cbn [Z.to_int NilZero.string_of_int]; [reflexivity| |];
    unfold NilZero.string_of_uint;
    pose proof (string_of_uint_digits (Pos.to_uint p)) as Hd;
    apply all_digits_no_space in Hd;
    destruct (Pos.to_uint p); try exact Hd; try reflexivity;
    cbn [none_of]; now rewrite Hd.
Qed.

(** A field that holds the decimal numeral of [n] after spaces converts to
    [n]. *)
Lemma int_of_padded (k : nat) (n : Z) :
  PyNum.int (spaces k ++ Py.str_of_int n) = Ok n.
Proof.
  pose proof (int_of_str_of_int n) as Hn. unfold PyNum.int in *.
  rewrite trim_padded by apply str_of_int_no_space.
  now rewrite trim_none in Hn by apply str_of_int_no_space.
Qed.

Lemma none_of_app sp (a b : string) :
  none_of sp (a ++ b) = none_of sp a && none_of sp b.
Proof.
  induction a as [|c a IH]; cbn [append none_of]; [reflexivity|].
  now rewrite IH, andb_assoc.
Qed.

Lemma digits_none_of sp (s : string) :
  (forall c, Py.isdigit c = true -> sp c = false) ->
  all_digits s = true -> none_of sp s = true.
Proof.
  intros Hsp. induction s as [|c r IH]; cbn [all_digits none_of]; [reflexivity|].
  intros H. apply andb_prop in H as [Hc Hr]. now rewrite (Hsp c Hc), IH.
Qed.

Lemma fixed_point_none_of sp neg u1 u2 :
  (forall c, Py.isdigit c = true -> sp c = false) ->
  sp "-"%char = false -> sp "."%char = false ->
  none_of sp (fixed_point neg u1 u2) = true.
Proof.
  intros Hd Hm Hp. unfold fixed_point.
  rewrite !none_of_app.
  rewrite (digits_none_of sp (NilEmpty.string_of_uint u1) Hd)
    by apply string_of_uint_digits.
  rewrite (digits_none_of sp (NilEmpty.string_of_uint u2) Hd)
    by apply string_of_uint_digits.
  destruct neg; cbn [none_of]; now rewrite ?Hm, ?Hp.
Qed.

Lemma digit_not_underscore c : Py.isdigit c = true -> Ascii.eqb c underscore = false.
Proof. destruct c as [[] [] [] [] [] [] [] []]; try discriminate; reflexivity. Qed.

Lemma drop_underscores_none (s : string) : forall prev,
  none_of (fun c => Ascii.eqb c underscore) s = true ->
  match prev with Some p => Ascii.eqb p underscore = false | None => True end ->
  drop_underscores prev s = Some s.
Proof.
  induction s as [|c r IH]; intros prev Hs Hprev; cbn [drop_underscores].
  - destruct prev as [p|]; [now rewrite Hprev|reflexivity].
  - cbn [none_of] in Hs. apply andb_prop in Hs as [Hc Hr].
    apply negb_true_iff in Hc. rewrite Hc.
    replace (match prev with Some p => Ascii.eqb p underscore | None => false end)
      with false by (destruct prev as [p|]; [now rewrite Hprev|reflexivity]).
    cbn [andb]. now rewrite (IH (Some c) Hr Hc).
Qed.

Lemma scan_digits_uint (u : Decimal.uint) : forall acc n rest,
  match rest with String c _ => Py.isdigit c = false | EmptyString => True end ->
  scan_digits acc n (NilEmpty.string_of_uint u ++ rest)
  = (uint_value acc u, n + Decimal.nb_digits u, rest).
Proof.
  induction u; intros acc n rest Hrest;
    cbn [NilEmpty.string_of_uint append uint_value Decimal.nb_digits];
    try (cbn [scan_digits];
         change (Py.isdigit _) with true; cbv iota;
         rewrite IHu by exact Hrest; f_equal; f_equal; lia).
  destruct rest as [|c r]; cbn [scan_digits].
  - now rewrite Nat.add_0_r.
  - now rewrite Hrest, Nat.add_0_r.
Qed.

Lemma point_head_not_word (body : string) :
  match body with
  | String c _ => Py.isdigit c = true \/ c = "."%char
  | EmptyString => False
  end ->
  String.eqb (lowercase body) "inf" = false
  /\ String.eqb (lowercase body) "infinity" = false
  /\ String.eqb (lowercase body) "nan" = false.
Proof.
  destruct body as [|c r]; [intros []|].
  intros [Hc| ->]; [|repeat split].
  destruct c as [[] [] [] [] [] [] [] []]; try discriminate Hc; repeat split.
Qed.

Lemma fixed_point_head u1 u2 :
  match (NilEmpty.string_of_uint u1 ++ "." ++ NilEmpty.string_of_uint u2)%string with
  | String c _ => Py.isdigit c = true \/ c = "."%char
  | EmptyString => False
  end.
Proof. destruct u1; cbn; auto. Qed.

(** A field that holds a number written with a point, after spaces,
    converts to the float nearest to that number. *)
Lemma float_of_fixed_point (k : nat) (neg : bool) (u1 u2 : Decimal.uint) :
  u1 <> Decimal.Nil \/ u2 <> Decimal.Nil ->
  PyNum.float (spaces k ++ fixed_point neg u1 u2)
  = Ok (F64.of_decimal neg (uint_value (uint_value 0 u1) u2)
          (- Z.of_nat (Decimal.nb_digits u2))).
Proof.
  intros Hne. unfold PyNum.float.
  rewrite trim_padded
    by (apply fixed_point_none_of; [exact digit_not_space|reflexivity|reflexivity]).
  rewrite drop_underscores_none;
    [| apply fixed_point_none_of; [exact digit_not_underscore|reflexivity|reflexivity]
     | exact I].
  set (body := (NilEmpty.string_of_uint u1 ++ "." ++ NilEmpty.string_of_uint u2)%string).
  assert (Hsign : split_sign (fixed_point neg u1 u2) = (neg, body)).
  { unfold fixed_point. fold body. destruct neg; [reflexivity|].
    cbn [append]. pose proof (fixed_point_head u1 u2) as Hh. fold body in Hh.
    destruct body as [|c r]; [destruct Hh|].
    unfold split_sign.
    destruct Hh as [Hc| ->]; [|reflexivity].
    now destruct (digit_not_sign c Hc) as [-> ->]. }
  rewrite Hsign.
  destruct (point_head_not_word body (fixed_point_head u1 u2)) as (-> & -> & ->).
  cbn [orb].
  assert (Hdec : decimal body
                 = Some (uint_value (uint_value 0 u1) u2,
                         (- Z.of_nat (Decimal.nb_digits u2))%Z)).
  { unfold decimal, body.
    rewrite scan_digits_uint by reflexivity.
    cbn [append]. change (Ascii.eqb "." ".") with true. cbv iota.
    rewrite <- (append_nil_r (NilEmpty.string_of_uint u2)).
    rewrite scan_digits_uint by exact I.
    cbn [Nat.add].
    destruct (Decimal.nb_digits u1 + Decimal.nb_digits u2 =? 0)%nat eqn:E; [|reflexivity].
    apply Nat.eqb_eq in E. exfalso.
    destruct Hne as [H|H]; apply H; [destruct u1|destruct u2];
      cbn [Decimal.nb_digits] in E; try reflexivity; lia. }
  now rewrite Hdec.
Qed.

End NumericFields.

(** ** Floats: reading an exact decimal *)

Section BinaryDigits.
Local Open Scope Z_scope.

(** [digits2_pos p] is the number of binary digits of [p]. *)
Lemma digits2_bounds (p : positive) :
  2 ^ (Zpos (digits2_pos p) - 1) <= Zpos p < 2 ^ Zpos (digits2_pos p).
Proof.
  induction p as [p IH|p IH|]; cbn [digits2_pos].
  - rewrite Pos2Z.inj_succ.
    replace (Z.succ (Zpos (digits2_pos p)) - 1) with (Z.succ (Zpos (digits2_pos p) - 1))
      by lia.
    rewrite !Z.pow_succ_r by lia. lia.
  - rewrite Pos2Z.inj_succ.
    replace (Z.succ (Zpos (digits2_pos p)) - 1) with (Z.succ (Zpos (digits2_pos p) - 1))
      by lia.
    rewrite !Z.pow_succ_r by lia. lia.
  - cbn. lia.
Qed.

(** The number of binary digits is determined by the powers of two
    around the number. *)
Lemma digits2_unique (p : positive) (d : Z) :
  2 ^ (d - 1) <= Zpos p < 2 ^ d -> Zpos (digits2_pos p) = d.
Proof.
  intros [Hlo Hhi]. pose proof (digits2_bounds p) as [Blo Bhi].
  assert (Hd : 0 < d).
  { destruct (Z_lt_le_dec 0 d) as [H|H]; [exact H|].
    destruct (Z.eq_dec d 0) as [->|Hne]; [cbn in Hhi; lia|].
    rewrite Z.pow_neg_r in Hhi by lia. lia. }
  destruct (Z.lt_trichotomy (Zpos (digits2_pos p)) d) as [H|[H|H]]; [|exact H|]; exfalso.
  - assert (2 ^ Zpos (digits2_pos p) <= 2 ^ (d - 1)) by (apply Z.pow_le_mono_r; lia). lia.
  - assert (2 ^ d <= 2 ^ (Zpos (digits2_pos p) - 1)) by (apply Z.pow_le_mono_r; lia). lia.
Qed.

(** Multiplying by [2^n] adds [n] binary digits. *)
Lemma digits2_shift (p : positive) (n : positive) :
  Zpos (digits2_pos (p * 2 ^ n)) = Zpos (digits2_pos p) + Zpos n.
Proof.
  apply digits2_unique. pose proof (digits2_bounds p) as [Blo Bhi].
  rewrite Pos2Z.inj_mul, Pos2Z.inj_pow.
  replace (Zpos (digits2_pos p) + Zpos n - 1) with ((Zpos (digits2_pos p) - 1) + Zpos n)
    by lia.
  rewrite !Z.pow_add_r by lia.
  assert (0 < 2 ^ Zpos n) by (apply Z.pow_pos_nonneg; lia). nia.
Qed.

End BinaryDigits.

Section ExactRounding.
Local Open Scope Z_scope.

Lemma pos_pow_double (n : positive) : (2 ^ n~0 = 2 ^ n * 2 ^ n)%positive.
Proof.
  apply Pos2Z.inj. rewrite Pos2Z.inj_mul, !Pos2Z.inj_pow.
  replace (Zpos n~0) with (Zpos n + Zpos n) by lia.
  apply Z.pow_add_r; lia.
Qed.

(** Shifting out zero bits is exact. *)
Lemma iter_shr_exact (n : positive) : forall m : positive,
  iter_pos shr_1 n (Build_shr_record (Zpos (m * 2 ^ n)) false false)
  = Build_shr_record (Zpos m) false false.
Proof.
  induction n as [n IH|n IH|]; intros m; cbn [iter_pos].
  - replace (m * 2 ^ n~1)%positive with ((m * 2 ^ n * 2 ^ n)~0)%positive.
    + cbn [shr_1 orb]. now rewrite !IH.
    + rewrite Pos.xI_succ_xO, Pos.pow_succ_r, pos_pow_double. lia.
  - replace (m * 2 ^ n~0)%positive with (m * 2 ^ n * 2 ^ n)%positive.
    + now rewrite !IH.
    + rewrite pos_pow_double. lia.
  - replace (m * 2 ^ 1)%positive with (m~0)%positive by (rewrite Pos.pow_1_r; lia).
    reflexivity.
Qed.

(** The exponent of a bounded float is the one rounding chooses for its
    number of digits. *)
Lemma canonical_fexp (m : positive) (e : Z) :
  bounded F64.prec F64.emax m e = true ->
  fexp F64.prec F64.emax (Zpos (digits2_pos m) + e) = e /\ e <= F64.emax - F64.prec.
Proof.
  unfold bounded, canonical_mantissa. intros H.
  apply andb_prop in H as [H1 H2].
  apply Z.eqb_eq in H1. apply Z.leb_le in H2. now split.
Qed.

(** Rounding the mantissa [m * 2^n] at the exponent [e - n] gives the
    float [m * 2^e] when that is a binary64 number. *)
Lemma binary_round_aux_exact (s : bool) (m : positive) (e n : Z) :
  bounded F64.prec F64.emax m e = true -> 0 <= n ->
  binary_round_aux F64.prec F64.emax s (Zpos m * 2 ^ n) (e - n) loc_Exact = S754_finite s m e.
Proof.
  intros Hb Hn. destruct (canonical_fexp m e Hb) as [Hf He].
  assert (Hlast : shr_fexp F64.prec F64.emax (Zpos m) e loc_Exact
                  = (Build_shr_record (Zpos m) false false, e)).
  { unfold shr_fexp. cbn [Zdigits2 shr_record_of_loc]. rewrite Hf, Z.sub_diag.
    reflexivity. }
  unfold binary_round_aux.
  assert (Hfirst : shr_fexp F64.prec F64.emax (Zpos m * 2 ^ n) (e - n) loc_Exact
                   = (Build_shr_record (Zpos m) false false, e)).
  { destruct n as [|n|n]; [| |lia].
    - rewrite Z.pow_0_r, Z.mul_1_r, Z.sub_0_r. exact Hlast.
    - unfold shr_fexp. rewrite <- Pos2Z.inj_pow, <- Pos2Z.inj_mul.
      cbn [Zdigits2 shr_record_of_loc]. rewrite digits2_shift.
      replace (Zpos (digits2_pos m) + Zpos n + (e - Zpos n))
        with (Zpos (digits2_pos m) + e) by lia.
      rewrite Hf. replace (e - (e - Zpos n)) with (Zpos n) by lia.
      cbn [shr]. rewrite iter_shr_exact. f_equal. lia. }
  rewrite Hfirst. cbn [shr_m loc_of_shr_record round_nearest_even].
  rewrite Hlast. cbn [shr_m].
  apply Z.leb_le in He. now rewrite He.
Qed.

(** Appending [d] zero bits multiplies by [2^d]. *)
Lemma pos_iter_xO (d : positive) (p : positive) :
  Pos.iter xO p d = (p * 2 ^ d)%positive.
Proof.
  induction d as [|d IH] using Pos.peano_ind.
  - cbn [Pos.iter]. change (2 ^ 1)%positive with 2%positive. lia.
  - rewrite Pos.iter_succ, IH, Pos.pow_succ_r. lia.
Qed.

(** Rounding the integer [N] gives the float [m * 2^e] when the two are
    equal and the float is a binary64 number. *)
Lemma binary_round_exact (s : bool) (N m : positive) (e : Z) :
  bounded F64.prec F64.emax m e = true ->
  (0 <= e -> Zpos N = Zpos m * 2 ^ e) ->
  (e < 0 -> Zpos N * 2 ^ (- e) = Zpos m) ->
  binary_round F64.prec F64.emax s N 0 = S754_finite s m e.
Proof.
  intros Hb Hpos Hneg. destruct (canonical_fexp m e Hb) as [Hf He].
  unfold binary_round.
  assert (Hd : Zpos (digits2_pos N) + 0 = Zpos (digits2_pos m) + e).
  { destruct e as [|e|e].
    - specialize (Hpos ltac:(lia)). rewrite Z.pow_0_r, Z.mul_1_r in Hpos.
      injection Hpos as ->. lia.
    - specialize (Hpos ltac:(lia)). rewrite <- Pos2Z.inj_pow, <- Pos2Z.inj_mul in Hpos.
      injection Hpos as ->. rewrite digits2_shift. lia.
    - specialize (Hneg ltac:(lia)). cbn [Z.opp] in Hneg.
      rewrite <- Pos2Z.inj_pow, <- Pos2Z.inj_mul in Hneg.
      injection Hneg as <-. rewrite digits2_shift. lia. }
  rewrite Hd, Hf. unfold shl_align.
  destruct e as [|e|e]; cbn [Z.sub Z.add Z.opp Z.pos_sub].
  - specialize (Hpos ltac:(lia)). rewrite Hpos.
    apply (binary_round_aux_exact s m 0 0 Hb). lia.
  - specialize (Hpos ltac:(lia)). rewrite Hpos.
    replace 0 with (Zpos e - Zpos e) at 1 by lia.
    apply (binary_round_aux_exact s m (Zpos e) (Zpos e) Hb). lia.
  - specialize (Hneg ltac:(lia)). cbn [Z.opp] in Hneg.
    rewrite <- Pos2Z.inj_pow, <- Pos2Z.inj_mul in Hneg. injection Hneg as Hm.
    rewrite pos_iter_xO, Hm.
    pose proof (binary_round_aux_exact s m (Zneg e) 0 Hb ltac:(lia)) as H.
    now rewrite Z.pow_0_r, Z.mul_1_r, Z.sub_0_r in H.
Qed.

Lemma pow2_lt_exponent (a b : Z) : 0 <= b -> 2 ^ a < 2 ^ b -> a < b.
Proof. intros Hb H. apply (Z.pow_lt_mono_r_iff 2); [lia|exact Hb|exact H]. Qed.

(** The quotient of an exact division has the digits of the dividend
    less those of the divisor at least. *)
Lemma quotient_digits (p q m : positive) (e : Z) :
  (0 <= e -> Zpos p = Zpos m * 2 ^ e * Zpos q) ->
  (e < 0 -> Zpos p * 2 ^ (- e) = Zpos m * Zpos q) ->
  Zpos (digits2_pos p) - Zpos (digits2_pos q) <= Zpos (digits2_pos m) + e.
Proof.
  intros Hpos Hneg.
  pose proof (digits2_bounds p) as [Plo _].
  pose proof (digits2_bounds q) as [_ Qhi].
  pose proof (digits2_bounds m) as [_ Mhi].
  set (dp := Zpos (digits2_pos p)) in *. set (dq := Zpos (digits2_pos q)) in *.
  set (dm := Zpos (digits2_pos m)) in *.
  assert (0 < dp /\ 0 < dq /\ 0 < dm) as (Hp & Hq & Hm) by (unfold dp, dq, dm; lia).
  destruct (Z_lt_le_dec e 0) as [He|He].
  - specialize (Hneg He).
    assert (H : 2 ^ (dp - 1 - e) < 2 ^ (dm + dq)).
    { replace (dp - 1 - e) with ((dp - 1) + (- e)) by lia.
      rewrite !Z.pow_add_r by lia.
      assert (0 < 2 ^ (- e)) by (apply Z.pow_pos_nonneg; lia).
      assert (0 < 2 ^ dm) by (apply Z.pow_pos_nonneg; lia).
      assert (2 ^ (dp - 1) * 2 ^ (- e) <= Zpos p * 2 ^ (- e))
        by (apply Z.mul_le_mono_nonneg_r; lia).
      assert (Zpos m * Zpos q < 2 ^ dm * Zpos q)
        by (apply Z.mul_lt_mono_pos_r; lia).
      assert (2 ^ dm * Zpos q <= 2 ^ dm * 2 ^ dq)
        by (apply Z.mul_le_mono_nonneg_l; lia).
      lia. }
    apply pow2_lt_exponent in H; lia.
  - specialize (Hpos He).
    assert (H : 2 ^ (dp - 1) < 2 ^ (dm + e + dq)).
    { rewrite !Z.pow_add_r by lia.
      assert (0 < 2 ^ e) by (apply Z.pow_pos_nonneg; lia).
      assert (0 < 2 ^ dm) by (apply Z.pow_pos_nonneg; lia).
      assert (Zpos m * 2 ^ e < 2 ^ dm * 2 ^ e)
        by (apply Z.mul_lt_mono_pos_r; lia).
      assert (Zpos m * 2 ^ e * Zpos q < 2 ^ dm * 2 ^ e * Zpos q)
        by (apply Z.mul_lt_mono_pos_r; lia).
      assert (2 ^ dm * 2 ^ e * Zpos q <= 2 ^ dm * 2 ^ e * 2 ^ dq)
        by (apply Z.mul_le_mono_nonneg_l; nia).
      lia. }
    apply pow2_lt_exponent in H; lia.
Qed.

(** Dividing [p] by [q] gives the float [m * 2^e] when the quotient is
    that number and the float is a binary64 number. *)
Lemma of_quotient_exact (s : bool) (p q m : positive) (e : Z) :
  bounded F64.prec F64.emax m e = true ->
  (0 <= e -> Zpos p = Zpos m * 2 ^ e * Zpos q) ->
  (e < 0 -> Zpos p * 2 ^ (- e) = Zpos m * Zpos q) ->
  F64.of_quotient s p q = S754_finite s m e.
Proof.
  intros Hb Hpos Hneg. destruct (canonical_fexp m e Hb) as [Hf He].
  pose proof (quotient_digits p q m e Hpos Hneg) as Hd.
  unfold F64.of_quotient, SFdiv_core_binary. cbn [Zdigits2].
  set (e' := Z.min (fexp F64.prec F64.emax
                      (Zpos (digits2_pos p) + 0 - (Zpos (digits2_pos q) + 0))) (0 - 0)).
  assert (He' : e' <= e /\ e' <= 0).
  { unfold e'. unfold fexp in *. lia. }
  destruct He' as [Hle H0].
  assert (Hm' : match 0 - 0 - e' with
                | Zpos _ => Z.shiftl (Zpos p) (0 - 0 - e')
                | 0 => Zpos p
                | Zneg _ => 0
                end = Zpos m * 2 ^ (e - e') * Zpos q).
  { assert (Hshift : match 0 - 0 - e' with
                     | Zpos _ => Z.shiftl (Zpos p) (0 - 0 - e')
                     | 0 => Zpos p
                     | Zneg _ => 0
                     end = Zpos p * 2 ^ (- e')).
    { replace (0 - 0 - e') with (- e') by lia.
      destruct (- e') as [|k|k] eqn:E; [|apply Z.shiftl_mul_pow2|]; lia. }
    rewrite Hshift.
    destruct (Z_lt_le_dec e 0) as [Hn|Hn].
    - specialize (Hneg Hn).
      replace (- e') with ((- e) + (e - e')) by lia.
      rewrite Z.pow_add_r by lia. nia.
    - specialize (Hpos Hn). rewrite Hpos.
      replace (e - e') with (e + (- e')) by lia.
      rewrite Z.pow_add_r by lia. nia. }
  rewrite Hm'.
  destruct (Z.div_eucl (Zpos m * 2 ^ (e - e') * Zpos q) (Zpos q)) as [q0 r] eqn:E.
  assert (Hq0 : q0 = Zpos m * 2 ^ (e - e')).
  { pose proof (Z.div_mul (Zpos m * 2 ^ (e - e')) (Zpos q) ltac:(lia)) as H.
    unfold Z.div in H. now rewrite E in H. }
  assert (Hr : r = 0).
  { pose proof (Z.mod_mul (Zpos m * 2 ^ (e - e')) (Zpos q) ltac:(lia)) as H.
    unfold Z.modulo in H. now rewrite E in H. }
  subst q0 r.
  replace (new_location (Zpos q) 0) with loc_Exact
    by (unfold new_location; now destruct (Z.even (Zpos q))).
  replace e' with (e - (e - e')) at 2 by lia.
  apply binary_round_aux_exact; [exact Hb|lia].
Qed.

(** The fraction of a float, by the sign of its exponent. *)
Lemma fraction_cases (m : positive) (e p q : Z) :
  FloatRepr.fraction m e = (p, q) ->
  (0 <= e -> p = Zpos m * 2 ^ e /\ q = 1)
  /\ (e < 0 -> p = Zpos m /\ q = 2 ^ (- e)).
Proof.
  intros H.
  assert (Hp : p = fst (FloatRepr.fraction m e)) by now rewrite H.
  assert (Hq : q = snd (FloatRepr.fraction m e)) by now rewrite H.
  clear H. split; intros He; destruct e as [|e|e]; try lia; subst p q;
    split; try reflexivity.
  cbn [FloatRepr.fraction Z.opp snd]. now rewrite Pos2Z.inj_pow.
Qed.

(** [float] reads a decimal that is a binary64 number as that number:
    when [M * 10^E] is the fraction [p / q] of the float [m * 2^e]. *)
Lemma of_decimal_exact (s : bool) (M E : Z) (m : positive) (e p q : Z) :
  bounded F64.prec F64.emax m e = true ->
  FloatRepr.fraction m e = (p, q) ->
  0 < M ->
  (0 <= E -> M * 10 ^ E * q = p) ->
  (E < 0 -> M * q = p * 10 ^ (- E)) ->
  F64.of_decimal s M E = S754_finite s m e.
Proof.
  intros Hb Hfr HM Hpos Hneg.
  destruct (fraction_cases m e p q Hfr) as [Fpos Fneg]. clear Hfr.
  destruct M as [|pm|pm]; try lia. unfold F64.of_decimal.
  assert (Hnorm : forall N : positive,
             Zpos pm * 10 ^ E = Zpos N -> 0 <= E ->
             binary_normalize F64.prec F64.emax
               (if s then - (Zpos pm * 10 ^ E) else Zpos pm * 10 ^ E) 0 false
             = S754_finite s m e).
  { intros N HN HE. rewrite HN.
    replace (binary_normalize F64.prec F64.emax (if s then - Zpos N else Zpos N) 0 false)
      with (binary_round F64.prec F64.emax s N 0) by now destruct s.
    specialize (Hpos HE). rewrite HN in Hpos.
    apply binary_round_exact; [exact Hb| |]; intros He.
    - destruct (Fpos He) as [-> ->]. lia.
    - destruct (Fneg He) as [-> ->]. lia. }
  assert (Hex : 0 <= E -> exists N : positive, Zpos pm * 10 ^ E = Zpos N).
  { intros HE. assert (0 < Zpos pm * 10 ^ E)
      by (apply Z.mul_pos_pos; [lia|apply Z.pow_pos_nonneg; lia]).
    destruct (Zpos pm * 10 ^ E) as [|N|N]; try lia. now exists N. }
  destruct E as [|k|k].
  - destruct (Hex ltac:(lia)) as [N HN]. apply (Hnorm N HN). lia.
  - destruct (Hex ltac:(lia)) as [N HN]. apply (Hnorm N HN). lia.
  - specialize (Hneg ltac:(lia)). cbn [Z.opp] in Hneg.
    rewrite <- Pos2Z.inj_pow in Hneg.
    apply of_quotient_exact; [exact Hb| |]; intros He.
    + destruct (Fpos He) as [-> ->]. lia.
    + destruct (Fneg He) as [-> ->]. lia.
Qed.

End ExactRounding.

(** ** Reading a literal *)

Section Literals.
Import Json JsonSpec PyNum FloatRepr LiteralSpec.

Lemma scan_digits_all (ds : string) : forall acc n rest,
  all_digits ds = true -> not_digit_head rest ->
  scan_digits acc n (ds ++ rest) = (digits_value acc ds, n + String.length ds, rest).
Proof.
  induction ds as [|c r IH]; intros acc n rest Hd Hrest; cbn [append digits_value String.length].
  - rewrite Nat.add_0_r. destruct rest as [|c r]; cbn [scan_digits]; [reflexivity|].
    cbn in Hrest. now rewrite Hrest.
  - cbn [all_digits] in Hd. apply andb_prop in Hd as [Hc Hr].
    cbn [scan_digits]. rewrite Hc, (IH _ _ _ Hr Hrest). f_equal. f_equal. lia.
Qed.

Lemma span_digits_run (ds rest : string) :
  all_digits ds = true -> not_digit_head rest ->
  span_digits (ds ++ rest) = (ds, rest).
Proof.
  intros Hd Hrest. induction ds as [|c r IH]; cbn [append].
  - destruct rest as [|c r]; cbn [span_digits]; [reflexivity|].
    cbn in Hrest. now rewrite Hrest.
  - cbn [all_digits] in Hd. apply andb_prop in Hd as [Hc Hr].
    cbn [span_digits]. now rewrite Hc, (IH Hr).
Qed.

Lemma digits_value_acc (s : string) : forall acc,
  (digits_value acc s = acc * 10 ^ Z.of_nat (String.length s) + digits_value 0 s)%Z.
Proof.
  induction s as [|c r IH]; intros acc; cbn [digits_value String.length].
  - cbn. lia.
  - rewrite IH, (IH (10 * 0 + Py.digit_value c)%Z).
    rewrite Nat2Z.inj_succ, Z.pow_succ_r by lia. lia.
Qed.

Lemma digits_value_app (a b : string) : forall acc,
  digits_value acc (a ++ b) = digits_value (digits_value acc a) b.
Proof.
  induction a as [|c r IH]; intros acc; cbn [append digits_value]; [reflexivity|apply IH].
Qed.

Lemma digits_value_zeros (n : nat) : forall acc,
  (digits_value acc (zeros n) = acc * 10 ^ Z.of_nat n)%Z.
Proof.
  induction n as [|n IH]; intros acc; cbn [zeros digits_value].
  - cbn. lia.
  - rewrite IH, Nat2Z.inj_succ, Z.pow_succ_r by lia.
    change (Py.digit_value "0") with 0%Z. lia.
Qed.

Lemma digits_value_uint (u : Decimal.uint) : forall acc,
  digits_value acc (NilEmpty.string_of_uint u) = uint_value acc u.
Proof.
  induction u; intros acc; cbn [NilEmpty.string_of_uint digits_value uint_value];
    try reflexivity; apply IHu.
Qed.

Lemma all_digits_app (a b : string) :
  all_digits (a ++ b) = all_digits a && all_digits b.
Proof.
  induction a as [|c r IH]; cbn [append all_digits]; [reflexivity|].
  now rewrite IH, andb_assoc.
Qed.

Lemma all_digits_zeros (n : nat) : all_digits (zeros n) = true.
Proof. induction n as [|n IH]; [reflexivity|exact IH]. Qed.

Lemma length_zeros (n : nat) : String.length (zeros n) = n.
Proof. induction n as [|n IH]; cbn [zeros String.length]; [reflexivity|now rewrite IH]. Qed.

(** The digits of a positive number: they start with a digit other than
    0 and denote the number. *)
Lemma digits_of_positive (c : Z) :
  (0 < c)%Z ->
  exists c1 r,
    digits_of c = String c1 r /\ Py.isdigit c1 = true /\ Ascii.eqb c1 "0" = false
    /\ all_digits r = true /\ digits_value 0 (digits_of c) = c.
Proof.
  intros Hc. destruct c as [|p|p]; try lia.
  unfold digits_of. cbn [Z.to_N N.to_uint].
  destruct (to_uint_head p) as (c1 & r & E & Hd & H0).
  pose proof (string_of_uint_digits (Pos.to_uint p)) as Hall.
  assert (Hs : NilZero.string_of_uint (Pos.to_uint p)
               = NilEmpty.string_of_uint (Pos.to_uint p)).
  { unfold NilZero.string_of_uint. destruct (Pos.to_uint p); try reflexivity.
    discriminate E. }
  rewrite Hs. exists c1, r. rewrite E in Hall. cbn [all_digits] in Hall.
  apply andb_prop in Hall as [_ Hr].
  repeat split; try assumption.
  now rewrite digits_value_uint, uint_value_to_uint.
Qed.

(** The digits of a natural number denote it. *)
Lemma digits_of_value (c : Z) :
  (0 <= c)%Z ->
  all_digits (digits_of c) = true /\ digits_of c <> EmptyString
  /\ digits_value 0 (digits_of c) = c.
Proof.
  intros Hc. destruct (Z.eq_dec c 0) as [->|Hne].
  - repeat split; try reflexivity. discriminate.
  - destruct (digits_of_positive c ltac:(lia)) as (c1 & r & E & Hd & _ & Hr & Hv).
    rewrite Hv, E. cbn [all_digits]. rewrite Hd, Hr. repeat split. discriminate.
Qed.

Lemma fraction_text_head (fp rest : string) :
  not_digit_head rest -> not_digit_head (fraction_text fp ++ rest).
Proof. destruct fp; [trivial|reflexivity]. Qed.

Lemma exponent_text_head (x : option (bool * string)) :
  not_digit_head (exponent_text x).
Proof. destruct x as [[neg ds]|]; [reflexivity|exact I]. Qed.

Lemma literal_none_of (sp : ascii -> bool) neg ip fp x :
  (forall c, Py.isdigit c = true -> sp c = false) ->
  sp "-"%char = false -> sp "+"%char = false -> sp "."%char = false ->
  sp "e"%char = false ->
  float_literal ip fp x ->
  none_of sp (literal neg ip fp x) = true.
Proof.
  intros Hd Hm Hp Hpt He (Hip & _ & Hfp & Hx). unfold literal.
  rewrite !none_of_app, (digits_none_of sp ip Hd Hip).
  assert (H1 : none_of sp (if neg then "-" else "") = true)
    by (destruct neg; cbn [none_of]; now rewrite ?Hm).
  assert (H2 : none_of sp (fraction_text fp) = true).
  { destruct fp as [|c r]; [reflexivity|].
    unfold fraction_text. rewrite none_of_app, (digits_none_of sp _ Hd Hfp).
    cbn [none_of]. now rewrite Hpt. }
  assert (H3 : none_of sp (exponent_text x) = true).
  { destruct x as [[eneg ds]|]; [|reflexivity]. destruct Hx as [Hds _].
    unfold exponent_text. rewrite !none_of_app, (digits_none_of sp _ Hd Hds).
    destruct eneg; cbn [none_of]; now rewrite He, ?Hm, ?Hp. }
  now rewrite H1, H2, H3.
Qed.

(** [decimal] on the body of a literal. *)
Lemma decimal_literal ip fp x :
  float_literal ip fp x ->
  decimal (ip ++ fraction_text fp ++ exponent_text x)
  = Some (digits_value 0 (ip ++ fp),
          (exponent_value x - Z.of_nat (String.length fp))%Z).
Proof.
  intros (Hip & Hne & Hfp & Hx). unfold decimal.
  rewrite (scan_digits_all ip 0%Z 0 _ Hip)
    by (apply fraction_text_head, exponent_text_head).
  cbn [Nat.add].
  assert (Hfrac :
    match (fraction_text fp ++ exponent_text x)%string with
    | String c r =>
        if Ascii.eqb c "." then scan_digits (digits_value 0 ip) 0 r
        else (digits_value 0 ip, 0, (fraction_text fp ++ exponent_text x)%string)
    | EmptyString => (digits_value 0 ip, 0, (fraction_text fp ++ exponent_text x)%string)
    end
    = (digits_value 0 (ip ++ fp), String.length fp, exponent_text x)).
  { rewrite digits_value_app. destruct fp as [|c r].
    - cbn [fraction_text append digits_value String.length].
      destruct x as [[eneg ds]|]; reflexivity.
    - unfold fraction_text. cbn [append]. change (Ascii.eqb "." ".") with true. cbv iota.
      change (String c (r ++ exponent_text x)) with (String c r ++ exponent_text x)%string.
      now rewrite (scan_digits_all _ _ 0 _ Hfp (exponent_text_head x)). }
  rewrite Hfrac.
  assert (Hlen : (String.length ip + String.length fp =? 0)%nat = false).
  { apply Nat.eqb_neq. destruct ip; [congruence|cbn [String.length]; lia]. }
  rewrite Hlen.
  destruct x as [[eneg ds]|]; cbn [exponent_text exponent_value].
  - destruct Hx as [Hds Hdne].
    cbn [append]. change (is_exponent_mark "e") with true. cbv iota.
    assert (Hsign : split_sign ((if eneg then "-" else "+") ++ ds) = (eneg, ds))
      by now destruct eneg.
    rewrite Hsign.
    rewrite <- (append_nil_r ds) at 1.
    rewrite (scan_digits_all ds 0%Z 0 EmptyString Hds I). cbn [Nat.add].
    destruct ds as [|d ds']; [congruence|]. cbn [String.length]. reflexivity.
  - reflexivity.
Qed.

(** [float] reads a literal as the float nearest to the decimal it
    writes. *)
Lemma float_of_literal neg ip fp x :
  float_literal ip fp x ->
  PyNum.float (literal neg ip fp x)
  = Ok (F64.of_decimal neg (digits_value 0 (ip ++ fp))
          (exponent_value x - Z.of_nat (String.length fp))).
Proof.
  intros Hlit. unfold PyNum.float.
  rewrite trim_none
    by (apply literal_none_of; try reflexivity; [exact digit_not_space|exact Hlit]).
  rewrite drop_underscores_none;
    [| apply literal_none_of; try reflexivity; [exact digit_not_underscore|exact Hlit]
     | exact I].
  set (body := (ip ++ fraction_text fp ++ exponent_text x)%string).
  assert (Hhead : match body with
                  | String c _ => Py.isdigit c = true \/ c = "."%char
                  | EmptyString => False
                  end).
  { destruct Hlit as (Hip & Hne & _). unfold body.
    destruct ip as [|c r]; [congruence|]. cbn [append].
    cbn [all_digits] in Hip. apply andb_prop in Hip as [Hc _]. now left. }
  assert (Hsign : split_sign (literal neg ip fp x) = (neg, body)).
  { unfold literal. fold body. destruct neg; [reflexivity|].
    cbn [append]. destruct body as [|c r]; [destruct Hhead|].
    unfold split_sign. destruct Hhead as [Hc| ->]; [|reflexivity].
    now destruct (digit_not_sign c Hc) as [-> ->]. }
  rewrite Hsign.
  destruct (point_head_not_word body Hhead) as (-> & -> & ->). cbn [orb].
  unfold body. now rewrite (decimal_literal ip fp x Hlit).
Qed.

(** The JSON scanner reads a literal with a fraction or an exponent
    whole, as the float that [float] reads. *)
Lemma match_number_literal neg ip fp x :
  json_literal ip fp x ->
  match_number (literal neg ip fp x)
  = Some (VFloat (F64.of_decimal neg (digits_value 0 (ip ++ fp))
                    (exponent_value x - Z.of_nat (String.length fp))),
          EmptyString).
Proof.
  intros (Hlit & Hzero & Hfloat).
  pose proof (float_of_literal neg ip fp x Hlit) as Hread.
  destruct Hlit as (Hip & Hne & Hfp & Hx).
  set (tail := (fraction_text fp ++ exponent_text x)%string) in *.
  assert (Htail : not_digit_head tail)
    by (apply fraction_text_head, exponent_text_head).
  assert (Hint : span_integer (ip ++ tail) = Some (ip, tail)).
  { destruct Hzero as [->|H0].
    - reflexivity.
    - destruct ip as [|c r]; [destruct H0|].
      cbn [all_digits] in Hip. apply andb_prop in Hip as [Hc Hr].
      cbn [append span_integer]. now rewrite H0, Hc, (span_digits_run r tail Hr Htail). }
  assert (Hfr : span_fraction tail = (fraction_text fp, exponent_text x)).
  { unfold tail. destruct fp as [|d ds].
    - cbn [fraction_text append]. destruct x as [[eneg ds]|]; [|reflexivity].
      destruct Hx as [_ Hdne]. destruct ds; [congruence|]. now destruct eneg.
    - cbn [all_digits] in Hfp. apply andb_prop in Hfp as [Hd Hds].
      unfold fraction_text. cbn [append span_fraction].
      change (Ascii.eqb "." ".") with true. rewrite Hd. cbn [andb].
      now rewrite (span_digits_run ds _ Hds (exponent_text_head x)). }
  assert (Hex : span_exponent (exponent_text x) = (exponent_text x, EmptyString)).
  { destruct x as [[eneg ds]|]; [|reflexivity]. destruct Hx as [Hds Hdne].
    unfold exponent_text. cbn [append span_exponent].
    change (is_exponent_mark "e") with true. cbv iota.
    pose proof (span_digits_run ds EmptyString Hds I) as Hs.
    rewrite append_nil_r in Hs.
    destruct ds as [|d ds']; [congruence|].
    destruct eneg; cbn [append]; cbn [Ascii.eqb Bool.eqb orb]; rewrite Hs; reflexivity. }
  assert (Hsign :
    match literal neg ip fp x with
    | String c r => if Ascii.eqb c "-" then ("-", r) else (EmptyString, literal neg ip fp x)
    | EmptyString => (EmptyString, literal neg ip fp x)
    end = ((if neg then "-" else ""), (ip ++ tail)%string)).
  { unfold literal. fold tail. destruct neg; [reflexivity|]. cbn [append].
    destruct ip as [|c r]; [congruence|]. cbn [append].
    cbn [all_digits] in Hip. apply andb_prop in Hip as [Hc _].
    now destruct (digit_not_sign c Hc) as [-> _]. }
  unfold match_number. rewrite Hsign, Hint, Hfr, Hex.
  fold (literal neg ip fp x). unfold literal in Hread |- *. fold tail in Hread.
  assert (Hpick : forall (A : Type) (a b : A),
             match fraction_text fp, exponent_text x with
             | EmptyString, EmptyString => a
             | _, _ => b
             end = b).
  { intros A a b. destruct Hfloat as [H|H].
    - destruct fp; [congruence|reflexivity].
    - destruct x as [[eneg ds]|]; [|congruence].
      destruct (fraction_text fp); reflexivity. }
  rewrite Hpick. unfold tail in Hread. rewrite Hread. reflexivity.
Qed.

End Literals.

(** ** The text of a decimal is a literal *)

Section DecimalTexts.
Import Json JsonSpec PyNum FloatRepr LiteralSpec.
Local Open Scope Z_scope.

Lemma strip_zeros_rev_spec (l : list ascii) :
  exists j : nat, l = (repeat "0"%char j ++ strip_zeros_rev l)%list.
Proof.
  induction l as [|c l [j IH]]; [now exists 0%nat|].
  cbn [strip_zeros_rev]. destruct (Ascii.eqb c "0") eqn:E.
  - apply Ascii.eqb_eq in E. subst c. exists (S j). cbn [repeat app]. now rewrite <- IH.
  - now exists 0%nat.
Qed.

Lemma string_of_list_ascii_app (a b : list ascii) :
  string_of_list_ascii (a ++ b)
  = (string_of_list_ascii a ++ string_of_list_ascii b)%string.
Proof.
  induction a as [|c a IH]; cbn [app string_of_list_ascii append]; [reflexivity|].
  now rewrite IH.
Qed.

Lemma string_of_zeros (j : nat) : string_of_list_ascii (repeat "0"%char j) = zeros j.
Proof. induction j as [|j IH]; cbn [repeat string_of_list_ascii zeros]; now rewrite ?IH. Qed.

(** Digits that start with a digit other than 0 keep it when the zeros at
    their end are removed. *)
Lemma strip_trailing_zeros_spec (c1 : ascii) (r : string) :
  Ascii.eqb c1 "0" = false ->
  exists (r' : string) (j : nat),
    strip_trailing_zeros (String c1 r) = String c1 r'
    /\ String c1 r = (String c1 r' ++ zeros j)%string.
Proof.
  intros H0. unfold strip_trailing_zeros.
  set (l := list_ascii_of_string (String c1 r)).
  destruct (strip_zeros_rev_spec (rev l)) as [j Hj].
  assert (Hl : l = (rev (strip_zeros_rev (rev l)) ++ repeat "0"%char j)%list).
  { rewrite <- (rev_involutive l) at 1. rewrite Hj at 1.
    now rewrite rev_app_distr, rev_repeat. }
  destruct (rev (strip_zeros_rev (rev l))) as [|c t] eqn:Et.
  - exfalso. cbn [app] in Hl. unfold l in Hl. cbn [list_ascii_of_string] in Hl.
    destruct j as [|j]; [discriminate Hl|]. cbn [repeat] in Hl.
    injection Hl as Hc _. subst c1. discriminate H0.
  - assert (Hc : c = c1).
    { unfold l in Hl. cbn [list_ascii_of_string app] in Hl. now injection Hl. }
    subst c. exists (string_of_list_ascii t), j. split; [reflexivity|].
    rewrite <- (string_of_list_ascii_of_string (String c1 r)). fold l. rewrite Hl.
    cbn [app string_of_list_ascii append].
    now rewrite string_of_list_ascii_app, string_of_zeros.
Qed.

Lemma substring_whole (s : string) : substring 0 (String.length s) s = s.
Proof.
  induction s as [|c r IH]; cbn [String.length substring]; [reflexivity|now rewrite IH].
Qed.

Lemma substring_split (s : string) : forall n : nat,
  (n <= String.length s)%nat ->
  s = (substring 0 n s ++ substring n (String.length s - n) s)%string
  /\ String.length (substring 0 n s) = n.
Proof.
  induction s as [|c r IH]; intros n Hn; cbn [String.length] in *.
  - assert (n = 0)%nat by lia. subst n. now split.
  - destruct n as [|n].
    + cbn [substring Nat.sub append String.length]. split; [|reflexivity].
      now rewrite (substring_whole r).
    + destruct (IH n ltac:(lia)) as [Hs Hl].
      cbn [substring Nat.sub append String.length]. rewrite Hl.
      split; [|reflexivity]. now rewrite <- Hs.
Qed.

Lemma fraction_text_cons (fp : string) :
  fp <> EmptyString -> fraction_text fp = ("." ++ fp)%string.
Proof. destruct fp; [congruence|reflexivity]. Qed.

Lemma string_length_app (a b : string) :
  Z.of_nat (String.length (a ++ b)) = Z.of_nat (String.length a) + Z.of_nat (String.length b).
Proof. rewrite append_length. lia. Qed.

(** The text [format_short] writes for the digits [ds] is a JSON float
    literal; it denotes [0.ds * 10^decpt]. *)
Lemma format_short_literal (c1 : ascii) (r : string) (decpt : Z) :
  Py.isdigit c1 = true -> Ascii.eqb c1 "0" = false -> all_digits r = true ->
  exists ip fp x,
    format_short (String c1 r) decpt = literal false ip fp x
    /\ json_literal ip fp x
    /\ ((digits_value 0 (ip ++ fp) = digits_value 0 (String c1 r)
         /\ exponent_value x - Z.of_nat (String.length fp)
            = decpt - Z.of_nat (String.length (String c1 r)))
        \/ (Z.of_nat (String.length (String c1 r)) <= decpt
            /\ digits_value 0 (ip ++ fp)
               = digits_value 0 (String c1 r)
                 * 10 ^ (decpt - Z.of_nat (String.length (String c1 r)) + 1)
            /\ exponent_value x - Z.of_nat (String.length fp) = -1)).
Proof.
  intros Hc1 H0 Hr.
  set (ds := String c1 r). set (L := Z.of_nat (String.length ds)).
  assert (Hds : all_digits ds = true) by (unfold ds; cbn [all_digits]; now rewrite Hc1, Hr).
  assert (HL : 1 <= L) by (unfold L, ds; cbn [String.length]; lia).
  unfold format_short. fold L.
  destruct ((decpt <=? -4) || (16 <? decpt)) eqn:Esci.
  - (* scientific notation *)
    set (e := decpt - 1).
    set (ed := if Z.abs e <? 10 then ("0" ++ digits_of (Z.abs e))%string
               else digits_of (Z.abs e)).
    destruct (digits_of_value (Z.abs e) ltac:(lia)) as (Hea & Hne & Hv).
    assert (Hed : all_digits ed = true /\ ed <> EmptyString /\ digits_value 0 ed = Z.abs e).
    { unfold ed. destruct (Z.abs e <? 10); [|now repeat split].
      repeat split; [exact Hea|discriminate|exact Hv]. }
    destruct Hed as (Hed1 & Hed2 & Hed3).
    exists (String c1 EmptyString), r, (Some (e <? 0, ed)).
    split; [|split].
    + unfold literal, exponent_text, ds. fold ed.
      destruct r as [|d r']; cbn [fraction_text append]; reflexivity.
    + repeat split; try assumption.
      * cbn [all_digits]. now rewrite Hc1.
      * discriminate.
      * right. exact H0.
      * right. discriminate.
    + left. split; [reflexivity|].
      cbn [exponent_value]. rewrite Hed3.
      unfold L, ds. cbn [String.length]. rewrite Nat2Z.inj_succ.
      destruct (e <? 0) eqn:Ee; [apply Z.ltb_lt in Ee|apply Z.ltb_ge in Ee]; lia.
  - destruct (decpt <=? 0) eqn:Esmall.
    + (* a zero before the point *)
      apply Z.leb_le in Esmall.
      set (n := Z.to_nat (- decpt)).
      exists "0"%string, (zeros n ++ ds)%string, None.
      assert (Hfp : (zeros n ++ ds)%string <> EmptyString)
        by (unfold ds; destruct (zeros n); discriminate).
      split; [|split].
      * unfold literal. rewrite (fraction_text_cons _ Hfp).
        cbn [exponent_text append]. now rewrite append_nil_r.
      * repeat split; try reflexivity.
        -- discriminate.
        -- now rewrite all_digits_app, all_digits_zeros.
        -- now left.
        -- now left.
      * left. split.
        -- cbn [append digits_value]. change (10 * 0 + Py.digit_value "0") with 0.
           rewrite digits_value_app, digits_value_zeros. reflexivity.
        -- cbn [exponent_value]. rewrite string_length_app, length_zeros. fold L.
           unfold n. lia.
    + apply Z.leb_gt in Esmall.
      destruct (L <=? decpt) eqn:Eint.
      * (* zeros before the point *)
        apply Z.leb_le in Eint.
        set (n := Z.to_nat (decpt - L)).
        exists (ds ++ zeros n)%string, "0"%string, None.
        split; [|split].
        -- unfold literal. cbn [fraction_text exponent_text].
           cbn [append]. now rewrite append_assoc.
        -- repeat split; try reflexivity.
           ++ now rewrite all_digits_app, all_digits_zeros, Hds.
           ++ unfold ds. discriminate.
           ++ right. unfold ds. exact H0.
           ++ left. discriminate.
        -- right. split; [exact Eint|]. split; [|reflexivity].
           rewrite !digits_value_app, digits_value_zeros. cbn [digits_value].
           change (Py.digit_value "0") with 0.
           replace (decpt - L + 1) with (Z.of_nat n + 1) by (unfold n; lia).
           rewrite Z.pow_add_r by lia. lia.
      * (* the point among the digits *)
        apply Z.leb_gt in Eint.
        destruct (substring_split ds (Z.to_nat decpt) ltac:(unfold L in *; lia))
          as [Hsplit Hlen].
        replace (Z.to_nat (L - decpt))
          with (String.length ds - Z.to_nat decpt)%nat by (unfold L; lia).
        set (a := substring 0 (Z.to_nat decpt) ds) in *.
        set (b := substring (Z.to_nat decpt) (String.length ds - Z.to_nat decpt) ds) in *.
        assert (Hab : all_digits a = true /\ all_digits b = true).
        { rewrite Hsplit, all_digits_app in Hds. now apply andb_prop in Hds. }
        destruct Hab as [Ha Hb].
        assert (Hlb : Z.of_nat (String.length b) = L - decpt).
        { assert (Hsum : L = Z.of_nat (String.length a) + Z.of_nat (String.length b))
            by (rewrite <- string_length_app; now rewrite <- Hsplit).
          rewrite Hlen in Hsum. lia. }
        assert (Hbne : b <> EmptyString).
        { intros Eb. rewrite Eb in Hlb. cbn [String.length] in Hlb. lia. }
        exists a, b, None. split; [|split].
        -- unfold literal. rewrite (fraction_text_cons _ Hbne).
           cbn [exponent_text append]. now rewrite append_nil_r.
        -- repeat split; try assumption.
           ++ intros Ea. rewrite Ea in Hlen. cbn [String.length] in Hlen. lia.
           ++ right. destruct a as [|ca ra] eqn:Ea.
              ** cbn [String.length] in Hlen. lia.
              ** unfold ds in Hsplit. cbn [append] in Hsplit.
                 injection Hsplit as Hhead _. now subst ca.
           ++ now left.
        -- left. split; [now rewrite <- Hsplit|].
           cbn [exponent_value]. lia.
Qed.

(** The text of a positive decimal [c * 10^k] is a JSON float literal
    that denotes the decimal. *)
Lemma decimal_text_literal (s : bool) (c k : Z) :
  0 < c ->
  exists ip fp x,
    decimal_text s c k = literal s ip fp x
    /\ json_literal ip fp x
    /\ 0 < digits_value 0 (ip ++ fp)
    /\ forall p q : Z,
         k <= 0 -> c * q = p * 10 ^ (- k) ->
         denotes (digits_value 0 (ip ++ fp))
                 (exponent_value x - Z.of_nat (String.length fp)) p q.
Proof.
  intros Hc.
  destruct (digits_of_positive c Hc) as (c1 & r0 & E0 & Hc1 & H0 & Hr0 & Hv).
  destruct (strip_trailing_zeros_spec c1 r0 H0) as (r & j & Hstrip & Hsplit).
  assert (Hr : all_digits r = true).
  { injection Hsplit as Hs. rewrite Hs, all_digits_app in Hr0.
    now apply andb_prop in Hr0. }
  set (ds := String c1 r) in *.
  assert (Hval : c = digits_value 0 ds * 10 ^ Z.of_nat j).
  { rewrite <- Hv, E0, Hsplit, digits_value_app, digits_value_zeros. reflexivity. }
  assert (Hlen : Z.of_nat (String.length (digits_of c))
                 = Z.of_nat (String.length ds) + Z.of_nat j).
  { rewrite E0, Hsplit, string_length_app, length_zeros. reflexivity. }
  assert (Hpow : 0 < 10 ^ Z.of_nat j) by (apply Z.pow_pos_nonneg; lia).
  assert (Hpos : 0 < digits_value 0 ds) by nia.
  destruct (format_short_literal c1 r (k + Z.of_nat (String.length (digits_of c)))
              Hc1 H0 Hr) as (ip & fp & x & Htext & Hjson & Hden).
  fold ds in Htext, Hden.
  exists ip, fp, x. split; [|split; [exact Hjson|]].
  { unfold decimal_text. rewrite E0, Hstrip. fold ds. rewrite <- E0, Htext.
    unfold literal. now destruct s. }
  set (M := digits_value 0 (ip ++ fp)) in *.
  set (E := exponent_value x - Z.of_nat (String.length fp)) in *.
  set (V := digits_value 0 ds) in *.
  set (L := Z.of_nat (String.length ds)) in *.
  assert (Hexact : forall p q, k <= 0 -> c * q = p * 10 ^ (- k) ->
            (0 <= k + Z.of_nat j -> V * 10 ^ (k + Z.of_nat j) * q = p)
            /\ (k + Z.of_nat j < 0 -> V * q = p * 10 ^ (- (k + Z.of_nat j)))).
  { intros p q Hk Hq. rewrite Hval in Hq. split; intros Hs.
    - assert (Hj : 10 ^ Z.of_nat j = 10 ^ (k + Z.of_nat j) * 10 ^ (- k))
        by (rewrite <- Z.pow_add_r by lia; f_equal; lia).
      apply (Z.mul_reg_r _ _ (10 ^ (- k))); [apply Z.pow_nonzero; lia|].
      rewrite <- Hq, Hj. ring.
    - assert (Hj : 10 ^ (- k) = 10 ^ (- (k + Z.of_nat j)) * 10 ^ Z.of_nat j)
        by (rewrite <- Z.pow_add_r by lia; f_equal; lia).
      apply (Z.mul_reg_r _ _ (10 ^ Z.of_nat j)); [apply Z.pow_nonzero; lia|].
      replace (V * q * 10 ^ Z.of_nat j) with (V * 10 ^ Z.of_nat j * q) by ring.
      rewrite Hq, Hj. ring. }
  destruct Hden as [[HM HE]|(Hint & HM & HE)].
  - split; [now rewrite HM|].
    intros p q Hk Hq. destruct (Hexact p q Hk Hq) as [H1 H2].
    replace E with (k + Z.of_nat j) by lia. rewrite HM.
    split; assumption.
  - assert (Hs : 0 <= k + Z.of_nat j) by lia.
    replace (k + Z.of_nat (String.length (digits_of c)) - L + 1)
      with ((k + Z.of_nat j) + 1) in HM by lia.
    rewrite Z.pow_add_r in HM by lia.
    assert (0 < 10 ^ (k + Z.of_nat j)) by (apply Z.pow_pos_nonneg; lia).
    split; [rewrite HM; nia|].
    intros p q Hk Hq. destruct (Hexact p q Hk Hq) as [H1 _]. specialize (H1 Hs).
    rewrite HE, HM. split; [lia|]. intros _. change (10 ^ (- -1)) with 10.
    rewrite <- H1. change (10 ^ 1) with 10. ring.
Qed.

(** [float] reads the text of a decimal that is a binary64 number as
    that number. *)
Lemma decimal_text_reads (s : bool) (c k : Z) (m : positive) (e p q : Z) :
  bounded F64.prec F64.emax m e = true ->
  fraction m e = (p, q) ->
  0 < c -> k <= 0 -> c * q = p * 10 ^ (- k) ->
  reads_as (decimal_text s c k) (S754_finite s m e) = true.
Proof.
  intros Hb Hfr Hc Hk Hq.
  destruct (decimal_text_literal s c k Hc) as (ip & fp & x & -> & Hjson & HM & Hden).
  destruct (Hden p q Hk Hq) as [H1 H2].
  unfold reads_as. rewrite (float_of_literal s ip fp x (proj1 Hjson)).
  rewrite (of_decimal_exact s _ _ m e p q Hb Hfr HM H1 H2).
  cbn [FloatRepr.same_float]. now rewrite Bool.eqb_reflx, Pos.eqb_refl, Z.eqb_refl.
Qed.

End DecimalTexts.

(** ** The shortest text reads back *)

Section ShortestText.
Import Json JsonSpec PyNum FloatRepr LiteralSpec.
Local Open Scope Z_scope.

Lemma scaled_nonpos (p q k : Z) : k <= 0 -> scaled p q k = (p * 10 ^ (- k), q).
Proof.
  intros Hk. destruct k as [|k|k]; try lia; cbn [scaled Z.opp].
  - f_equal; cbn; lia.
  - now rewrite Pos2Z.inj_pow.
Qed.

(** With [exact_digits] digits the decimal is the float itself. *)
Lemma exact_quotient (m : positive) (e p q d : Z) :
  fraction m e = (p, q) ->
  d - exact_digits e d <= 0
  /\ 0 < q
  /\ exists c, 0 < c /\ p * 10 ^ (- (d - exact_digits e d)) = c * q.
Proof.
  intros Hfr. destruct (fraction_cases m e p q Hfr) as [Fpos Fneg].
  set (k := d - exact_digits e d).
  assert (Hk : k <= 0 /\ k <= e) by (unfold k, exact_digits; lia).
  destruct Hk as [Hk0 Hke]. split; [exact Hk0|].
  assert (H10 : 0 < 10 ^ (- k)) by (apply Z.pow_pos_nonneg; lia).
  destruct (Z.le_gt_cases 0 e) as [He|He].
  - destruct (Fpos He) as [-> ->]. split; [lia|].
    assert (0 < 2 ^ e) by (apply Z.pow_pos_nonneg; lia).
    exists (Zpos m * 2 ^ e * 10 ^ (- k)). split; [|lia].
    apply Z.mul_pos_pos; [apply Z.mul_pos_pos|]; lia.
  - destruct (Fneg He) as [-> ->].
    assert (H2 : 0 < 2 ^ (- e)) by (apply Z.pow_pos_nonneg; lia).
    assert (H5 : 0 < 5 ^ (- e)) by (apply Z.pow_pos_nonneg; lia).
    assert (H10' : 0 < 10 ^ (e - k)) by (apply Z.pow_pos_nonneg; lia).
    split; [exact H2|].
    exists (Zpos m * 5 ^ (- e) * 10 ^ (e - k)). split.
    + apply Z.mul_pos_pos; [apply Z.mul_pos_pos|]; lia.
    + replace (- k) with (- e + (e - k)) by lia.
      rewrite Z.pow_add_r by lia.
      change 10 with (2 * 5) at 1. rewrite Z.pow_mul_l. ring.
Qed.

(** A decimal found by [candidate] is positive and reads back. *)
Lemma candidate_some (x : spec_float) (s : bool) (p q d n : Z) (text : string) :
  candidate x s p q d n = Some text ->
  exists c, 0 < c /\ text = decimal_text s c (d - n) /\ reads_as text x = true.
Proof.
  unfold candidate. destruct (scaled p q (d - n)) as [num den]. cbv zeta.
  set (lo := num / den).
  destruct ((0 <? lo) && reads_as (decimal_text s lo (d - n)) x) eqn:Elo;
    destruct ((0 <? lo + 1) && reads_as (decimal_text s (lo + 1) (d - n)) x) eqn:Ehi;
    cbn [andb];
    try apply andb_prop in Elo as [Elo1 Elo2]; try apply andb_prop in Ehi as [Ehi1 Ehi2];
    try apply Z.ltb_lt in Elo1; try apply Z.ltb_lt in Ehi1;
    repeat match goal with
           | |- context [if ?b then _ else _] => destruct b
           end;
    intros H; try discriminate H; injection H as <-;
    solve [ exists lo; auto | exists (lo + 1); auto ].
Qed.

(** The lower decimal is found when it is positive and reads back. *)
Lemma candidate_found (x : spec_float) (s : bool) (p q d n num den : Z) :
  scaled p q (d - n) = (num, den) ->
  0 < num / den ->
  reads_as (decimal_text s (num / den) (d - n)) x = true ->
  candidate x s p q d n <> None.
Proof.
  intros Hsc Hlo Hread. unfold candidate. rewrite Hsc. cbv zeta.
  apply Z.ltb_lt in Hlo. rewrite Hlo, Hread. cbn [andb].
  repeat match goal with
         | |- context [if ?b then _ else _] => destruct b
         end; discriminate.
Qed.

(** The search returns a decimal that reads back when one of its attempts
    finds one. *)
Lemma shortest_found (x : spec_float) (s : bool) (p q d : Z) (tries : nat) :
  forall n : Z,
    (exists j : nat, (j < tries)%nat /\ candidate x s p q d (n + Z.of_nat j) <> None) ->
    exists c k, 0 < c /\ shortest x s p q d n tries = decimal_text s c k
                /\ reads_as (shortest x s p q d n tries) x = true.
Proof.
  induction tries as [|t IH]; intros n [j [Hj Hc]]; [lia|].
  cbn [shortest]. destruct (candidate x s p q d n) as [text|] eqn:E.
  - destruct (candidate_some _ _ _ _ _ _ _ E) as (c & Hc0 & Ht & Hr).
    exists c, (d - n). now rewrite <- Ht.
  - apply IH. destruct j as [|j].
    + exfalso. apply Hc. now rewrite Z.add_0_r.
    + exists j. split; [lia|].
      now replace (n + 1 + Z.of_nat j) with (n + Z.of_nat (S j)) by lia.
Qed.

(** The text of a finite float is the text of a positive decimal, and
    [float] reads it back as the float. *)
Lemma repr_reads_back (s : bool) (m : positive) (e : Z) :
  bounded F64.prec F64.emax m e = true ->
  exists c k,
    0 < c
    /\ repr (S754_finite s m e) = decimal_text s c k
    /\ PyNum.float (repr (S754_finite s m e)) = Ok (S754_finite s m e).
Proof.
  intros Hb. cbn [repr]. destruct (fraction m e) as [p q] eqn:Hfr.
  set (d := decimal_point p q).
  destruct (exact_quotient m e p q d Hfr) as (Hk & Hq & c0 & Hc0 & Hex).
  assert (Hn : 1 <= exact_digits e d) by (unfold exact_digits; lia).
  destruct (shortest_found (S754_finite s m e) s p q d
              (Z.to_nat (exact_digits e d)) 1) as (c & k & Hc & Htext & Hread).
  { exists (Z.to_nat (exact_digits e d) - 1)%nat. split; [lia|].
    replace (1 + Z.of_nat (Z.to_nat (exact_digits e d) - 1)) with (exact_digits e d)
      by lia.
    apply (candidate_found _ _ _ _ _ _ _ _ (scaled_nonpos p q _ Hk)).
    - rewrite Hex, Z.div_mul by lia. exact Hc0.
    - rewrite Hex, Z.div_mul by lia.
      apply (decimal_text_reads s c0 _ m e p q Hb Hfr Hc0 Hk). lia. }
  exists c, k. split; [exact Hc|]. split; [exact Htext|].
  unfold reads_as in Hread.
  destruct (PyNum.float (shortest (S754_finite s m e) s p q d 1
                           (Z.to_nat (exact_digits e d)))) as [y|] eqn:Ey;
    [|discriminate Hread].
  destruct y as [| | |sy my ey]; try discriminate Hread.
  cbn [FloatRepr.same_float] in Hread.
  apply andb_prop in Hread as [Hread He']. apply andb_prop in Hread as [Hs' Hm'].
  apply Bool.eqb_prop in Hs'. apply Pos.eqb_eq in Hm'. apply Z.eqb_eq in He'.
  now subst.
Qed.

(** A binary64 number that is finite has a JSON text that reads back as
    the number. *)
Lemma float_representable_finite (f : F64.float) :
  valid_binary F64.prec F64.emax f = true -> F64.is_finite f = true ->
  float_representable f = true.
Proof.
  intros Hv Hf. destruct f as [s|s| |s m e]; try discriminate Hf.
  - now destruct s.
  - cbn [valid_binary] in Hv.
    destruct (repr_reads_back s m e Hv) as (c & k & Hc & Htext & Hread).
    unfold float_representable. cbn [floatstr]. rewrite Htext in Hread |- *.
    destruct (decimal_text_literal s c k Hc) as (ip & fp & x & Hlit & Hjson & _).
    rewrite Hlit in Hread |- *.
    rewrite (match_number_literal s ip fp x Hjson).
    rewrite (float_of_literal s ip fp x (proj1 Hjson)) in Hread.
    injection Hread as ->.
    cbn [JsonSpec.same_float]. now rewrite Bool.eqb_reflx, Pos.eqb_refl, Z.eqb_refl.
Qed.

End ShortestText.

(** ** The catalogue round trip *)

Section CatalogueReload.
Import Json JsonSpec ShopManualMethods.

(** A value that JSON holds is representable: each of its floats has a
    text that reads back as the float. *)
Lemma json_value_representable (v : value) :
  json_value v = true -> representable v = true.
Proof.
  induction v as [|b|n|f|s|l IHl|d IHd] using value_induction;
    cbn [json_value representable]; try reflexivity.
  - unfold json_float. intros H. apply andb_prop in H as [Hv Hf].
    now apply float_representable_finite.
  - induction IHl as [|v l Hv _ IH]; cbn [forallb]; [reflexivity|].
    intros H. apply andb_prop in H as [H1 H2]. now rewrite (Hv H1), (IH H2).
  - intros H. apply andb_prop in H as [Hkeys H]. rewrite Hkeys. cbn [andb].
    clear Hkeys. induction IHd as [|kv d Hv _ IH]; cbn [forallb]; [reflexivity|].
    apply andb_prop in H as [H1 H2]. now rewrite (Hv H1), (IH H2).
Qed.

Lemma json_entries_well_formed (es : list dict) :
  forallb json_entry es = true -> forallb well_formed es = true.
Proof.
  induction es as [|e es IH]; cbn [forallb]; [reflexivity|].
  intros H. apply andb_prop in H as [He Hes].
  rewrite (IH Hes). unfold well_formed.
  now rewrite (json_value_representable (VDict e) He).
Qed.

(** C7. For a catalogue whose entries are values JSON holds (their floats
    are finite binary64 numbers, the keys of each dict are distinct),
    loading the text [to_json] gives it, into any catalogue, yields a
    catalogue with exactly the entries of the original, in the same order
    and with the same fields. *)
Theorem load_json_to_json (es : list dict) (sm : ShopManual) :
  forallb json_entry es = true ->
  load_json (to_json (catalogue es)) sm = Some (Ok tt, catalogue es).
Proof.
  intros Hes. unfold load_json, to_json.
  rewrite loads_dumps
    by now apply catalogue_representable, json_entries_well_formed.
  reflexivity.
Qed.

End CatalogueReload.

Lemma load_json_to_json_witness :
  ShopManualMethods.load_json
    (ShopManualMethods.to_json (catalogue CatalogueSpec.example_entries))
    ShopManualMethods.init
  = Some (Ok tt, catalogue CatalogueSpec.example_entries).
Proof.
  apply (load_json_to_json CatalogueSpec.example_entries ShopManualMethods.init).
  vm_compute. reflexivity.
Defined.

(** ** The entries the audits produce are well formed *)

Section AuditedEntries.
Import JsonSpec CatalogueSpec QuantumSpec ScoreSpec.

Lemma quantum_entry_well_formed (pdb_id part_id label : string) (score : F64.float) :
  score = q5 \/ score = q7 \/ score = q9 \/ score = q11 ->
  well_formed (quantum_entry pdb_id part_id label score) = true.
Proof.
  intros [ -> | [ -> | [ -> | -> ] ] ]; vm_compute; reflexivity.
Qed.

Lemma get_value_representable t key : representable (get_value t key) = true.
Proof. unfold get_value. now destruct (dict_lookup t key). Qed.

Lemma get_default_representable t key default :
  representable (get_default t key default) = true.
Proof. unfold get_default. now destruct (dict_lookup t key). Qed.

Lemma structural_entry_well_formed (t : target) (part_id pdb_id : string)
  (parsed : ParsedStructure) :
  forallb atom_representable (atoms parsed) = true ->
  well_formed (structural_entry t (VStr part_id) pdb_id hundred parsed) = true.
Proof.
  intros Hatoms. unfold well_formed, structural_entry.
  cbn [representable map fst forallb snd].
  rewrite !get_value_representable, !get_default_representable.
  change (distinct _) with true.
  change (float_representable hundred) with true.
  cbn [andb]. rewrite andb_true_r.
  induction (atoms parsed) as [|a l IH]; [reflexivity|].
  cbn [forallb map] in *. apply andb_prop in Hatoms as [Ha Hl].
  rewrite (IH Hl), andb_true_r.
  unfold atom_representable in Ha.
  apply andb_prop in Ha as [Ha Hz]. apply andb_prop in Ha as [Hx Hy].
  unfold atom_value. cbn [representable map fst forallb snd].
  rewrite Hx, Hy, Hz. reflexivity.
Qed.

End AuditedEntries.

(** ** The runner *)

Section Runner.
Import ShopManualMethods AdaptiveAutoAuditor CatalogueSpec.
Variable requests_get : string -> Response.

(** With a batch size of one at least, [auto_run] ends within as many
    rounds as there are targets. *)
Lemma auto_run_terminates (fuel : nat) : forall (self : Auditor) (sm : ShopManual),
  (1 <= batch_size self)%Z ->
  List.length (targets self) <= fuel ->
  exists outcome, auto_run requests_get fuel self sm = Some outcome.
Proof.
  induction fuel as [|fuel IH]; intros self sm Hsize Hlen;
    destruct (targets self) as [|t0 ts] eqn:Hts; cbn [auto_run]; rewrite Hts.
  - eexists; reflexivity.
  - cbn in Hlen. lia.
  - eexists; reflexivity.
  - set (n := Z.to_nat (Z.min (batch_size self) (Z.of_nat (List.length (t0 :: ts))))).
    destruct (run_batch requests_get (firstn n (t0 :: ts)) sm) as [[results|err] sm'].
    + apply IH; cbn [batch_size targets]; [exact Hsize|].
      rewrite List.length_skipn. cbn [List.length] in *. lia.
    + eexists; reflexivity.
Qed.

(** With a batch size of zero or less and a target to audit, [auto_run]
    never ends. *)
Lemma auto_run_diverges (fuel : nat) : forall (self : Auditor) (sm : ShopManual),
  (batch_size self <= 0)%Z -> targets self <> [] ->
  auto_run requests_get fuel self sm = None.
Proof.
  induction fuel as [|fuel IH]; intros self sm Hsize Hts;
    destruct (targets self) as [|t0 ts] eqn:Ets; try congruence; cbn [auto_run];
    rewrite Ets; [reflexivity|].
  replace (Z.to_nat (Z.min (batch_size self) (Z.of_nat (List.length (t0 :: ts)))))
    with 0 by lia.
  cbn [firstn skipn run_batch run_batch_from ret].
  apply IH; cbn [batch_size targets]; [exact Hsize|congruence].
Qed.

End Runner.

(** The response of [fetch_pdb] is the lines of the body joined without a
    separator: when [iter_lines] yields the header line and the atom line
    of the fixture one after the other, the parser receives them as one
    line, a header line, and reads no atom. *)
Example fetch_pdb_joins_lines :
  DataFetcher.fetch_pdb QuantumSpec.two_line_client "4DYF"
  = Ok (ParseSpec.header_line ++ ParseSpec.atom_line)%string
  /\ Py.splitlines (ParseSpec.header_line ++ ParseSpec.atom_line)
     = [(ParseSpec.header_line ++ ParseSpec.atom_line)%string]
  /\ ParseSpec.atoms_alone (ParseSpec.header_line ++ ParseSpec.atom_line) = [].
Proof. repeat split. Qed.

(** The full audit on the stand-in client: the three targets in their
    order, then the quantum candidate. *)
Example run_full_audit_order :
  exists text entries,
    run_full_audit QuantumSpec.fixture_client 3 = Some (Ok text)
    /\ Json.loads text = Some (Ok (VList (map VDict entries)))
    /\ map (fun e => dict_lookup e "PartID") entries
       = [Some (VStr "MAG-001"); Some (VStr "BONE-001"); Some (VStr "DIA-001");
          Some (VStr "CRY-001")].
Proof.
  eexists _, _. split; [vm_compute; reflexivity|].
  split.
  - match goal with
    | |- Json.loads ?t = _ =>
        let r := eval vm_compute in (Json.loads t) in
        match r with
        | Some (Ok (VList [VDict ?a; VDict ?b; VDict ?c; VDict ?d])) =>
            instantiate (1 := [a; b; c; d]); vm_compute; reflexivity
        end
    end.
  - vm_compute. reflexivity.
Qed.

(** A failed fetch ends the run: nothing is written. *)
Example run_full_audit_fetch_failure :
  run_full_audit QuantumSpec.missing_client 3
  = Some (Raise (Exception "PDB fetch failed for 4DYF: 404")).
Proof. vm_compute. reflexivity. Qed.

(** * Further properties *)

(** ** What the audits read from a response *)

Section FetchedText.
Import Py DataFetcher ParseSpec PipelineSpec.
Variable requests_get : string -> Response.

Lemma join_empty_cons (first : string) (rest : list string) :
  join_empty (first :: rest) = (first ++ join_empty rest)%string.
Proof.
  unfold join_empty. destruct rest as [|l rest]; cbn [concat].
  - now rewrite append_nil_r.
  - reflexivity.
Qed.

Lemma has_break_join (lines : list string) :
  Forall (fun l => has_break l = false) lines -> has_break (join_empty lines) = false.
Proof.
  induction 1 as [|l lines Hl _ IH]; [reflexivity|].
  now rewrite join_empty_cons, has_break_app, Hl, IH.
Qed.

Lemma startswith_app (p s rest : string) :
  startswith s p = true -> startswith (s ++ rest) p = true.
Proof.
  revert s. induction p as [|a p IH]; intros s.
  - intros _. now destruct (s ++ rest)%string.
  - destruct s as [|c s]; cbn [startswith append]; [discriminate|].
    intros H. apply andb_prop in H as [-> H]. now rewrite IH.
Qed.

Lemma fetch_pdb_ok (pdb_id text : string) :
  fetch_pdb requests_get pdb_id = Ok text ->
  status_code (requests_get (pdb_url pdb_id)) = 200%Z
  /\ text = join_empty (iter_lines (requests_get (pdb_url pdb_id))).
Proof.
  unfold fetch_pdb. fold (pdb_url pdb_id).
  destruct (status_code (requests_get (pdb_url pdb_id)) =? 200)%Z eqn:E; [|discriminate].
  intros [= <-]. split; [now apply Z.eqb_eq|reflexivity].
Qed.

Lemma one_line_records (text : string) :
  has_break text = false ->
  splitlines text = line_list text
  /\ records_of (splitlines text) = record_of_line text.
Proof.
  intros Hb. unfold splitlines. rewrite splitlines_from_whole by exact Hb.
  cbn [append]. split; [reflexivity|].
  destruct text; cbn; [reflexivity|apply app_nil_r].
Qed.

(** X1. [fetch_pdb] joins the lines of the response without a separator:
    when no line the response yields holds a line boundary, the text it
    returns is a single line, so that parsing it gives one atom record at
    most, and none when the first line of the response starts with
    HEADER. *)
Theorem fetched_text_is_one_line (pdb_id text : string) :
  fetch_pdb requests_get pdb_id = Ok text ->
  Forall (fun l => has_break l = false) (iter_lines (requests_get (pdb_url pdb_id))) ->
  splitlines text = line_list text
  /\ List.length (atoms_alone text) <= 1
  /\ (forall first rest,
        iter_lines (requests_get (pdb_url pdb_id)) = first :: rest ->
        startswith first "HEADER" = true ->
        atoms_alone text = []).
Proof.
  intros Hfetch Hlines.
  destruct (fetch_pdb_ok pdb_id text Hfetch) as [_ Htext].
  assert (Hb : has_break text = false) by (subst text; now apply has_break_join).
  split; [now apply one_line_records|].
  rewrite atoms_alone_line by exact Hb.
  split.
  - unfold record_of_line. destruct (is_atom_line text); [|cbn; lia].
    destruct (atom_of_line text); cbn; lia.
  - intros first rest Hfirst Hh. unfold record_of_line.
    rewrite header_line_not_atom; [reflexivity|].
    rewrite Htext, Hfirst, join_empty_cons. now apply startswith_app.
Qed.

End FetchedText.

Lemma fetched_text_is_one_line_witness :
  Py.splitlines (ParseSpec.header_line ++ ParseSpec.atom_line)
  = ParseSpec.line_list (ParseSpec.header_line ++ ParseSpec.atom_line)
  /\ List.length (ParseSpec.atoms_alone (ParseSpec.header_line ++ ParseSpec.atom_line)) <= 1
  /\ (forall first rest,
        iter_lines (QuantumSpec.two_line_client (PipelineSpec.pdb_url "4DYF")) = first :: rest ->
        Py.startswith first "HEADER" = true ->
        ParseSpec.atoms_alone (ParseSpec.header_line ++ ParseSpec.atom_line) = []).
Proof.
  apply (fetched_text_is_one_line QuantumSpec.two_line_client "4DYF").
  - reflexivity.
  - repeat constructor.
Defined.

Section JoinedBody.
Import Py DataFetcher ParseSpec PipelineSpec ShopManualMethods.
Variable requests_get : string -> Response.

Lemma fetch_pdb_status (pdb_id : string) :
  status_code (requests_get (pdb_url pdb_id)) = 200%Z ->
  fetch_pdb requests_get pdb_id
  = Ok (join_empty (iter_lines (requests_get (pdb_url pdb_id)))).
Proof.
  intros Hs. unfold fetch_pdb. fold (pdb_url pdb_id). now rewrite Hs.
Qed.

Lemma joined_header_no_atoms (first : string) (rest : list string) :
  startswith first "HEADER" = true ->
  Forall (fun l => has_break l = false) (first :: rest) ->
  exists d, parse_pdb_to_json (join_empty (first :: rest)) = Ok d /\ atoms d = [].
Proof.
  intros Hh Hb.
  destruct (parse_atoms (join_empty (first :: rest))) as [d [Hd Ha]].
  exists d. split; [exact Hd|].
  rewrite Ha.
  rewrite (proj2 (one_line_records _ (has_break_join _ Hb))).
  unfold record_of_line. rewrite header_line_not_atom; [reflexivity|].
  rewrite join_empty_cons. now apply startswith_app.
Qed.

(** X2. When the response for a structure has status 200, its first line
    starts with HEADER and none of its lines holds a line boundary, as for
    the body of a PDB file, the audits see no atom: the quantum audit
    appends an entry with the lowest quantum score, the float Python
    writes [41.66666666666667], and the structural audit an entry whose
    Atoms list is empty. *)
Theorem audits_read_no_atom_from_joined_lines
  (pdb_id first : string) (rest : list string) (es : list dict) :
  status_code (requests_get (pdb_url pdb_id)) = 200%Z ->
  iter_lines (requests_get (pdb_url pdb_id)) = first :: rest ->
  startswith first "HEADER" = true ->
  Forall (fun l => has_break l = false) (first :: rest) ->
  (forall part_id label,
     QuantumAuditor.audit_quantum_candidate requests_get pdb_id part_id label (catalogue es)
     = (Ok (QuantumSpec.quantum_entry pdb_id part_id label ScoreSpec.q5),
        catalogue (es ++ [QuantumSpec.quantum_entry pdb_id part_id label ScoreSpec.q5])))
  /\ (forall t part_id,
        dict_lookup t "PDB" = Some pdb_id ->
        dict_lookup t "PartID" = Some part_id ->
        exists entry,
          AdaptiveAutoAuditor.audit_structure requests_get t (catalogue es)
          = (Ok entry, catalogue (es ++ [entry]))
          /\ dict_lookup entry "PartID" = Some (VStr part_id)
          /\ dict_lookup entry "Atoms" = Some (VList [])).
Proof.
  intros Hs Hl Hh Hb.
  pose proof (fetch_pdb_status pdb_id Hs) as Hfetch. rewrite Hl in Hfetch.
  destruct (joined_header_no_atoms first rest Hh Hb) as (d & Hd & Ha).
  split.
  - intros part_id label.
    unfold QuantumAuditor.audit_quantum_candidate, mbind at 1, lift at 1.
    rewrite Hfetch. unfold mbind at 1, lift at 1. rewrite Hd.
    unfold QuantumAuditor.identify_quantum_features. rewrite Ha.
    unfold mbind at 1, lift at 1.
    change (Scorer.compute_qgeps _ _ _ _) with (Ok ScoreSpec.q5).
    unfold mbind. now rewrite add_entry_catalogue.
  - intros t part_id Hpdb Hid.
    rewrite audit_structure_audited.
    unfold CatalogueSpec.audited_entry, get_item. rewrite Hpdb, Hid.
    cbn [format_opt]. rewrite Hfetch. cbn [bind]. rewrite Hd.
    change (Scorer.compute_geps 3 3 3 3 3 3 3 3) with (Ok ScoreSpec.hundred).
    cbn [bind]. eexists. split; [reflexivity|].
    split; [reflexivity|]. cbn. now rewrite Ha.
Qed.

End JoinedBody.

Lemma audits_read_no_atom_from_joined_lines_witness :
  (forall part_id label,
     QuantumAuditor.audit_quantum_candidate QuantumSpec.two_line_client
       "4DYF" part_id label (catalogue [])
     = (Ok (QuantumSpec.quantum_entry "4DYF" part_id label ScoreSpec.q5),
        catalogue ([] ++ [QuantumSpec.quantum_entry "4DYF" part_id label ScoreSpec.q5])))
  /\ (forall t part_id,
        dict_lookup t "PDB" = Some "4DYF" ->
        dict_lookup t "PartID" = Some part_id ->
        exists entry,
          AdaptiveAutoAuditor.audit_structure QuantumSpec.two_line_client t (catalogue [])
          = (Ok entry, catalogue ([] ++ [entry]))
          /\ dict_lookup entry "PartID" = Some (VStr part_id)
          /\ dict_lookup entry "Atoms" = Some (VList [])).
Proof.
  apply (audits_read_no_atom_from_joined_lines QuantumSpec.two_line_client "4DYF"
           ParseSpec.header_line [ParseSpec.atom_line] []).
  - reflexivity.
  - reflexivity.
  - reflexivity.
  - repeat constructor.
Defined.

(** ** More on the parser *)

Section StripFacts.
Import Py PipelineSpec.
Variable sp : ascii -> bool.

Lemma lstrip_of_length (s : string) :
  String.length (lstrip_of sp s) <= String.length s.
Proof.
  induction s as [|c r IH]; cbn [lstrip_of String.length]; [lia|].
  destruct (sp c); cbn [String.length]; lia.
Qed.

Lemma rstrip_of_length (s : string) :
  String.length (rstrip_of sp s) <= String.length s.
Proof.
  induction s as [|c r IH]; cbn [rstrip_of String.length]; [lia|].
  destruct (rstrip_of sp r); [destruct (sp c)|]; cbn [String.length] in *; lia.
Qed.

Lemma lstrip_of_head (s : string) : head_kept sp (lstrip_of sp s).
Proof.
  induction s as [|c r IH]; cbn [lstrip_of]; [exact I|].
  destruct (sp c) eqn:E; [exact IH|exact E].
Qed.

Lemma lstrip_of_kept (s : string) : head_kept sp s -> lstrip_of sp s = s.
Proof. destruct s as [|c r]; cbn; [reflexivity|]. now intros ->. Qed.

Lemma rstrip_of_head (s : string) : head_kept sp s -> head_kept sp (rstrip_of sp s).
Proof.
  destruct s as [|c r]; cbn [rstrip_of head_kept]; [exact id|].
  intros Hc. destruct (rstrip_of sp r); [rewrite Hc|]; exact Hc.
Qed.

Lemma rstrip_of_twice (s : string) : rstrip_of sp (rstrip_of sp s) = rstrip_of sp s.
Proof.
  induction s as [|c r IH]; [reflexivity|].
  cbn [rstrip_of]. destruct (rstrip_of sp r) as [|d r'] eqn:Er.
  - destruct (sp c) eqn:Ec; [reflexivity|]. cbn [rstrip_of]. now rewrite Ec.
  - cbn [rstrip_of] in *. now rewrite IH.
Qed.

Lemma strip_of_twice (s : string) :
  rstrip_of sp (lstrip_of sp (rstrip_of sp (lstrip_of sp s)))
  = rstrip_of sp (lstrip_of sp s).
Proof.
  rewrite (lstrip_of_kept (rstrip_of sp (lstrip_of sp s)))
    by apply rstrip_of_head, lstrip_of_head.
  apply rstrip_of_twice.
Qed.

End StripFacts.

Section ParserShape.
Import Py DataFetcher ParseSpec PipelineSpec.

Lemma strip_twice (s : string) : strip (strip s) = strip s.
Proof. apply strip_of_twice. Qed.

Lemma strip_length (s : string) : String.length (strip s) <= String.length s.
Proof.
  unfold strip.
  pose proof (rstrip_of_length isspace (lstrip_of isspace s)).
  pose proof (lstrip_of_length isspace s). lia.
Qed.

Lemma substring_length_le (s : string) : forall n m,
  String.length (substring n m s) <= m.
Proof.
  induction s as [|c r IH]; intros n m.
  - destruct n, m; cbn; lia.
  - destruct n as [|n]; [destruct m as [|m]|]; cbn [substring String.length].
    + lia.
    + specialize (IH 0 m). lia.
    + apply IH.
Qed.

Lemma slice_length (i j : nat) (s : string) : String.length (slice i j s) <= j - i.
Proof. apply substring_length_le. Qed.

Lemma dict_set_header (found : option string) (v : string) :
  dict_set (match found with
            | Some line => [("classification", strip (slice 10 50 line))]
            | None => []
            end) "classification" v
  = [("classification", v)].
Proof. now destruct found. Qed.

Lemma parse_lines_header (lines : list string) : forall data found,
  header data = match found with
                | Some line => [("classification", strip (slice 10 50 line))]
                | None => []
                end ->
  exists d,
    parse_lines data lines = Ok d
    /\ header d =
       match fold_left (fun found line =>
                          if startswith line "HEADER" then Some line else found)
                       lines found with
       | Some line => [("classification", strip (slice 10 50 line))]
       | None => []
       end.
Proof.
  induction lines as [|line rest IH]; intros data found Hdata;
    cbn [parse_lines fold_left].
  - now exists data.
  - unfold parse_line. destruct (startswith line "HEADER").
    + cbn [bind]. apply IH. cbn [header]. rewrite Hdata. apply dict_set_header.
    + destruct (is_atom_line line); cbn [bind]; apply IH;
        [|exact Hdata].
      destruct (atom_of_line line); cbn; exact Hdata.
Qed.

(** X3. The header of a parsed text holds one key at most, classification:
    it is absent when no line starts with HEADER, and otherwise it is
    columns 10 to 50 of the last such line with the white space around
    them removed: a text of 40 characters at most, without white space at
    either end. *)
Theorem parse_header_of_last_line (text : string) :
  exists d,
    parse_pdb_to_json text = Ok d
    /\ header d = header_of (splitlines text)
    /\ (forall key, key <> "classification" -> dict_lookup (header d) key = None)
    /\ (forall c, dict_lookup (header d) "classification" = Some c ->
                  String.length c <= 40 /\ strip c = c).
Proof.
  destruct (parse_lines_header (splitlines text) (mkParsed [] []) None eq_refl)
    as (d & Hd & Hh).
  exists d. split; [exact Hd|]. fold (last_header (splitlines text)) in Hh.
  fold (header_of (splitlines text)) in Hh.
  split; [exact Hh|]. rewrite Hh. unfold header_of.
  destruct (last_header (splitlines text)) as [line|]; split.
  - intros key Hkey. cbn [dict_lookup].
    destruct (String.eqb "classification" key) eqn:E; [|reflexivity].
    apply String.eqb_eq in E. congruence.
  - intros c. cbn. intros [= <-]. split; [|apply strip_twice].
    pose proof (strip_length (slice 10 50 line)).
    pose proof (slice_length 10 50 line). lia.
  - reflexivity.
  - discriminate.
Qed.

Lemma digit_value_bound (c : ascii) :
  isdigit c = true -> (0 <= digit_value c <= 9)%Z.
Proof.
  unfold isdigit, digit_value. intros H. apply andb_prop in H as [H1 H2].
  apply Nat.leb_le in H1, H2. lia.
Qed.

Lemma int_digits_bound (s : string) : forall prev acc n,
  (0 <= acc)%Z ->
  PyNum.int_digits prev acc s = Some n ->
  (acc <= n < (acc + 1) * 10 ^ Z.of_nat (String.length s))%Z.
Proof.
  induction s as [|c r IH]; intros prev acc n Hacc; cbn [PyNum.int_digits String.length].
  - destruct prev; [|discriminate]. intros [= <-]. cbn. lia.
  - rewrite Nat2Z.inj_succ, Z.pow_succ_r by lia.
    pose proof (Z.pow_pos_nonneg 10 (Z.of_nat (String.length r))) as Hpow.
    destruct (isdigit c) eqn:Hc.
    + pose proof (digit_value_bound c Hc) as Hd. intros H.
      apply IH in H; [|lia]. nia.
    + destruct (Ascii.eqb c PyNum.underscore); [|discriminate].
      destruct prev; [|discriminate]. intros H.
      apply IH in H; [|lia]. nia.
Qed.

Lemma trim_length (s : string) : String.length (PyNum.trim s) <= String.length s.
Proof.
  unfold PyNum.trim.
  pose proof (rstrip_of_length PyNum.isspace_num (lstrip_of PyNum.isspace_num s)).
  pose proof (lstrip_of_length PyNum.isspace_num s). lia.
Qed.

(** The number [int] reads from a field of [k] characters has [k] digits
    at most, one of them taken by a minus sign. *)
Lemma int_field_bound (s : string) (k : nat) (n : Z) :
  PyNum.int s = Ok n -> String.length s <= S k ->
  (- 10 ^ Z.of_nat k < n < 10 ^ Z.of_nat (S k))%Z.
Proof.
  unfold PyNum.int. intros H Hlen.
  pose proof (trim_length s) as Ht.
  pose proof (Z.pow_pos_nonneg 10 (Z.of_nat k)) as Hk.
  rewrite Nat2Z.inj_succ, Z.pow_succ_r by lia.
  assert (Hmono : forall a b, a <= b -> (10 ^ Z.of_nat a <= 10 ^ Z.of_nat b)%Z)
    by (intros a b Hab; apply Z.pow_le_mono_r; lia).
  destruct (PyNum.trim s) as [|c r] eqn:Et; cbn [PyNum.split_sign] in H.
  - discriminate.
  - cbn [String.length] in Ht.
    destruct (Ascii.eqb c "-").
    + destruct (PyNum.int_digits false 0 r) as [m|] eqn:Em; [|discriminate].
      injection H as <-. apply int_digits_bound in Em; [|lia].
      pose proof (Hmono (String.length r) k). lia.
    + assert (Hall : forall body, String.length body <= S k ->
                match PyNum.int_digits false 0 body with
                | Some m => Ok m
                | None => Raise ValueError
                end = Ok n -> (- 10 ^ Z.of_nat k < n < 10 * 10 ^ Z.of_nat k)%Z).
      { intros body Hb Hn.
        destruct (PyNum.int_digits false 0 body) as [m|] eqn:Em; [|discriminate].
        injection Hn as <-. apply int_digits_bound in Em; [|lia].
        pose proof (Hmono (String.length body) (S k) Hb) as Hp.
        rewrite Nat2Z.inj_succ, Z.pow_succ_r in Hp by lia. lia. }
      destruct (Ascii.eqb c "+").
      * apply (Hall r); [lia|exact H].
      * apply (Hall (String c r)); [cbn [String.length]; lia|exact H].
Qed.

Lemma atom_of_line_shape (line : string) (a : Atom) :
  atom_of_line line = Ok a ->
  (-9999 <= serial a <= 99999)%Z
  /\ (-999 <= resSeq a <= 9999)%Z
  /\ String.length (name a) <= 4 /\ strip (name a) = name a
  /\ String.length (resName a) <= 3 /\ strip (resName a) = resName a
  /\ String.length (chainID a) = 1.
Proof.
  unfold atom_of_line.
  destruct (PyNum.int (slice 6 11 line)) as [n|] eqn:En; [|discriminate].
  cbn [bind]. destruct (index line 21) as [c|]; [|discriminate].
  cbn [bind]. destruct (PyNum.int (slice 22 26 line)) as [r|] eqn:Er; [|discriminate].
  cbn [bind]. destruct (PyNum.float (slice 30 38 line)); [|discriminate].
  cbn [bind]. destruct (PyNum.float (slice 38 46 line)); [|discriminate].
  cbn [bind]. destruct (PyNum.float (slice 46 54 line)); [|discriminate].
  cbn [bind]. intros [= <-]. cbn [serial resSeq name resName chainID].
  apply (int_field_bound _ 4) in En; [|apply (slice_length 6 11)].
  apply (int_field_bound _ 3) in Er; [|apply (slice_length 22 26)].
  pose proof (strip_length (slice 12 16 line)).
  pose proof (slice_length 12 16 line).
  pose proof (strip_length (slice 17 20 line)).
  pose proof (slice_length 17 20 line).
  rewrite !strip_twice.
  change (10 ^ Z.of_nat 4)%Z with 10000%Z in En.
  change (10 ^ Z.of_nat 5)%Z with 100000%Z in En.
  change (10 ^ Z.of_nat 3)%Z with 1000%Z in Er.
  change (10 ^ Z.of_nat 4)%Z with 10000%Z in Er.
  repeat split; cbn [String.length]; lia.
Qed.

(** X4. Every atom record of a parsed text keeps the widths of its
    columns: the serial lies between -9999 and 99999 and the residue
    number between -999 and 9999, the name has 4 characters at most and
    the residue name 3, both without white space around them, and the
    chain identifier is exactly one character. *)
Theorem parsed_atoms_keep_column_widths (text : string) (d : ParsedStructure) (a : Atom) :
  parse_pdb_to_json text = Ok d ->
  In a (atoms d) ->
  (-9999 <= serial a <= 99999)%Z
  /\ (-999 <= resSeq a <= 9999)%Z
  /\ String.length (name a) <= 4 /\ strip (name a) = name a
  /\ String.length (resName a) <= 3 /\ strip (resName a) = resName a
  /\ String.length (chainID a) = 1.
Proof.
  intros Hd Hin.
  destruct (parse_atoms text) as (d' & Hd' & Ha).
  rewrite Hd in Hd'. injection Hd' as <-.
  rewrite Ha in Hin. unfold records_of in Hin.
  apply in_flat_map in Hin as (line & _ & Hin).
  unfold record_of_line in Hin.
  destruct (is_atom_line line); [|destruct Hin].
  destruct (atom_of_line line) as [b|] eqn:Eb; [|destruct Hin].
  destruct Hin as [<-|[]]. now apply (atom_of_line_shape line).
Qed.

(** X5. A line tagged HETATM yields the record the same line tagged ATOM
    yields: the tag selects the line and no field is read from it. *)
Theorem hetatm_reads_as_atom (fields : string) :
  is_atom_line ("ATOM  " ++ fields) = true
  /\ is_atom_line ("HETATM" ++ fields) = true
  /\ atom_of_line ("HETATM" ++ fields) = atom_of_line ("ATOM  " ++ fields)
  /\ record_of_line ("HETATM" ++ fields) = record_of_line ("ATOM  " ++ fields).
Proof.
  assert (H : atom_of_line ("HETATM" ++ fields) = atom_of_line ("ATOM  " ++ fields))
    by reflexivity.
  assert (Ha : is_atom_line ("ATOM  " ++ fields) = true) by reflexivity.
  assert (Hh : is_atom_line ("HETATM" ++ fields) = true)
    by (unfold is_atom_line; cbn; now destruct fields).
  split; [exact Ha|]. split; [exact Hh|]. split; [exact H|].
  unfold record_of_line. now rewrite H, Ha, Hh.
Qed.

End ParserShape.

Lemma parsed_atoms_keep_column_widths_witness :
  (-9999 <= serial ParseSpec.fixture_atom <= 99999)%Z
  /\ (-999 <= resSeq ParseSpec.fixture_atom <= 9999)%Z
  /\ String.length (name ParseSpec.fixture_atom) <= 4
  /\ Py.strip (name ParseSpec.fixture_atom) = name ParseSpec.fixture_atom
  /\ String.length (resName ParseSpec.fixture_atom) <= 3
  /\ Py.strip (resName ParseSpec.fixture_atom) = resName ParseSpec.fixture_atom
  /\ String.length (chainID ParseSpec.fixture_atom) = 1.
Proof.
  apply (parsed_atoms_keep_column_widths ParseSpec.fixture
           (mkParsed [("classification", "MAGNETIC PROTEIN")] [ParseSpec.fixture_atom])).
  - reflexivity.
  - left. reflexivity.
Defined.

Section TerminatedLines.
Import Py DataFetcher ParseSpec PipelineSpec.

Lemma splitlines_from_line (line : string) : forall cur rest,
  has_break line = false ->
  splitlines_from cur false (line ++ rest) = splitlines_from (cur ++ line) false rest.
Proof.
  induction line as [|c r IH]; intros cur rest Hb; cbn [append].
  - now rewrite append_nil_r.
  - cbn [has_break] in Hb. apply orb_false_iff in Hb as [Hc Hr].
    cbn [splitlines_from andb]. rewrite Hc, IH by exact Hr.
    now rewrite append_assoc.
Qed.

Lemma splitlines_from_after_cr (s cur : string) :
  no_line_feed_first s -> splitlines_from cur true s = splitlines_from cur false s.
Proof.
  destruct s as [|c r]; [reflexivity|]. cbn [no_line_feed_first splitlines_from andb].
  now intros ->.
Qed.

Lemma no_break_no_line_feed (line rest : string) :
  has_break line = false -> no_line_feed_first rest ->
  no_line_feed_first (line ++ rest).
Proof.
  destruct line as [|c r]; [intros _ H; exact H|].
  cbn [has_break append no_line_feed_first]. intros Hb _.
  apply orb_false_iff in Hb as [Hc _].
  destruct (Ascii.eqb c LF) eqn:E; [|reflexivity].
  apply Ascii.eqb_eq in E. subst c. discriminate Hc.
Qed.

Lemma terminated_no_line_feed (c : ascii) (r : string) (lines : list string) :
  Ascii.eqb c LF = false ->
  Forall (fun l => has_break l = false) lines ->
  no_line_feed_first (terminated (String c r) lines).
Proof.
  intros Hc Hl. destruct Hl as [|l lines Hb _]; [exact I|].
  cbn [terminated]. apply no_break_no_line_feed; [exact Hb|exact Hc].
Qed.

Lemma splitlines_terminated (ending : string) (lines : list string) :
  is_ending ending ->
  Forall (fun l => has_break l = false) lines ->
  splitlines (terminated ending lines) = lines.
Proof.
  intros He Hl. unfold splitlines.
  induction Hl as [|l lines Hb Hl IH]; [reflexivity|].
  cbn [terminated]. rewrite splitlines_from_line by exact Hb. cbn [append].
  destruct He as [->|(c & Hc & ->)].
  - cbn. now rewrite IH.
  - cbn [append splitlines_from andb]. rewrite Hc. f_equal.
    destruct (Ascii.eqb c CR) eqn:E; [|exact IH].
    rewrite splitlines_from_after_cr; [exact IH|].
    apply terminated_no_line_feed; [|exact Hl].
    apply Ascii.eqb_eq in E. now subst c.
Qed.

(** X6. A text whose lines hold no line boundary and are each ended by a
    line feed, a carriage return and a line feed, or any one line
    boundary, is parsed line by line: its atoms are the records of these
    lines in order and its header that of the last HEADER line among
    them. *)
Theorem parse_terminated_lines (ending : string) (lines : list string) :
  is_ending ending ->
  Forall (fun l => has_break l = false) lines ->
  splitlines (terminated ending lines) = lines
  /\ exists d,
       parse_pdb_to_json (terminated ending lines) = Ok d
       /\ atoms d = records_of lines
       /\ header d = header_of lines.
Proof.
  intros He Hl. pose proof (splitlines_terminated ending lines He Hl) as Hs.
  split; [exact Hs|].
  destruct (parse_atoms (terminated ending lines)) as (d & Hd & Ha).
  destruct (parse_lines_header (splitlines (terminated ending lines))
              (mkParsed [] []) None eq_refl) as (d' & Hd' & Hh).
  unfold parse_pdb_to_json in Hd. rewrite Hd in Hd'. injection Hd' as <-.
  exists d. split; [exact Hd|]. rewrite Hs in Ha, Hh. split; [exact Ha|exact Hh].
Qed.

End TerminatedLines.

Lemma parse_terminated_lines_witness :
  Py.splitlines (PipelineSpec.terminated PipelineSpec.CRLF
                   [ParseSpec.header_line; ParseSpec.atom_line])
  = [ParseSpec.header_line; ParseSpec.atom_line]
  /\ exists d,
       DataFetcher.parse_pdb_to_json
         (PipelineSpec.terminated PipelineSpec.CRLF
            [ParseSpec.header_line; ParseSpec.atom_line]) = Ok d
       /\ atoms d = ParseSpec.records_of [ParseSpec.header_line; ParseSpec.atom_line]
       /\ header d = PipelineSpec.header_of [ParseSpec.header_line; ParseSpec.atom_line].
Proof.
  apply (parse_terminated_lines PipelineSpec.CRLF
           [ParseSpec.header_line; ParseSpec.atom_line]).
  - left. reflexivity.
  - repeat constructor.
Defined.

(** ** More on the scores *)

Section ScoreOrder.
Import Scorer ScoreSpec PipelineSpec.

Lemma in_range (n : nat) : forall lo x,
  (lo <= x < lo + Z.of_nat n)%Z -> In x (range lo n).
Proof.
  induction n as [|n IH]; intros lo x Hx; [lia|].
  cbn [range]. destruct (Z.eq_dec lo x) as [->|Hne]; [now left|].
  right. apply IH. lia.
Qed.

Lemma increasing_range (f : Z -> result F64.float) (n : nat) : forall lo s t,
  increasing (map f (range lo n)) = true ->
  (lo <= s)%Z -> (s < t)%Z -> (t < lo + Z.of_nat n)%Z ->
  score_lt (f s) (f t) = true.
Proof.
  induction n as [|n IH]; intros lo s t Hinc Hlo Hst Ht; [lia|].
  cbn [range map increasing] in Hinc. apply andb_prop in Hinc as [Hfirst Hrest].
  destruct (Z.eq_dec lo s) as [->|Hne].
  - rewrite forallb_forall in Hfirst. apply Hfirst.
    apply in_map. apply in_range. lia.
  - apply (IH (lo + 1)%Z); [exact Hrest|lia|lia|lia].
Qed.

Lemma geps_increasing :
  increasing (map geps_of_sum (range (-1000) 2001)) = true.
Proof. vm_compute. reflexivity. Qed.

Lemma qgeps_increasing :
  increasing (map qgeps_of_sum (range (-1000) 2001)) = true.
Proof. vm_compute. reflexivity. Qed.

Lemma score_lt_irrefl (a b : result F64.float) (x : F64.float) :
  score_lt a b = true -> a = Ok x -> b = Ok x -> F64.ltb x x = true.
Proof. intros H -> ->. exact H. Qed.

(** X7. On sums from -1000 to 1000 both scores grow strictly with the sum
    of the inputs: inputs with a larger sum give a larger score. So the
    general score is 100.0 exactly when the sum is 24, and the quantum
    score exactly when the sum is 12. *)
Theorem scores_grow_with_the_sum (a b c d e f g h a' b' c' d' e' f' g' h' : Z) :
  ((-1000 <= a + b + c + d + e + f + g + h)%Z ->
   (a + b + c + d + e + f + g + h < a' + b' + c' + d' + e' + f' + g' + h')%Z ->
   (a' + b' + c' + d' + e' + f' + g' + h' <= 1000)%Z ->
   score_lt (compute_geps a b c d e f g h) (compute_geps a' b' c' d' e' f' g' h') = true)
  /\ ((-1000 <= a + b + c + d)%Z ->
      (a + b + c + d < a' + b' + c' + d')%Z ->
      (a' + b' + c' + d' <= 1000)%Z ->
      score_lt (compute_qgeps a b c d) (compute_qgeps a' b' c' d') = true)
  /\ ((-1000 <= a + b + c + d + e + f + g + h <= 1000)%Z ->
      (compute_geps a b c d e f g h = Ok hundred
       <-> (a + b + c + d + e + f + g + h = 24)%Z))
  /\ ((-1000 <= a + b + c + d <= 1000)%Z ->
      (compute_qgeps a b c d = Ok hundred <-> (a + b + c + d = 12)%Z)).
Proof.
  rewrite !compute_geps_sum, !compute_qgeps_sum.
  fold (geps_of_sum (a + b + c + d + e + f + g + h)).
  fold (geps_of_sum (a' + b' + c' + d' + e' + f' + g' + h')).
  fold (qgeps_of_sum (a + b + c + d)). fold (qgeps_of_sum (a' + b' + c' + d')).
  pose proof (increasing_range geps_of_sum 2001 (-1000) ) as Hg.
  pose proof (increasing_range qgeps_of_sum 2001 (-1000)) as Hq.
  split; [|split; [|split]].
  - intros H1 H2 H3. apply Hg; [exact geps_increasing|lia|lia|lia].
  - intros H1 H2 H3. apply Hq; [exact qgeps_increasing|lia|lia|lia].
  - intros Hs. split.
    + intros Heq.
      destruct (Z.lt_trichotomy (a + b + c + d + e + f + g + h) 24) as [Hlt|[Hz|Hgt]];
        [|exact Hz|]; exfalso.
      * specialize (Hg _ 24%Z geps_increasing (proj1 Hs) Hlt ltac:(lia)).
        now pose proof (score_lt_irrefl _ _ hundred Hg Heq eq_refl).
      * specialize (Hg 24%Z _ geps_increasing ltac:(lia) Hgt ltac:(lia)).
        now pose proof (score_lt_irrefl _ _ hundred Hg eq_refl Heq).
    + intros ->. reflexivity.
  - intros Hs. split.
    + intros Heq.
      destruct (Z.lt_trichotomy (a + b + c + d) 12) as [Hlt|[Hz|Hgt]];
        [|exact Hz|]; exfalso.
      * specialize (Hq _ 12%Z qgeps_increasing (proj1 Hs) Hlt ltac:(lia)).
        now pose proof (score_lt_irrefl _ _ hundred Hq Heq eq_refl).
      * specialize (Hq 12%Z _ qgeps_increasing ltac:(lia) Hgt ltac:(lia)).
        now pose proof (score_lt_irrefl _ _ hundred Hq eq_refl Heq).
    + intros ->. reflexivity.
Qed.

End ScoreOrder.

(** ** More on the features *)

Section FeatureOrder.
Import QuantumAuditor QuantumSpec.

Lemma count_ones_length {A : Type} (cond : A -> bool) (l : list A) :
  count_ones cond l = Z.of_nat (List.length (filter cond l)).
Proof. unfold count_ones. apply py_sum_ones. Qed.

Lemma count_ones_app {A : Type} (cond : A -> bool) (l1 l2 : list A) :
  count_ones cond (l1 ++ l2) = (count_ones cond l1 + count_ones cond l2)%Z.
Proof. rewrite !count_ones_length, filter_app, length_app. lia. Qed.

Lemma count_ones_permutation {A : Type} (cond : A -> bool) (l1 l2 : list A) :
  Permutation.Permutation l1 l2 -> count_ones cond l1 = count_ones cond l2.
Proof.
  rewrite !count_ones_length.
  induction 1 as [|a l1 l2 _ IH|a b l|l1 l2 l3 _ IH1 _ IH2]; cbn [filter].
  - reflexivity.
  - destruct (cond a); cbn [List.length]; lia.
  - destruct (cond a), (cond b); reflexivity.
  - lia.
Qed.

Lemma str_in_permutation (s : string) (l1 l2 : list string) :
  Permutation.Permutation l1 l2 -> str_in s l1 = str_in s l2.
Proof.
  unfold str_in.
  induction 1 as [|a l1 l2 _ IH|a b l|l1 l2 l3 _ IH1 _ IH2]; cbn [existsb].
  - reflexivity.
  - now rewrite IH.
  - now rewrite !orb_assoc, (orb_comm (String.eqb s b)).
  - congruence.
Qed.

(** X8. The features do not depend on the order of the atoms, nor on the
    header: two parsed structures whose atom lists are permutations of
    each other have the same features. *)
Theorem features_ignore_atom_order (p q : ParsedStructure) :
  Permutation.Permutation (atoms p) (atoms q) ->
  identify_quantum_features p = identify_quantum_features q.
Proof.
  intros Hp. unfold identify_quantum_features.
  rewrite (count_ones_permutation (fun a => str_in (resName a) ["PHE"; "TRP"; "TYR"])
             _ _ Hp).
  rewrite (count_ones_permutation
             (fun a => str_in (resName a) ["ALA"; "VAL"; "LEU"; "ILE"; "THR"; "SER"])
             _ _ Hp).
  rewrite (count_ones_permutation (fun a => str_in (name a) ["FE"; "MN"; "CU"; "MG"])
             _ _ Hp).
  rewrite (str_in_permutation "FAD" _ _ (Permutation.Permutation_map resName Hp)).
  reflexivity.
Qed.

Lemma filter_length_le {A : Type} (cond : A -> bool) (l : list A) :
  List.length (filter cond l) <= List.length l.
Proof.
  induction l as [|a l IH]; cbn [filter List.length]; [lia|].
  destruct (cond a); cbn [List.length]; lia.
Qed.

Lemma filter_disjoint_length {A : Type} (c1 c2 : A -> bool) (l : list A) :
  (forall a, c1 a = true -> c2 a = false) ->
  List.length (filter c1 l) + List.length (filter c2 l) <= List.length l.
Proof.
  intros Hd. induction l as [|a l IH]; cbn [filter List.length]; [lia|].
  destruct (c1 a) eqn:E1.
  - rewrite (Hd a E1). cbn [List.length]. lia.
  - destruct (c2 a); cbn [List.length]; lia.
Qed.

Lemma aromatic_not_chiral (r : string) :
  str_in r ["PHE"; "TRP"; "TYR"] = true ->
  str_in r ["ALA"; "VAL"; "LEU"; "ILE"; "THR"; "SER"] = false.
Proof.
  unfold str_in. cbn [existsb]. rewrite orb_false_r. intros H.
  apply orb_prop in H as [H|H]; [|apply orb_prop in H as [H|H]];
    apply String.eqb_eq in H; subst r; reflexivity.
Qed.

(** X9. The counts of the features are bounded by the number of atoms:
    each of the three lies between 0 and that number, the aromatic-ring
    and chiral-center counts together do not exceed it since no residue
    name is in both sets, and the radical-pair flag is 0 or 1 and 0
    without atoms. The counts of two atom lists put together are the sums
    of their counts, and the flag the larger of their flags. *)
Theorem feature_counts_are_bounded (h : list (string * string)) (l1 l2 : list Atom) :
  let f := identify_quantum_features (mkParsed h (l1 ++ l2)) in
  let f1 := identify_quantum_features (mkParsed h l1) in
  let f2 := identify_quantum_features (mkParsed h l2) in
  let n := Z.of_nat (List.length (l1 ++ l2)) in
  (0 <= aromatic_rings f <= n)%Z
  /\ (0 <= chiral_centers f <= n)%Z
  /\ (0 <= metal_clusters f <= n)%Z
  /\ (aromatic_rings f + chiral_centers f <= n)%Z
  /\ (0 <= radical_pairs f <= Z.min 1 n)%Z
  /\ aromatic_rings f = (aromatic_rings f1 + aromatic_rings f2)%Z
  /\ chiral_centers f = (chiral_centers f1 + chiral_centers f2)%Z
  /\ metal_clusters f = (metal_clusters f1 + metal_clusters f2)%Z
  /\ radical_pairs f = Z.max (radical_pairs f1) (radical_pairs f2).
Proof.
  cbn zeta. unfold identify_quantum_features.
  cbn [atoms aromatic_rings chiral_centers metal_clusters radical_pairs].
  rewrite !count_ones_app. rewrite <- !count_ones_app.
  rewrite !count_ones_length.
  set (l := l1 ++ l2).
  pose proof (filter_length_le (fun a => str_in (resName a) ["PHE"; "TRP"; "TYR"]) l).
  pose proof (filter_length_le
                (fun a => str_in (resName a) ["ALA"; "VAL"; "LEU"; "ILE"; "THR"; "SER"]) l).
  pose proof (filter_length_le (fun a => str_in (name a) ["FE"; "MN"; "CU"; "MG"]) l).
  pose proof (filter_disjoint_length
                (fun a => str_in (resName a) ["PHE"; "TRP"; "TYR"])
                (fun a => str_in (resName a) ["ALA"; "VAL"; "LEU"; "ILE"; "THR"; "SER"]) l
                (fun a => aromatic_not_chiral (resName a))).
  repeat (split; [lia|]).
  split.
  { destruct l as [|a l']; [cbn; lia|].
    destruct (str_in "FAD" (map resName (a :: l'))); cbn [List.length]; lia. }
  subst l. rewrite !filter_app, !length_app.
  repeat (split; [lia|]).
  unfold str_in. rewrite map_app, existsb_app.
  destruct (existsb (String.eqb "FAD") (map resName l1)),
    (existsb (String.eqb "FAD") (map resName l2)); reflexivity.
Qed.

End FeatureOrder.

Lemma features_ignore_atom_order_witness :
  QuantumAuditor.identify_quantum_features
    (mkParsed [] [ParseSpec.fixture_atom;
                  mkAtom 2 "CA" "PHE" "A" 11 ParseSpec.one ParseSpec.two ParseSpec.three])
  = QuantumAuditor.identify_quantum_features
      (mkParsed [("classification", "MAGNETIC PROTEIN")]
         [mkAtom 2 "CA" "PHE" "A" 11 ParseSpec.one ParseSpec.two ParseSpec.three;
          ParseSpec.fixture_atom]).
Proof.
  apply (features_ignore_atom_order
           (mkParsed [] [ParseSpec.fixture_atom;
                         mkAtom 2 "CA" "PHE" "A" 11 ParseSpec.one ParseSpec.two
                           ParseSpec.three])
           (mkParsed [("classification", "MAGNETIC PROTEIN")]
              [mkAtom 2 "CA" "PHE" "A" 11 ParseSpec.one ParseSpec.two ParseSpec.three;
               ParseSpec.fixture_atom])).
  apply Permutation.perm_swap.
Defined.

(** ** More on the catalogue *)

Section CatalogueLookup.
Import ShopManualMethods Json JsonSpec.

Lemma first_match_app (es : list dict) (e : dict) (part_id : string) :
  first_match (map VDict (es ++ [e])) part_id =
  if existsb (fun d => has_part_id d part_id) es
  then first_match (map VDict es) part_id
  else if has_part_id e part_id then Ok (VDict e) else Ok (VDict []).
Proof.
  induction es as [|d es IH]; cbn [app map first_match existsb].
  - reflexivity.
  - destruct (has_part_id d part_id); [reflexivity|exact IH].
Qed.

Lemma existsb_part_id (es : list dict) (part_id : string) :
  existsb (fun d => has_part_id d part_id) es = true
  <-> Exists (fun d => dict_lookup d "PartID" = Some (VStr part_id)) es.
Proof.
  rewrite existsb_exists, Exists_exists.
  split; intros (d & Hin & Hd); exists d; (split; [exact Hin|]);
    now apply has_part_id_lookup.
Qed.

(** X10. Looking an identifier up after an entry was appended: when an
    entry of the catalogue had the identifier already, the lookup returns
    what it returned before, and the new entry is not reached; when none
    had it, the lookup returns the new entry if its PartID is the
    identifier and an empty dict otherwise. *)
Theorem lookup_after_append (es : list dict) (e : dict) (part_id : string) :
  let has := fun d : dict => dict_lookup d "PartID" = Some (VStr part_id) in
  let before := fst (get_entry_by_id part_id (catalogue es)) in
  exists after,
    (_ <~ add_entry e ;; get_entry_by_id part_id) (catalogue es)
    = (after, catalogue (es ++ [e]))
    /\ (Exists has es -> after = before)
    /\ (~ Exists has es -> has e -> after = Ok (VDict e))
    /\ (~ Exists has es -> ~ has e -> after = Ok (VDict [])).
Proof.
  cbn zeta. unfold mbind. rewrite add_entry_catalogue.
  unfold get_entry_by_id, catalogue. cbn [entries iterate bind fst].
  eexists. split; [reflexivity|].
  rewrite first_match_app.
  pose proof (existsb_part_id es part_id) as Hex.
  pose proof (has_part_id_lookup e part_id) as He.
  destruct (existsb (fun d => has_part_id d part_id) es).
  - split; [reflexivity|]. split; intros Hn; exfalso; apply Hn; now apply Hex.
  - split; [intros H; apply Hex in H; discriminate|].
    destruct (has_part_id e part_id).
    + split; [reflexivity|]. intros _ Hn. exfalso. apply Hn. now apply He.
    + split; [|reflexivity]. intros _ H. apply He in H. discriminate.
Qed.

Lemma map_VDict_injective (es1 es2 : list dict) :
  map VDict es1 = map VDict es2 -> es1 = es2.
Proof.
  revert es2. induction es1 as [|e es1 IH]; intros [|e' es2]; cbn [map];
    try discriminate; [reflexivity|].
  intros [= -> H]. f_equal. now apply IH.
Qed.

(** X11. [to_json] is injective on the catalogues of entries JSON holds
    (their floats are finite binary64 numbers, the keys of each dict are
    distinct): two such catalogues have the same JSON text exactly when
    they have the same entries in the same order. *)
Theorem to_json_determines_entries (es1 es2 : list dict) :
  forallb json_entry es1 = true ->
  forallb json_entry es2 = true ->
  (to_json (catalogue es1) = to_json (catalogue es2) <-> es1 = es2).
Proof.
  intros H1 H2. split; [|now intros ->].
  intros Heq. unfold to_json in Heq.
  pose proof (loads_dumps _ (catalogue_representable es1
                               (json_entries_well_formed es1 H1))) as L1.
  pose proof (loads_dumps _ (catalogue_representable es2
                               (json_entries_well_formed es2 H2))) as L2.
  rewrite Heq, L2 in L1. injection L1 as L1.
  symmetry. now apply map_VDict_injective.
Qed.

End CatalogueLookup.

Lemma to_json_determines_entries_witness :
  ShopManualMethods.to_json (catalogue CatalogueSpec.example_entries)
  = ShopManualMethods.to_json (catalogue (rev CatalogueSpec.example_entries))
  <-> CatalogueSpec.example_entries = rev CatalogueSpec.example_entries.
Proof.
  apply (to_json_determines_entries CatalogueSpec.example_entries
           (rev CatalogueSpec.example_entries)).
  - vm_compute. reflexivity.
  - vm_compute. reflexivity.
Defined.

(** ** More on the structural audit *)

Section MissingKeys.
Import ShopManualMethods AdaptiveAutoAuditor CatalogueSpec.
Variable requests_get : string -> Response.

Lemma audit_structure_no_part_id (t : target) (sm : ShopManual) :
  dict_lookup t "PartID" = None ->
  audit_structure requests_get t sm =
  (match DataFetcher.fetch_pdb requests_get (format_opt (dict_lookup t "PDB")) with
   | Ok _ => Raise (KeyError "PartID")
   | Raise err => Raise err
   end, sm).
Proof.
  intros Hid. unfold audit_structure, mbind, lift, get_item. rewrite Hid.
  destruct (DataFetcher.fetch_pdb requests_get _) as [text|err]; [|reflexivity].
  destruct (parse_atoms text) as (d & -> & _).
  change (Scorer.compute_geps 3 3 3 3 3 3 3 3) with (Ok ScoreSpec.hundred).
  reflexivity.
Qed.

Lemma audited_entry_fields (t : target) (e : dict) :
  audited_entry requests_get t = Ok e ->
  exists part_id parsed,
    dict_lookup t "PartID" = Some part_id
    /\ e = structural_entry t (VStr part_id) (format_opt (dict_lookup t "PDB"))
             ScoreSpec.hundred parsed.
Proof.
  unfold audited_entry, get_item.
  destruct (DataFetcher.fetch_pdb requests_get _) as [text|err]; [|discriminate].
  cbn [bind]. destruct (DataFetcher.parse_pdb_to_json text) as [d|]; [|discriminate].
  change (Scorer.compute_geps 3 3 3 3 3 3 3 3) with (Ok ScoreSpec.hundred).
  cbn [bind]. destruct (dict_lookup t "PartID") as [p|]; [|discriminate].
  cbn [bind]. intros [= <-]. now exists p, d.
Qed.

(** X12. Keys a target lacks. Without PartID the structural audit raises
    and leaves the catalogue as it was: [KeyError] once the structure was
    fetched, the error of the fetch when that fails, since the identifier
    is read after the download. The other keys are optional: without PDB
    the structure named None is fetched and the entry cites PDB:None,
    without Name the entry holds None as BiologicalStructure, and the
    other absent fields hold their defaults: the text None for the
    inorganic core, Unknown for the functions, the empty text for the
    failure modes. *)
Theorem audit_structure_missing_keys (t : target) (es : list dict) :
  (dict_lookup t "PartID" = None ->
   audit_structure requests_get t (catalogue es) =
   (match DataFetcher.fetch_pdb requests_get (format_opt (dict_lookup t "PDB")) with
    | Ok _ => Raise (KeyError "PartID")
    | Raise err => Raise err
    end, catalogue es))
  /\ (dict_lookup t "PDB" = None ->
      forall err,
        DataFetcher.fetch_pdb requests_get "None" = Raise err ->
        audit_structure requests_get t (catalogue es) = (Raise err, catalogue es))
  /\ (forall e sm',
        audit_structure requests_get t (catalogue es) = (Ok e, sm') ->
        sm' = catalogue (es ++ [e])
        /\ (dict_lookup t "PDB" = None ->
            dict_lookup e "DataSources" = Some (VStr "PDB:None"))
        /\ (dict_lookup t "Name" = None ->
            dict_lookup e "BiologicalStructure" = Some VNone)
        /\ (dict_lookup t "Inorganic" = None ->
            dict_lookup e "InorganicCore" = Some (VStr "None"))
        /\ (dict_lookup t "PrimaryFunction" = None ->
            dict_lookup e "PrimaryFunction" = Some (VStr "Unknown"))
        /\ (dict_lookup t "SecondaryFunction" = None ->
            dict_lookup e "SecondaryFunction" = Some (VStr "Unknown"))
        /\ (dict_lookup t "FailureModeEngineering" = None ->
            dict_lookup e "FailureMode_Engineering" = Some (VStr ""))
        /\ (dict_lookup t "FailureModeBiological" = None ->
            dict_lookup e "FailureMode_Biological" = Some (VStr ""))).
Proof.
  split; [apply audit_structure_no_part_id|].
  split.
  { intros Hpdb err Hfetch. rewrite audit_structure_audited.
    unfold audited_entry. rewrite Hpdb. cbn [format_opt]. now rewrite Hfetch. }
  intros e sm'. rewrite audit_structure_audited.
  destruct (audited_entry requests_get t) as [e'|err] eqn:Ea; [|discriminate].
  intros [= -> <-]. split; [reflexivity|].
  destruct (audited_entry_fields t e Ea) as (p & d & Hp & ->).
  unfold structural_entry, get_value, get_default. cbn [dict_lookup String.eqb Ascii.eqb Bool.eqb].
  repeat split; intros ->; reflexivity.
Qed.

End MissingKeys.

(** ** More on the runner *)

Section AutoRun.
Import ShopManualMethods AdaptiveAutoAuditor CatalogueSpec PipelineSpec.
Variable requests_get : string -> Response.

Lemma audited_app (a b : list target) :
  audited requests_get (a ++ b) =
  match snd (audited requests_get a) with
  | Some _ => audited requests_get a
  | None => (fst (audited requests_get a) ++ fst (audited requests_get b),
             snd (audited requests_get b))
  end.
Proof.
  induction a as [|t a IH]; cbn [app audited].
  - now destruct (audited requests_get b).
  - destruct (audited_entry requests_get t) as [e|err]; [|reflexivity].
    rewrite IH. destruct (audited requests_get a) as [ea [erra|]]; cbn [fst snd].
    + reflexivity.
    + now destruct (audited requests_get b).
Qed.

(** The entries audited before a failure are fewer than the targets; all
    targets are audited when there is none. *)
Lemma audited_length (batch : list target) :
  match snd (audited requests_get batch) with
  | Some _ => List.length (fst (audited requests_get batch)) < List.length batch
  | None => List.length (fst (audited requests_get batch)) = List.length batch
  end.
Proof.
  induction batch as [|t batch IH]; cbn [audited]; [reflexivity|].
  destruct (audited_entry requests_get t) as [e|err]; [|cbn; lia].
  destruct (audited requests_get batch) as [es [err|]]; cbn [fst snd List.length] in *; lia.
Qed.

Lemma taken_first_batch (size failed len : nat) :
  failed < Nat.min size len -> taken size failed len = Nat.min size len.
Proof.
  intros H. unfold taken. rewrite Nat.div_small by lia. lia.
Qed.

Lemma taken_next_batch (size failed len : nat) :
  1 <= size -> size <= len ->
  size + taken size failed (len - size) = taken size (size + failed) len.
Proof.
  intros Hs Hl. unfold taken.
  replace (size + failed) with (1 * size + failed) by lia.
  rewrite Nat.div_add_l by lia. lia.
Qed.

(** X13. With a batch size of one at least, [auto_run] ends within as
    many rounds as there are targets, and what it appends does not depend
    on the batch size: the entries of the targets in order up to the first
    one that fails, as one batch of all targets would. Without failure the
    queue ends empty. On a failure the exception is raised and the queue
    has lost the whole batch of the failing target: the targets of that
    batch after the failing one are dropped without being audited. *)
Theorem auto_run_audits_in_order (fuel : nat) (self : Auditor) (es : list dict) :
  (1 <= batch_size self)%Z ->
  List.length (targets self) <= fuel ->
  exists self',
    auto_run requests_get fuel self (catalogue es)
    = Some (match snd (audited requests_get (targets self)) with
            | None => Ok tt
            | Some err => Raise err
            end,
            self',
            catalogue (es ++ fst (audited requests_get (targets self))))
    /\ snd (run_batch requests_get (targets self) (catalogue es))
       = catalogue (es ++ fst (audited requests_get (targets self)))
    /\ batch_size self' = batch_size self
    /\ targets self' =
       match snd (audited requests_get (targets self)) with
       | None => []
       | Some _ =>
           skipn (taken (Z.to_nat (batch_size self))
                    (List.length (fst (audited requests_get (targets self))))
                    (List.length (targets self)))
                 (targets self)
       end.
Proof.
  rewrite run_batch_audited. cbn [snd].
  revert self es.
  induction fuel as [|fuel IH]; intros self es Hsize Hlen;
    destruct (targets self) as [|t0 ts] eqn:Hts; cbn [auto_run]; rewrite Hts.
  - exists self. cbn [audited fst snd]. now rewrite app_nil_r.
  - cbn [List.length] in Hlen. lia.
  - exists self. cbn [audited fst snd]. now rewrite app_nil_r.
  - set (queue := t0 :: ts) in *.
    set (size := Z.to_nat (batch_size self)).
    assert (Hn : Z.to_nat (Z.min (batch_size self) (Z.of_nat (List.length queue)))
                 = Nat.min size (List.length queue)) by (unfold size; lia).
    rewrite Hn. set (n := Nat.min size (List.length queue)).
    assert (Hsplit : queue = firstn n queue ++ skipn n queue)
      by (symmetry; apply firstn_skipn).
    assert (Hfirst : List.length (firstn n queue) = n)
      by (rewrite length_firstn; unfold n; lia).
    pose proof (audited_length (firstn n queue)) as Hbatch.
    pose proof (audited_app (firstn n queue) (skipn n queue)) as Happ.
    rewrite <- Hsplit in Happ.
    rewrite run_batch_audited.
    destruct (snd (audited requests_get (firstn n queue))) as [err|] eqn:Efail.
    + exists (mkAuditor (skipn n queue) (batch_size self)).
      rewrite Happ, Efail. split; [reflexivity|]. split; [reflexivity|].
      split; [reflexivity|]. cbn [targets]. fold size. rewrite taken_first_batch; [reflexivity|].
      fold n. lia.
    + destruct (IH (mkAuditor (skipn n queue) (batch_size self))
                  (es ++ fst (audited requests_get (firstn n queue))))
        as (self' & Hrun & _ & Hsize' & Hqueue).
      { exact Hsize. }
      { cbn [targets]. rewrite length_skipn. unfold n, size.
        cbn [List.length] in *. lia. }
      exists self'. cbn [targets batch_size] in Hrun, Hsize', Hqueue.
      rewrite Hrun, Happ. cbn [fst snd]. rewrite <- app_assoc.
      split; [reflexivity|]. split; [reflexivity|]. split; [exact Hsize'|].
      rewrite Hqueue.
      pose proof (audited_length (skipn n queue)) as Hrest.
      destruct (snd (audited requests_get (skipn n queue))) as [err|]; [|reflexivity].
      fold size. rewrite skipn_skipn, length_app, length_skipn, Hbatch, Hfirst.
      f_equal.
      assert (Hlt : n < List.length queue) by (rewrite length_skipn in Hrest; lia).
      assert (Hns : n = size) by (unfold n in *; lia).
      rewrite Hns in *. rewrite Nat.add_comm. apply taken_next_batch; unfold size; lia.
Qed.

End AutoRun.

Lemma auto_run_audits_in_order_witness :
  exists self',
    AdaptiveAutoAuditor.auto_run QuantumSpec.fixture_client 3
      (AdaptiveAutoAuditor.mkAuditor generate_targets 2) (catalogue [])
    = Some (match snd (CatalogueSpec.audited QuantumSpec.fixture_client generate_targets) with
            | None => Ok tt
            | Some err => Raise err
            end,
            self',
            catalogue ([] ++ fst (CatalogueSpec.audited QuantumSpec.fixture_client
                                    generate_targets)))
    /\ snd (AdaptiveAutoAuditor.run_batch QuantumSpec.fixture_client generate_targets
              (catalogue []))
       = catalogue ([] ++ fst (CatalogueSpec.audited QuantumSpec.fixture_client
                                 generate_targets))
    /\ AdaptiveAutoAuditor.batch_size self' = 2%Z
    /\ AdaptiveAutoAuditor.targets self' =
       match snd (CatalogueSpec.audited QuantumSpec.fixture_client generate_targets) with
       | None => []
       | Some _ =>
           skipn (PipelineSpec.taken (Z.to_nat 2)
                    (List.length (fst (CatalogueSpec.audited QuantumSpec.fixture_client
                                         generate_targets)))
                    (List.length generate_targets))
                 generate_targets
       end.
Proof.
  apply (auto_run_audits_in_order QuantumSpec.fixture_client 3
           (AdaptiveAutoAuditor.mkAuditor generate_targets 2) []).
  - cbn. lia.
  - cbn. lia.
Defined.

Section FullAudit.
Import ShopManualMethods AdaptiveAutoAuditor CatalogueSpec PipelineSpec ScoreSpec.
Variable requests_get : string -> Response.

Lemma audited_entry_target (t : target) (pdb_id part_id : string) :
  dict_lookup t "PDB" = Some pdb_id ->
  dict_lookup t "PartID" = Some part_id ->
  match DataFetcher.fetch_pdb requests_get pdb_id with
  | Ok _ =>
      exists parsed,
        audited_entry requests_get t
        = Ok (structural_entry t (VStr part_id) pdb_id hundred parsed)
  | Raise err => audited_entry requests_get t = Raise err
  end.
Proof.
  intros Hpdb Hid. unfold audited_entry, get_item. rewrite Hpdb, Hid.
  cbn [format_opt].
  destruct (DataFetcher.fetch_pdb requests_get pdb_id) as [text|err]; [|reflexivity].
  destruct (parse_atoms text) as (d & Hd & _). exists d. cbn [bind]. now rewrite Hd.
Qed.

Lemma run_full_audit_batch (fuel : nat) :
  run_full_audit requests_get (S fuel) =
  match snd (audited requests_get generate_targets) with
  | Some err => Some (Raise err)
  | None =>
      match QuantumAuditor.audit_quantum_candidate requests_get
              "6ZU0" "CRY-001" "Cryptochrome 4"
              (catalogue (fst (audited requests_get generate_targets))) with
      | (Raise err, _) => Some (Raise err)
      | (Ok _, sm) => Some (Ok (to_json sm))
      end
  end.
Proof.
  unfold run_full_audit. cbn [auto_run targets batch_size].
  change (Z.to_nat (Z.min 3 (Z.of_nat (List.length generate_targets)))) with 3.
  change (firstn 3 generate_targets) with generate_targets.
  change (skipn 3 generate_targets) with (@nil target).
  change init with (catalogue []). rewrite run_batch_audited. cbn [app].
  destruct (snd (audited requests_get generate_targets)); [reflexivity|].
  now destruct fuel.
Qed.

(** X14. The full audit downloads four structures, 4DYF, 1AOE, 2QID and
    6ZU0 in this order, in one round of [auto_run]. When a download fails
    the run ends with the exception of the first one that does and writes
    nothing. Otherwise the text it writes is the JSON text of a catalogue
    of four entries, MAG-001, BONE-001, DIA-001 and CRY-001 in this order,
    each citing its structure; the first three have the general score
    100.0 and the last one of the four quantum scores. *)
Theorem run_full_audit_outcome (fuel : nat) :
  1 <= fuel ->
  match first_failure requests_get ["4DYF"; "1AOE"; "2QID"; "6ZU0"] with
  | Some err => run_full_audit requests_get fuel = Some (Raise err)
  | None =>
      exists (e1 e2 e3 e4 : dict) (score : F64.float),
        run_full_audit requests_get fuel
        = Some (Ok (to_json (catalogue [e1; e2; e3; e4])))
        /\ map (fun e => dict_lookup e "PartID") [e1; e2; e3; e4]
           = [Some (VStr "MAG-001"); Some (VStr "BONE-001"); Some (VStr "DIA-001");
              Some (VStr "CRY-001")]
        /\ map (fun e => dict_lookup e "DataSources") [e1; e2; e3; e4]
           = [Some (VStr "PDB:4DYF"); Some (VStr "PDB:1AOE"); Some (VStr "PDB:2QID");
              Some (VStr "PDB:6ZU0")]
        /\ map (fun e => dict_lookup e "GEPS_Score") [e1; e2; e3; e4]
           = [Some (VFloat hundred); Some (VFloat hundred); Some (VFloat hundred); None]
        /\ dict_lookup e4 "Q-GEPS_Score" = Some (VFloat score)
        /\ (score = q5 \/ score = q7 \/ score = q9 \/ score = q11)
  end.
Proof.
  intros Hfuel. destruct fuel as [|fuel]; [lia|]. clear Hfuel.
  rewrite run_full_audit_batch. cbn [first_failure].
  unfold generate_targets. cbn [audited].
  match goal with |- context [audited_entry requests_get ?t] =>
    pose proof (audited_entry_target t "4DYF" "MAG-001" eq_refl eq_refl) as H1 end.
  destruct (DataFetcher.fetch_pdb requests_get "4DYF") as [t1|err1];
    [destruct H1 as (d1 & ->)|rewrite H1; reflexivity].
  match goal with |- context [audited_entry requests_get ?t] =>
    pose proof (audited_entry_target t "1AOE" "BONE-001" eq_refl eq_refl) as H2 end.
  destruct (DataFetcher.fetch_pdb requests_get "1AOE") as [t2|err2];
    [destruct H2 as (d2 & ->)|rewrite H2; reflexivity].
  match goal with |- context [audited_entry requests_get ?t] =>
    pose proof (audited_entry_target t "2QID" "DIA-001" eq_refl eq_refl) as H3 end.
  destruct (DataFetcher.fetch_pdb requests_get "2QID") as [t3|err3];
    [destruct H3 as (d3 & ->)|rewrite H3; reflexivity].
  cbn [fst snd].
  destruct (DataFetcher.fetch_pdb requests_get "6ZU0") as [t4|err4] eqn:E4.
  - match goal with |- context [catalogue ?es] =>
      destruct (audit_quantum_fetched requests_get "6ZU0" "CRY-001" "Cryptochrome 4"
                  t4 (catalogue es) E4) as (d4 & score & _ & _ & Hscore & ->)
    end.
    unfold mbind. rewrite add_entry_catalogue. cbn [ret app].
    eexists _, _, _, _, score. split; [reflexivity|].
    repeat split; try reflexivity. exact Hscore.
  - unfold QuantumAuditor.audit_quantum_candidate, mbind, lift. rewrite E4.
    reflexivity.
Qed.

End FullAudit.

Lemma run_full_audit_outcome_witness :
  exists (e1 e2 e3 e4 : dict) (score : F64.float),
    run_full_audit QuantumSpec.fixture_client 1
    = Some (Ok (ShopManualMethods.to_json (catalogue [e1; e2; e3; e4])))
    /\ map (fun e => dict_lookup e "PartID") [e1; e2; e3; e4]
       = [Some (VStr "MAG-001"); Some (VStr "BONE-001"); Some (VStr "DIA-001");
          Some (VStr "CRY-001")]
    /\ map (fun e => dict_lookup e "DataSources") [e1; e2; e3; e4]
       = [Some (VStr "PDB:4DYF"); Some (VStr "PDB:1AOE"); Some (VStr "PDB:2QID");
          Some (VStr "PDB:6ZU0")]
    /\ map (fun e => dict_lookup e "GEPS_Score") [e1; e2; e3; e4]
       = [Some (VFloat ScoreSpec.hundred); Some (VFloat ScoreSpec.hundred);
          Some (VFloat ScoreSpec.hundred); None]
    /\ dict_lookup e4 "Q-GEPS_Score" = Some (VFloat score)
    /\ (score = ScoreSpec.q5 \/ score = ScoreSpec.q7 \/ score = ScoreSpec.q9
        \/ score = ScoreSpec.q11).
Proof.
  apply (run_full_audit_outcome QuantumSpec.fixture_client 1). lia.
Defined.

(** ** The remote database *)

Section RemoteUrl.
Import RemoteDatabase PipelineSpec JsonSpec.

Lemma rstrip_of_slashes_only (k : nat) : Py.rstrip_of is_slash (slashes k) = EmptyString.
Proof.
  induction k as [|k IH]; [reflexivity|].
  cbn [slashes Py.rstrip_of]. now rewrite IH.
Qed.

Lemma rstrip_of_slashes (base : string) (k : nat) :
  Py.rstrip_of is_slash (base ++ slashes k) = Py.rstrip_of is_slash base.
Proof.
  induction base as [|c r IH]; cbn [append Py.rstrip_of].
  - apply rstrip_of_slashes_only.
  - now rewrite IH.
Qed.

Lemma rstrip_of_last (s : string) :
  last_char (Py.rstrip_of is_slash s) <> Some "/"%char.
Proof.
  induction s as [|c r IH]; cbn [Py.rstrip_of]; [discriminate|].
  destruct (Py.rstrip_of is_slash r) as [|d r'].
  - destruct (is_slash c) eqn:E; [discriminate|].
    cbn [last_char]. intros [= ->]. discriminate E.
  - exact IH.
Qed.

Lemma rstrip_of_no_slash (s : string) :
  last_char s <> Some "/"%char -> Py.rstrip_of is_slash s = s.
Proof.
  induction s as [|c r IH]; [reflexivity|].
  cbn [Py.rstrip_of]. destruct r as [|d r'].
  - cbn [Py.rstrip_of last_char]. intros H.
    destruct (is_slash c) eqn:E; [|reflexivity].
    apply Ascii.eqb_eq in E. congruence.
  - intros H. rewrite IH by exact H. reflexivity.
Qed.

(** X15. The URL of the remote database does not depend on slashes at the
    end of the base URL: a base URL with any number of slashes added gives
    the same client, the stored base URL never ends with a slash, and a
    base URL that does not end with one is stored as it is. So the URL of
    both calls is the base URL without its final slashes followed by
    [/entries], and both send the key in the same Authorization header. *)
Theorem remote_url_ignores_final_slashes (base key : string) (k : nat) :
  init (base ++ slashes k) key = init base key
  /\ last_char (base_url (init base key)) <> Some "/"%char
  /\ (last_char base <> Some "/"%char -> base_url (init base key) = base)
  /\ headers (init base key) = [("Authorization", ("Bearer " ++ key)%string)]
  /\ (forall requests_post entry,
        push_entry requests_post (init (base ++ slashes k) key) entry
        = match requests_post (Py.rstrip_of is_slash base ++ "/entries")%string
                  [("Authorization", ("Bearer " ++ key)%string)] entry with
          | Raise e => Some (Raise e)
          | Ok response =>
              if (status_code response =? 200)%Z || (status_code response =? 201)%Z
              then json response
              else Some (Raise (Exception ("Failed to push entry: "
                                           ++ Py.str_of_int (status_code response) ++ " "
                                           ++ text response)%string))
          end)
  /\ (forall requests_get query,
        fetch_entries requests_get (init (base ++ slashes k) key) query
        = match requests_get (Py.rstrip_of is_slash base ++ "/entries")%string
                  [("Authorization", ("Bearer " ++ key)%string)] query with
          | Raise e => Some (Raise e)
          | Ok response =>
              if (status_code response =? 200)%Z
              then json response
              else Some (Raise (Exception ("Failed to fetch entries: "
                                           ++ Py.str_of_int (status_code response) ++ " "
                                           ++ text response)%string))
          end).
Proof.
  assert (Hinit : init (base ++ slashes k) key = init base key)
    by (unfold init; now rewrite rstrip_of_slashes).
  split; [exact Hinit|].
  split; [apply rstrip_of_last|].
  split; [apply rstrip_of_no_slash|].
  split; [reflexivity|].
  split; intros; rewrite Hinit; reflexivity.
Qed.

(** X16. What the remote serves comes back as it was exported. When the
    reply to [fetch_entries] has status 200 and its body is the text
    [to_json] gave for a catalogue of entries JSON holds (their floats are
    finite binary64 numbers, the keys of each dict are distinct), the call
    returns the entries of that catalogue; when the reply to [push_entry]
    has status 200 or 201 and its body is the JSON text of such an entry,
    the call returns the entry. A reply with another status raises with
    the status and the body in the message, and a success reply with an
    empty body raises [ValueError]. *)
Theorem remote_returns_served_entries
  (requests_post : string -> list (string * string) -> dict -> result Reply)
  (requests_get : string -> list (string * string) -> option dict -> result Reply)
  (self : RemoteDatabase.RemoteDatabase) (query : option dict) :
  (forall es,
     forallb json_entry es = true ->
     requests_get (base_url self ++ "/entries")%string (headers self) query
     = Ok (mkReply 200 (ShopManualMethods.to_json (catalogue es))) ->
     fetch_entries requests_get self query = Some (Ok (entries (catalogue es))))
  /\ (forall entry status,
        json_entry entry = true ->
        status = 200%Z \/ status = 201%Z ->
        requests_post (base_url self ++ "/entries")%string (headers self) entry
        = Ok (mkReply status (Json.dumps (VDict entry))) ->
        push_entry requests_post self entry = Some (Ok (VDict entry)))
  /\ (forall status body,
        status <> 200%Z ->
        requests_get (base_url self ++ "/entries")%string (headers self) query
        = Ok (mkReply status body) ->
        fetch_entries requests_get self query
        = Some (Raise (Exception ("Failed to fetch entries: " ++ Py.str_of_int status
                                  ++ " " ++ body)%string)))
  /\ (forall entry status body,
        status <> 200%Z -> status <> 201%Z ->
        requests_post (base_url self ++ "/entries")%string (headers self) entry
        = Ok (mkReply status body) ->
        push_entry requests_post self entry
        = Some (Raise (Exception ("Failed to push entry: " ++ Py.str_of_int status
                                  ++ " " ++ body)%string)))
  /\ (requests_get (base_url self ++ "/entries")%string (headers self) query
      = Ok (mkReply 200 "") ->
      fetch_entries requests_get self query = Some (Raise ValueError)).
Proof.
  split; [|split; [|split; [|split]]].
  - intros es Hes Hreply. unfold fetch_entries. rewrite Hreply.
    cbn [status_code Z.eqb Pos.eqb]. unfold json, ShopManualMethods.to_json.
    cbn [text]. apply loads_dumps.
    now apply catalogue_representable, json_entries_well_formed.
  - intros entry status He Hs Hreply. unfold push_entry. rewrite Hreply.
    cbn [status_code]. unfold json. cbn [text].
    replace ((status =? 200)%Z || (status =? 201)%Z) with true
      by (destruct Hs as [->| ->]; reflexivity).
    apply loads_dumps. now apply json_value_representable.
  - intros status body Hs Hreply. unfold fetch_entries. rewrite Hreply.
    cbn [status_code text].
    apply Z.eqb_neq in Hs. now rewrite Hs.
  - intros entry status body H0 H1 Hreply. unfold push_entry. rewrite Hreply.
    cbn [status_code text].
    apply Z.eqb_neq in H0, H1. now rewrite H0, H1.
  - intros Hreply. unfold fetch_entries. rewrite Hreply. reflexivity.
Qed.

End RemoteUrl.

(** ** The characters of the JSON text *)

Section PlainText.
Import Json JsonSpec PipelineSpec FloatRepr.

Lemma all_plain_app (a b : string) : all_plain (a ++ b) = all_plain a && all_plain b.
Proof.
  induction a as [|c a IH]; cbn [append all_plain]; [reflexivity|].
  now rewrite IH, andb_assoc.
Qed.

Lemma digit_is_plain (c : ascii) : Py.isdigit c = true -> is_plain c = true.
Proof.
  unfold Py.isdigit, is_plain. intros H. apply andb_prop in H as [H1 H2].
  apply Nat.leb_le in H1, H2.
  apply orb_true_intro. left. apply andb_true_intro.
  split; apply Nat.leb_le; lia.
Qed.

Lemma all_digits_plain (s : string) : all_digits s = true -> all_plain s = true.
Proof.
  induction s as [|c r IH]; cbn [all_digits all_plain]; [reflexivity|].
  intros H. apply andb_prop in H as [Hc Hr]. now rewrite (digit_is_plain c Hc), IH.
Qed.

Lemma escape_char_plain (c : ascii) : all_plain (escape_char c) = true.
Proof. destruct c as [[] [] [] [] [] [] [] []]; reflexivity. Qed.

Lemma escape_plain (s : string) : all_plain (escape s) = true.
Proof.
  induction s as [|c r IH]; cbn [escape]; [reflexivity|].
  now rewrite all_plain_app, escape_char_plain, IH.
Qed.

Lemma encode_string_plain (s : string) : all_plain (encode_string s) = true.
Proof.
  unfold encode_string. cbn [all_plain]. now rewrite all_plain_app, escape_plain.
Qed.

Lemma nilzero_digits (u : Decimal.uint) : all_digits (NilZero.string_of_uint u) = true.
Proof.
  unfold NilZero.string_of_uint.
  pose proof (string_of_uint_digits u) as H. now destruct u.
Qed.

Lemma str_of_int_plain (n : Z) : all_plain (Py.str_of_int n) = true.
Proof.
  unfold Py.str_of_int.
  destruct (Z.to_int n) as [u|u]; cbn [NilZero.string_of_int all_plain];
    now rewrite (all_digits_plain _ (nilzero_digits u)).
Qed.

Lemma digits_of_plain (n : Z) : all_plain (digits_of n) = true.
Proof. apply all_digits_plain, nilzero_digits. Qed.

Lemma spaces_plain (k : nat) : all_plain (spaces k) = true.
Proof. induction k as [|k IH]; [reflexivity|exact IH]. Qed.

Lemma zeros_plain (k : nat) : all_plain (zeros k) = true.
Proof. induction k as [|k IH]; [reflexivity|exact IH]. Qed.

Lemma substring_plain (s : string) : forall n m,
  all_plain s = true -> all_plain (substring n m s) = true.
Proof.
  induction s as [|c r IH]; intros n m Hs.
  - now destruct n, m.
  - cbn [all_plain] in Hs. apply andb_prop in Hs as [Hc Hr].
    destruct n as [|n]; [destruct m as [|m]|]; cbn [substring all_plain].
    + reflexivity.
    + now rewrite Hc, IH.
    + now apply IH.
Qed.

Lemma all_plain_list (s : string) :
  all_plain s = forallb is_plain (list_ascii_of_string s).
Proof.
  induction s as [|c r IH]; cbn [all_plain list_ascii_of_string forallb];
    [reflexivity|now rewrite IH].
Qed.

Lemma strip_zeros_rev_plain (l : list ascii) :
  forallb is_plain l = true -> forallb is_plain (strip_zeros_rev l) = true.
Proof.
  induction l as [|c l IH]; cbn [strip_zeros_rev]; [reflexivity|].
  intros H. destruct (Ascii.eqb c "0"); [|exact H].
  cbn [forallb] in H. apply andb_prop in H as [_ H]. now apply IH.
Qed.

Lemma forallb_rev_plain (l : list ascii) :
  forallb is_plain l = true -> forallb is_plain (rev l) = true.
Proof.
  rewrite !forallb_forall. intros H c Hc. apply H. now apply in_rev.
Qed.

Lemma strip_trailing_zeros_plain (s : string) :
  all_plain s = true -> all_plain (strip_trailing_zeros s) = true.
Proof.
  intros H. unfold strip_trailing_zeros.
  rewrite all_plain_list, list_ascii_of_string_of_list_ascii.
  apply forallb_rev_plain, strip_zeros_rev_plain, forallb_rev_plain.
  now rewrite <- all_plain_list.
Qed.

Lemma format_short_plain (ds : string) (decpt : Z) :
  all_plain ds = true -> all_plain (format_short ds decpt) = true.
Proof.
  intros Hds. unfold format_short.
  destruct ((decpt <=? -4) || (16 <? decpt))%Z.
  - rewrite !all_plain_app.
    assert (Hm : all_plain match ds with
                           | String c EmptyString => ds
                           | String c (String _ _ as r) => String c (String "."%char r)
                           | EmptyString => ds
                           end = true).
    { destruct ds as [|c [|d r]]; exact Hds. }
    rewrite Hm.
    destruct (decpt - 1 <? 0)%Z, (Z.abs (decpt - 1) <? 10)%Z;
      cbn [all_plain append andb]; now rewrite ?digits_of_plain.
  - destruct (decpt <=? 0)%Z.
    + cbn [append all_plain]. now rewrite all_plain_app, zeros_plain, Hds.
    + destruct (Z.of_nat (String.length ds) <=? decpt)%Z.
      * now rewrite !all_plain_app, Hds, zeros_plain.
      * rewrite !all_plain_app, !substring_plain by exact Hds. reflexivity.
Qed.

Lemma decimal_text_plain (s : bool) (c k : Z) : all_plain (decimal_text s c k) = true.
Proof.
  unfold decimal_text. rewrite all_plain_app, format_short_plain.
  - now destruct s.
  - apply strip_trailing_zeros_plain, digits_of_plain.
Qed.

Lemma candidate_plain (x : F64.float) (s : bool) (p q d n : Z) (text : string) :
  candidate x s p q d n = Some text -> all_plain text = true.
Proof.
  unfold candidate. destruct (scaled p q (d - n)) as [num den].
  repeat match goal with
         | |- context [if ?b then _ else _] => destruct b
         end; intros [= <-] || discriminate; apply decimal_text_plain.
Qed.

Lemma shortest_plain (x : F64.float) (s : bool) (p q d : Z) (tries : nat) : forall n,
  all_plain (shortest x s p q d n tries) = true.
Proof.
  induction tries as [|t IH]; intros n; cbn [shortest].
  - destruct (scaled p q (d - n)) as [num den]. apply decimal_text_plain.
  - destruct (candidate x s p q d n) as [text|] eqn:E; [|apply IH].
    now apply (candidate_plain x s p q d n).
Qed.

Lemma floatstr_plain (f : F64.float) : all_plain (floatstr f) = true.
Proof.
  destruct f as [s|s| |s m e]; cbn [floatstr];
    [now destruct s|now destruct s|reflexivity|].
  unfold repr. destruct (fraction m e) as [p q]. apply shortest_plain.
Qed.

Lemma newline_indent_plain (level : nat) : all_plain (newline_indent level) = true.
Proof. unfold newline_indent. cbn [all_plain]. apply spaces_plain. Qed.

Lemma item_separator_plain (level : nat) : all_plain (item_separator level) = true.
Proof. unfold item_separator. cbn [append all_plain]. apply newline_indent_plain. Qed.

Lemma all_plain_append (a b : string) :
  all_plain a = true -> all_plain b = true -> all_plain (a ++ b) = true.
Proof. intros Ha Hb. now rewrite all_plain_app, Ha, Hb. Qed.

Lemma encode_more_plain (enc : value -> string) (level : nat) (l : list value) :
  Forall (fun v => all_plain (enc v) = true) l ->
  all_plain (encode_more enc (item_separator level) l) = true.
Proof.
  induction 1 as [|v l Hv _ IH]; cbn [encode_more]; [reflexivity|].
  apply all_plain_append; [apply item_separator_plain|].
  now apply all_plain_append.
Qed.

Lemma encode_more_pairs_plain (enc : value -> string) (level : nat)
  (d : list (string * value)) :
  Forall (fun kv => all_plain (enc (snd kv)) = true) d ->
  all_plain (encode_more_pairs enc (item_separator level) d) = true.
Proof.
  induction 1 as [|kv d Hv _ IH]; cbn [encode_more_pairs]; [reflexivity|].
  apply all_plain_append; [apply item_separator_plain|].
  apply all_plain_append; [|exact IH].
  unfold encode_pair.
  apply all_plain_append; [apply encode_string_plain|].
  now apply all_plain_append.
Qed.

(** X17. The text [to_json] returns holds printable ASCII characters and
    line feeds only, whatever the catalogue holds: every other character
    of a string is written as an escape. *)
Theorem to_json_is_plain_ascii (sm : ShopManual) :
  all_plain (ShopManualMethods.to_json sm) = true.
Proof.
  unfold ShopManualMethods.to_json, dumps. generalize 0 as level.
  induction (entries sm) as [| b | n | f | s | l IH | d IH] using value_induction;
    intros level.

  - reflexivity.
  - now destruct b.
  - apply str_of_int_plain.
  - apply floatstr_plain.
  - apply encode_string_plain.
  - destruct l as [|v0 l]; [reflexivity|].
    cbn [encode].
    apply all_plain_append; [reflexivity|].
    apply all_plain_append; [apply newline_indent_plain|].
    apply all_plain_append; [apply (Forall_inv IH)|].
    apply all_plain_append;
      [|apply all_plain_append; [apply newline_indent_plain|reflexivity]].
    apply encode_more_plain.
    apply Forall_inv_tail in IH. revert IH. apply Forall_impl. intros v Hv. apply Hv.
  - destruct d as [|[k v0] d]; [reflexivity|].
    cbn [encode].
    apply all_plain_append; [reflexivity|].
    apply all_plain_append; [apply newline_indent_plain|].
    apply all_plain_append; [apply encode_string_plain|].
    apply all_plain_append; [reflexivity|].
    apply all_plain_append; [apply (Forall_inv IH)|].
    apply all_plain_append;
      [|apply all_plain_append; [apply newline_indent_plain|reflexivity]].
    apply encode_more_pairs_plain.
    apply Forall_inv_tail in IH. revert IH. apply Forall_impl. intros kv Hv. apply Hv.
Qed.

End PlainText.

(** ** Audits and the JSON text *)

Section AuditedText.
Import ShopManualMethods Json JsonSpec CatalogueSpec QuantumSpec.
Variable requests_get : string -> Response.

Lemma representable_atoms (l : list Atom) :
  representable (VList (map atom_value l)) = true ->
  forallb atom_representable l = true.
Proof.
  cbn [representable].
  induction l as [|a l IH]; cbn [map forallb]; [reflexivity|].
  intros H. apply andb_prop in H as [Ha Hl]. rewrite (IH Hl), andb_true_r.
  unfold atom_value in Ha. cbn [representable map fst snd forallb] in Ha.
  apply andb_prop in Ha as [_ Ha].
  unfold atom_representable.
  repeat (apply andb_prop in Ha as [? Ha]).
  repeat (apply andb_true_intro; split); assumption.
Qed.

Lemma reload_catalogue (es : list dict) (sm : ShopManual) :
  forallb well_formed es = true ->
  load_json (to_json (catalogue es)) sm = Some (Ok tt, catalogue es).
Proof.
  intros Hes. unfold load_json, to_json.
  now rewrite loads_dumps by now apply catalogue_representable.
Qed.

Lemma well_formed_snoc (es : list dict) (e : dict) :
  forallb well_formed es = true -> well_formed e = true ->
  forallb well_formed (es ++ [e]) = true.
Proof.
  intros Hes He. rewrite forallb_app, Hes. cbn [forallb]. now rewrite He.
Qed.

(** X18. What an audit appends can be exported and read back. On a
    catalogue of well-formed entries, the entry a quantum audit appends is
    well formed, and so is the entry a structural audit appends when the
    coordinates of its atoms have a JSON text that reads back; loading the
    text [to_json] gives for the catalogue after the audit restores that
    catalogue, the new entry included. *)
Theorem audited_catalogue_reloads (es : list dict) :
  forallb well_formed es = true ->
  (forall pdb_id part_id label e sm',
     QuantumAuditor.audit_quantum_candidate requests_get pdb_id part_id label
       (catalogue es) = (Ok e, sm') ->
     well_formed e = true
     /\ sm' = catalogue (es ++ [e])
     /\ forall sm, load_json (to_json sm') sm = Some (Ok tt, sm'))
  /\ (forall t e sm',
        AdaptiveAutoAuditor.audit_structure requests_get t (catalogue es) = (Ok e, sm') ->
        (forall v, dict_lookup e "Atoms" = Some v -> representable v = true) ->
        well_formed e = true
        /\ sm' = catalogue (es ++ [e])
        /\ forall sm, load_json (to_json sm') sm = Some (Ok tt, sm')).
Proof.
  intros Hes. split.
  - intros pdb_id part_id label e sm' Haudit.
    destruct (DataFetcher.fetch_pdb requests_get pdb_id) as [text|err] eqn:Hfetch.
    + destruct (audit_quantum_fetched requests_get pdb_id part_id label text
                  (catalogue es) Hfetch) as (d & score & _ & _ & Hv & Heq).
      rewrite Heq in Haudit. unfold mbind in Haudit.
      rewrite add_entry_catalogue in Haudit. injection Haudit as <- <-.
      pose proof (quantum_entry_well_formed pdb_id part_id label score Hv) as He.
      split; [exact He|]. split; [reflexivity|].
      intros sm. apply reload_catalogue. now apply well_formed_snoc.
    + unfold QuantumAuditor.audit_quantum_candidate, mbind, lift in Haudit.
      rewrite Hfetch in Haudit. discriminate.
  - intros t e sm'. rewrite audit_structure_audited.
    destruct (audited_entry requests_get t) as [e'|err] eqn:Ea; [|discriminate].
    intros [= -> <-] Hatoms.
    destruct (audited_entry_fields requests_get t e Ea) as (p & d & _ & ->).
    assert (He : well_formed (structural_entry t (VStr p)
                                (format_opt (dict_lookup t "PDB")) ScoreSpec.hundred d)
                 = true).
    { apply structural_entry_well_formed. apply representable_atoms.
      apply Hatoms. reflexivity. }
    split; [exact He|]. split; [reflexivity|].
    intros sm. apply reload_catalogue. now apply well_formed_snoc.
Qed.

(** X19. [load_json] does not look at what the text decodes to. When
    [json.loads] raises, as it does on the empty text, the error is a
    [ValueError] and the catalogue is left as it was. When it returns a
    value, the value replaces the catalogue, whatever it is; if it is not
    a list, [add_entry] raises [AttributeError] from then on and the
    catalogue stays what was loaded. The embedding gives [load_json] no
    outcome only on a text that holds an escape above 00ff, such as the
    text of a list with the string [\u0100]. *)
Theorem load_json_takes_any_json (json_str : string) (sm : ShopManual) :
  (forall err, loads json_str = Some (Raise err) ->
               err = ValueError
               /\ load_json json_str sm = Some (Raise ValueError, sm))
  /\ load_json "" sm = Some (Raise ValueError, sm)
  /\ (forall v, loads json_str = Some (Ok v) ->
        load_json json_str sm = Some (Ok tt, mkShopManual v)
        /\ ((forall l, v <> VList l) ->
            forall e,
              add_entry e (mkShopManual v) = (Raise AttributeError, mkShopManual v))
        /\ (forall l e,
              v = VList l ->
              add_entry e (mkShopManual v)
              = (Ok tt, mkShopManual (VList (l ++ [VDict e])))))
  /\ (load_json json_str sm = None <-> loads json_str = None)
  /\ (loads json_str = None -> mentions_wide json_str = true)
  /\ load_json wide_text sm = None.
Proof.
  split; [|split; [|split; [|split; [|split]]]].
  - intros err Herr.
    assert (err = ValueError) as ->.
    { unfold loads in Herr.
      destruct (scan_once _ _) as [[v rest]|].
      - destruct (skip_ws rest); congruence.
      - destruct (mentions_wide json_str); congruence. }
    split; [reflexivity|]. unfold load_json. now rewrite Herr.
  - reflexivity.
  - intros v Hv. unfold load_json. rewrite Hv.
    split; [reflexivity|]. split.
    + intros Hlist e. unfold add_entry. cbn [entries].
      destruct v; try reflexivity. now destruct (Hlist items).
    + intros l e ->. reflexivity.
  - unfold load_json. destruct (loads json_str) as [[v|e]|]; split; congruence.
  - unfold loads. destruct (scan_once _ _) as [[v rest]|].
    + destruct (skip_ws rest); discriminate.
    + destruct (mentions_wide json_str); [reflexivity|discriminate].
  - reflexivity.
Qed.

End AuditedText.

Lemma audited_catalogue_reloads_witness :
  (forall pdb_id part_id label e sm',
     QuantumAuditor.audit_quantum_candidate QuantumSpec.fixture_client pdb_id part_id label
       (catalogue CatalogueSpec.example_entries) = (Ok e, sm') ->
     JsonSpec.well_formed e = true
     /\ sm' = catalogue (CatalogueSpec.example_entries ++ [e])
     /\ forall sm,
          ShopManualMethods.load_json (ShopManualMethods.to_json sm') sm
          = Some (Ok tt, sm'))
  /\ (forall t e sm',
        AdaptiveAutoAuditor.audit_structure QuantumSpec.fixture_client t
          (catalogue CatalogueSpec.example_entries) = (Ok e, sm') ->
        (forall v, dict_lookup e "Atoms" = Some v -> JsonSpec.representable v = true) ->
        JsonSpec.well_formed e = true
        /\ sm' = catalogue (CatalogueSpec.example_entries ++ [e])
        /\ forall sm,
             ShopManualMethods.load_json (ShopManualMethods.to_json sm') sm
             = Some (Ok tt, sm')).
Proof.
  apply (audited_catalogue_reloads QuantumSpec.fixture_client CatalogueSpec.example_entries).
  vm_compute. reflexivity.
Defined.

(** ** A batch size that is not positive *)

Section EmptyBatches.
Import ShopManualMethods AdaptiveAutoAuditor.
Variable requests_get : string -> Response.

(** X20. With a batch size of zero or less and a target in the queue,
    [auto_run] never ends: each round takes an empty batch off the queue,
    audits nothing, and leaves the queue and the catalogue as they were,
    so no number of rounds reaches the end of the loop. *)
Theorem auto_run_needs_positive_batch_size (self : Auditor) (sm : ShopManual) :
  (batch_size self <= 0)%Z ->
  targets self <> [] ->
  let n := Z.to_nat (Z.min (batch_size self) (Z.of_nat (List.length (targets self)))) in
  firstn n (targets self) = []
  /\ skipn n (targets self) = targets self
  /\ run_batch requests_get (firstn n (targets self)) sm = (Ok [], sm)
  /\ forall fuel, auto_run requests_get fuel self sm = None.
Proof.
  intros Hsize Hqueue n.
  assert (Hn : n = 0) by (unfold n; lia).
  rewrite Hn. cbn [firstn skipn].
  split; [reflexivity|]. split; [reflexivity|]. split; [reflexivity|].
  intros fuel. revert self sm Hsize Hqueue n Hn.
  induction fuel as [|fuel IH]; intros self sm Hsize Hqueue n Hn;
    destruct (targets self) as [|t0 ts] eqn:Ets; try congruence; cbn [auto_run];
    rewrite Ets; [reflexivity|].
  fold n. rewrite Hn.
  cbn [firstn skipn run_batch run_batch_from ret].
  apply (IH (mkAuditor (t0 :: ts) (batch_size self)) sm); cbn [batch_size targets];
    [exact Hsize|congruence|lia].
Qed.

End EmptyBatches.

Lemma auto_run_needs_positive_batch_size_witness :
  firstn (Z.to_nat (Z.min 0 (Z.of_nat (List.length generate_targets)))) generate_targets
  = []
  /\ skipn (Z.to_nat (Z.min 0 (Z.of_nat (List.length generate_targets)))) generate_targets
     = generate_targets
  /\ AdaptiveAutoAuditor.run_batch QuantumSpec.fixture_client
       (firstn (Z.to_nat (Z.min 0 (Z.of_nat (List.length generate_targets))))
          generate_targets)
       ShopManualMethods.init = (Ok [], ShopManualMethods.init)
  /\ forall fuel,
       AdaptiveAutoAuditor.auto_run QuantumSpec.fixture_client fuel
         (AdaptiveAutoAuditor.mkAuditor generate_targets 0) ShopManualMethods.init = None.
Proof.
  apply (auto_run_needs_positive_batch_size QuantumSpec.fixture_client
           (AdaptiveAutoAuditor.mkAuditor generate_targets 0) ShopManualMethods.init).
  - cbn. lia.
  - discriminate.
Defined.

(** ** Lines laid out in columns *)

Section LaidOutLines.
Import Py DataFetcher ParseSpec PipelineSpec.

(** The parser reads each field from the columns of the line. *)
Lemma atom_of_laid_out_line (c : Columns) :
  laid_out c ->
  atom_of_line (line_of c) =
  (serial <- PyNum.int (serial_field c) ;;
   resSeq <- PyNum.int (seq_field c) ;;
   x <- PyNum.float (x_field c) ;;
   y <- PyNum.float (y_field c) ;;
   z <- PyNum.float (z_field c) ;;
   Ok (mkAtom serial (strip (name_field c)) (strip (res_field c))
              (String (chain_field c) EmptyString) resSeq x y z)).
Proof.
  destruct c as [tag sf c11 nf c16 rf c20 ch qf gap xf yf zf rest].
  unfold laid_out, line_of. cbn [map tag_field serial_field column_11 name_field
    column_16 res_field column_20 chain_field seq_field columns_26_29 x_field y_field
    z_field tail_field].
  intros H. injection H as Ht Hs Hn Hr Hq Hg Hx Hy Hz.
  explode tag Ht. explode sf Hs. explode nf Hn. explode rf Hr. explode qf Hq.
  explode gap Hg. explode xf Hx. explode yf Hy. explode zf Hz.
  unfold atom_of_line, slice, index. cbn [append substring Nat.sub get].
  destruct (PyNum.int _) as [n|]; [|reflexivity]. cbn [bind].
  destruct rest; reflexivity.
Qed.

(** X21. A line laid out in the columns of the PDB format is read field
    by field. When the serial and the residue number are written as
    decimal numerals at the right of their columns and each coordinate as
    digits with a point at the right of its eight columns, an ATOM or
    HETATM line yields one record: these two numbers, the name and the
    residue name without the white space around them, the character of
    column 21, and for each coordinate the float nearest to the number
    written; the characters between the fields and after column 53 are
    not read. *)
Theorem laid_out_line_parses (c : Columns) (n r : Z) (dx dy dz : Fixed) :
  laid_out c ->
  tag_field c = "ATOM  " \/ tag_field c = "HETATM" ->
  serial_field c = rjust 5 (str_of_int n) ->
  seq_field c = rjust 4 (str_of_int r) ->
  x_field c = rjust 8 (fixed_text dx) ->
  y_field c = rjust 8 (fixed_text dy) ->
  z_field c = rjust 8 (fixed_text dz) ->
  has_digit dx -> has_digit dy -> has_digit dz ->
  record_of_line (line_of c)
  = [mkAtom n (strip (name_field c)) (strip (res_field c))
            (String (chain_field c) EmptyString) r
            (fixed_value dx) (fixed_value dy) (fixed_value dz)].
Proof.
  intros Hc Htag Hs Hq Hx Hy Hz Dx Dy Dz.
  assert (Hatom : is_atom_line (line_of c) = true).
  { unfold line_of, is_atom_line.
    destruct Htag as [-> | ->]; [reflexivity|].
    cbn [append startswith Ascii.eqb Bool.eqb andb orb].
    match goal with
    | |- context [startswith ?s EmptyString] => now destruct s
    end. }
  unfold record_of_line. rewrite Hatom, (atom_of_laid_out_line c Hc).
  rewrite Hs, Hq, Hx, Hy, Hz. unfold rjust, fixed_text.
  rewrite !int_of_padded. cbn [bind].
  rewrite !float_of_fixed_point by assumption. reflexivity.
Qed.

End LaidOutLines.

Lemma laid_out_line_parses_witness :
  ParseSpec.record_of_line
    (PipelineSpec.line_of
       (PipelineSpec.mkColumns "ATOM  " "    1" " " "FE  " " " "MAG" " " "A" "  10" "    "
          "   1.000" "   2.000" "   3.000" ""))
  = [mkAtom 1 (Py.strip "FE  ") (Py.strip "MAG") "A" 10
       (PipelineSpec.fixed_value
          (PipelineSpec.mkFixed false (Decimal.D1 Decimal.Nil)
             (Decimal.D0 (Decimal.D0 (Decimal.D0 Decimal.Nil)))))
       (PipelineSpec.fixed_value
          (PipelineSpec.mkFixed false (Decimal.D2 Decimal.Nil)
             (Decimal.D0 (Decimal.D0 (Decimal.D0 Decimal.Nil)))))
       (PipelineSpec.fixed_value
          (PipelineSpec.mkFixed false (Decimal.D3 Decimal.Nil)
             (Decimal.D0 (Decimal.D0 (Decimal.D0 Decimal.Nil)))))].
Proof.
  apply (laid_out_line_parses
           (PipelineSpec.mkColumns "ATOM  " "    1" " " "FE  " " " "MAG" " " "A" "  10"
              "    " "   1.000" "   2.000" "   3.000" "")
           1 10
           (PipelineSpec.mkFixed false (Decimal.D1 Decimal.Nil)
              (Decimal.D0 (Decimal.D0 (Decimal.D0 Decimal.Nil))))
           (PipelineSpec.mkFixed false (Decimal.D2 Decimal.Nil)
              (Decimal.D0 (Decimal.D0 (Decimal.D0 Decimal.Nil))))
           (PipelineSpec.mkFixed false (Decimal.D3 Decimal.Nil)
              (Decimal.D0 (Decimal.D0 (Decimal.D0 Decimal.Nil))))).
  - reflexivity.
  - left. reflexivity.
  - reflexivity.
  - reflexivity.
  - reflexivity.
  - reflexivity.
  - reflexivity.
  - left. discriminate.
  - left. discriminate.
  - left. discriminate.
Defined.

(** ** Atoms and the quantum score *)

Section MoreAtoms.
Import QuantumAuditor PipelineSpec.
Variable requests_get : string -> Response.

Lemma truthy_count_app {A : Type} (cond : A -> bool) (l more : list A) :
  truthy (count_ones cond l) = true -> truthy (count_ones cond (l ++ more)) = true.
Proof.
  unfold truthy. rewrite count_ones_app, !count_ones_length.
  rewrite !negb_true_iff, !Z.eqb_neq. lia.
Qed.

Lemma truthy_flag_app (l more : list Atom) :
  truthy (if str_in "FAD" (map resName l) then 1 else 0) = true ->
  truthy (if str_in "FAD" (map resName (l ++ more)) then 1 else 0) = true.
Proof.
  unfold str_in. rewrite map_app, existsb_app.
  now destruct (existsb (String.eqb "FAD") (map resName l)).
Qed.

(** X22. More atoms never lower the quantum score: the score an audit
    gives a structure is computed, and it is at most the score it gives a
    structure with the same atoms and further ones, whatever the headers.
    The entry of a quantum audit carries this score of the parsed
    text. *)
Theorem quantum_score_grows_with_atoms
  (h h' : list (string * string)) (l more : list Atom) :
  score_le (audit_score (mkParsed h l)) (audit_score (mkParsed h' (l ++ more))) = true
  /\ (forall pdb_id part_id label text parsed es,
        DataFetcher.fetch_pdb requests_get pdb_id = Ok text ->
        DataFetcher.parse_pdb_to_json text = Ok parsed ->
        exists score,
          audit_score parsed = Ok score
          /\ audit_quantum_candidate requests_get pdb_id part_id label (catalogue es)
             = (Ok (QuantumSpec.quantum_entry pdb_id part_id label score),
                catalogue (es ++ [QuantumSpec.quantum_entry pdb_id part_id label score]))).
Proof.
  split.
  - unfold audit_score, identify_quantum_features.
    cbn [atoms aromatic_rings radical_pairs metal_clusters].
    pose proof (truthy_count_app (fun a => str_in (resName a) ["PHE"; "TRP"; "TYR"])
                  l more) as Ha.
    pose proof (truthy_count_app (fun a => str_in (name a) ["FE"; "MN"; "CU"; "MG"])
                  l more) as Hm.
    pose proof (truthy_flag_app l more) as Hr.
    destruct (truthy (count_ones (fun a => str_in (resName a) ["PHE"; "TRP"; "TYR"]) l));
      [rewrite (Ha eq_refl)|clear Ha];
      (destruct (truthy (count_ones (fun a => str_in (name a) ["FE"; "MN"; "CU"; "MG"]) l));
       [rewrite (Hm eq_refl)|clear Hm]);
      (destruct (truthy (if str_in "FAD" (map resName l) then 1 else 0)%Z);
       [rewrite (Hr eq_refl)|clear Hr]);
      repeat match goal with
             | |- context [truthy ?n] => destruct (truthy n)
             end;
      vm_compute; reflexivity.
  - intros pdb_id part_id label text parsed es Hfetch Hparse.
    assert (Hscore : exists score, audit_score parsed = Ok score).
    { unfold audit_score.
      repeat match goal with
             | |- context [truthy ?n] => destruct (truthy n)
             end; eexists; vm_compute; reflexivity. }
    destruct Hscore as [score Hscore]. exists score. split; [exact Hscore|].
    unfold audit_quantum_candidate, mbind at 1, lift at 1. rewrite Hfetch.
    unfold mbind at 1, lift at 1. rewrite Hparse.
    unfold mbind at 1, lift at 1. unfold audit_score in Hscore. rewrite Hscore.
    unfold mbind. now rewrite add_entry_catalogue.
Qed.

End MoreAtoms.
